(** * ESG dashboard: shallow embedding of the analytics core

    The development embeds the numeric core of the dashboard
    ([src/data_loader.py], [src/esg_analyzer.py], [src/esg_simulator.py],
    [src/peer_benchmark.py]) and proves the properties stated about it.

    Conventions of the embedding.
    - A Python/numpy number is an exact rational ([Q]); binary64 rounding
      error is not modelled, except for the projected trajectory, which is
      also given over an arithmetic left open ([Arith]).  A dataframe cell
      is [option Q], where [None] is NaN (a missing value): arithmetic
      propagates it and every comparison with it is false, as in numpy.
    - A dataframe is the list of its rows in index order; a row is a record
      with one field per column of the dataset.
    - A Python dict used as a map is a [gmap string _].
    - Code that can raise returns in the [result] monad. *)

From Stdlib Require Import ZArith QArith Qround Qminmax Lqa Lia List.
From Stdlib Require Import Sorting.Permutation Sorting.Sorted.
From Stdlib Require Import Qpower Qabs OrdersEx.
From stdpp Require Import base option list gmap strings.

Open Scope Q_scope.
Open Scope string_scope.

(** ** Numbers *)

Module Num.

(** [a < b] on Python numbers. *)
Definition Qltb (a b : Q) : bool := negb (Qle_bool b a).
Definition Qgeb (a b : Q) : bool := Qle_bool b a.

(** The builtin [min(a, b)]: the first argument is kept unless the second
    is strictly smaller. *)
Definition py_min (a b : Q) : Q := if Qltb b a then b else a.

(** [round(x)] to an integer, ties to the even neighbour. *)
Definition round_half_even (x : Q) : Z :=
  let f := Qfloor x in
  let r := x - inject_Z f in
  if Qltb r (1 # 2) then f
  else if Qltb (1 # 2) r then (f + 1)%Z
  else if Z.even f then f else (f + 1)%Z.

(** [round(x, 1)]. *)
Definition round1 (x : Q) : Q := inject_Z (round_half_even (x * 10)) / 10.

(** Dataframe cells: [None] is NaN. *)
Definition cell : Type := option Q.

Definition clt (a b : cell) : bool :=
  match a, b with Some x, Some y => Qltb x y | _, _ => false end.
Definition cgt (a b : cell) : bool := clt b a.
Definition csub (a b : cell) : cell :=
  match a, b with Some x, Some y => Some (x - y) | _, _ => None end.
Definition cmul (a b : cell) : cell :=
  match a, b with Some x, Some y => Some (x * y) | _, _ => None end.
Definition cround1 (a : cell) : cell := option_map round1 a.
Definition of_int (n : Z) : cell := Some (inject_Z n).
Definition of_len {A : Type} (l : list A) : cell := of_int (Z.of_nat (length l)).

(** [series.dropna()]. *)
Fixpoint dropna (xs : list cell) : list Q :=
  match xs with
  | [] => []
  | Some x :: xs' => x :: dropna xs'
  | None :: xs' => dropna xs'
  end.

Definition qsum (xs : list Q) : Q := foldl Qplus 0 xs.

(** [mask.sum()] on a boolean series. *)
Definition bool_sum (bs : list bool) : Z :=
  foldl (fun n (b : bool) => if b then (n + 1)%Z else n) 0%Z bs.

(** [series.mean()]: missing values are skipped; NaN when none is left. *)
Definition series_mean (xs : list cell) : cell :=
  match dropna xs with
  | [] => None
  | ys => Some (qsum ys / inject_Z (Z.of_nat (length ys)))
  end.

Fixpoint insert_sorted (x : Q) (sorted : list Q) : list Q :=
  match sorted with
  | [] => [x]
  | y :: rest => if Qle_bool x y then x :: sorted else y :: insert_sorted x rest
  end.

(** [series.median()]: missing values are skipped. *)
Definition series_median (xs : list cell) : cell :=
  let ys := foldr insert_sorted [] (dropna xs) in
  let n := length ys in
  match ys with
  | [] => None
  | _ =>
      if Nat.even n
      then Some ((nth (n / 2 - 1) ys 0 + nth (n / 2) ys 0) / 2)
      else Some (nth (n / 2) ys 0)
  end.

(** The sample variance behind [series.std()] (one degree of freedom
    removed): NaN with fewer than two values. *)
Definition series_var (xs : list cell) : cell :=
  let ys := dropna xs in
  let n := length ys in
  if (n <=? 1)%nat then None
  else
    let avg := qsum ys / inject_Z (Z.of_nat n) in
    Some (qsum (map (fun y => (y - avg) * (y - avg)) ys)
          / inject_Z (Z.of_nat n - 1)).

End Num.

(** ** Exceptions *)

Inductive exn : Set := KeyError | IndexError | TypeError | ZeroDivisionError.

Inductive result (A : Type) : Type :=
| Ok (a : A)
| Raise (e : exn).
Arguments Ok {A} a.
Arguments Raise {A} e.

#[global] Instance result_ret : MRet result := fun A a => Ok a.
#[global] Instance result_bind : MBind result := fun A B f m =>
  match m with Ok a => f a | Raise e => Raise e end.

(** [d[k]] on a dict. *)
Definition dict_get {V : Type} (d : gmap string V) (k : string) : result V :=
  match d !! k with Some v => Ok v | None => Raise KeyError end.

(** [d.get(k, dflt)] on a dict. *)
Definition dict_get_default {V : Type} (d : gmap string V) (k : string) (dflt : V) : V :=
  match d !! k with Some v => v | None => dflt end.

(** [l.append(x)]. *)
Definition append {A : Type} (l : list A) (x : A) : list A := (l ++ [x])%list.

(** A loop whose body can raise, threading an accumulator. *)
Fixpoint foldM {A B : Type} (f : B -> A -> result B) (b : B) (l : list A) : result B :=
  match l with
  | [] => mret b
  | a :: l' => b' ← f b a; foldM f b' l'
  end.

(** A loop whose body can raise, collecting one value per element. *)
Fixpoint forM {A B : Type} (f : A -> result B) (l : list A) : result (list B) :=
  match l with
  | [] => mret []
  | a :: l' => b ← f a; bs ← forM f l'; mret (b :: bs)
  end.

(** ** src/esg_simulator.py *)

Module EsgSimulator.
Import Num.

(** [self.weights], set by [__init__]. *)
Definition weights : gmap string Q :=
  <["governance" := 34 # 100]>
    (<["social" := 33 # 100]>
       (<["environmental" := 33 # 100]> ∅)).

Definition calculate_total_score (env_score social_score gov_score : Q) : result Q :=
  we ← dict_get weights "environmental";
  ws ← dict_get weights "social";
  wg ← dict_get weights "governance";
  mret (env_score * we + social_score * ws + gov_score * wg).

(** The dict returned by [simulate_improvements]: four inner dicts under
    fixed keys. *)
Record simulation := {
  current : gmap string Q;
  projected : gmap string Q;
  delta : gmap string Q;
  improvement_pct : gmap string Q
}.

Definition pillars : list string := ["environmental"; "social"; "governance"].

(** One iteration of the loop over the pillars. *)
Definition simulate_pillar (current_scores improvements : gmap string Q)
    (results : simulation) (pillar : string) : simulation :=
  let cur := dict_get_default current_scores pillar 0 in
  let pct := dict_get_default improvements pillar 0 in
  let proj := py_min 100 (cur + (cur * pct / 100)) in
  {| current := current results;
     projected := <[pillar := proj]> (projected results);
     delta := <[pillar := proj - cur]> (delta results);
     improvement_pct := improvement_pct results |}.

Definition simulate_improvements (current_scores improvements : gmap string Q)
    : result simulation :=
  let results := {| current := current_scores; projected := ∅; delta := ∅;
                    improvement_pct := improvements |} in
  let results := foldl (simulate_pillar current_scores improvements) results pillars in
  cur_total ← calculate_total_score
                (dict_get_default current_scores "environmental" 0)
                (dict_get_default current_scores "social" 0)
                (dict_get_default current_scores "governance" 0);
  let results := {| current := <["total" := cur_total]> (current results);
                    projected := projected results;
                    delta := delta results;
                    improvement_pct := improvement_pct results |} in
  pe ← dict_get (projected results) "environmental";
  ps ← dict_get (projected results) "social";
  pg ← dict_get (projected results) "governance";
  proj_total ← calculate_total_score pe ps pg;
  let results := {| current := current results;
                    projected := <["total" := proj_total]> (projected results);
                    delta := delta results;
                    improvement_pct := improvement_pct results |} in
  pt ← dict_get (projected results) "total";
  ct ← dict_get (current results) "total";
  mret {| current := current results;
          projected := projected results;
          delta := <["total" := pt - ct]> (delta results);
          improvement_pct := improvement_pct results |}.

(** [range(n)]. *)
Definition py_range (n : Z) : list Z := map Z.of_nat (seq 0 (Z.to_nat n)).

(** Body of the innermost loop of [predict_future_trajectory]. *)
Definition trajectory_step (rate : Q) (score : Q) : Q :=
  let improvement := (100 - score) * (rate / 100) * (1 # 2) in
  py_min 100 (score + improvement).

(** The score of one pillar after [year] rounds of the inner loop. *)
Definition pillar_score (current rate : Q) (year : Z) : Q :=
  foldl (fun score _ => trajectory_step rate score) current (py_range year).

(** Loop over the pillars for one projection year. *)
Definition year_pillar (current_scores annual_improvement_rate : gmap string Q)
    (year : Z) (year_data : gmap string Q) (pillar : string) : gmap string Q :=
  let cur := dict_get_default current_scores pillar 0 in
  let rate := dict_get_default annual_improvement_rate pillar 0 in
  <[pillar := round1 (pillar_score cur rate year)]> year_data.

Definition year_row (current_scores annual_improvement_rate : gmap string Q)
    (year : Z) : result (gmap string Q) :=
  let year_data := <["year" := inject_Z year]> ∅ in
  let year_data :=
    foldl (year_pillar current_scores annual_improvement_rate year) year_data pillars in
  e ← dict_get year_data "environmental";
  s ← dict_get year_data "social";
  g ← dict_get year_data "governance";
  total ← calculate_total_score e s g;
  mret (<["total" := total]> year_data).

(** [projections.append(year_data)] for each year in turn. *)
Fixpoint collect_years (current_scores annual_improvement_rate : gmap string Q)
    (ys : list Z) : result (list (gmap string Q)) :=
  match ys with
  | [] => mret []
  | y :: ys' =>
      r ← year_row current_scores annual_improvement_rate y;
      rs ← collect_years current_scores annual_improvement_rate ys';
      mret (r :: rs)
  end.

Definition predict_future_trajectory
    (current_scores annual_improvement_rate : gmap string Q) (years : Z)
    : result (list (gmap string Q)) :=
  collect_years current_scores annual_improvement_rate (py_range (years + 1)).

(** [_score_to_rating]. *)
Definition _score_to_rating (score : Q) : string :=
  if Qgeb score 80 then "AAA"
  else if Qgeb score 75 then "AA"
  else if Qgeb score 70 then "A"
  else if Qgeb score 65 then "BBB"
  else if Qgeb score 60 then "BB"
  else if Qgeb score 55 then "B"
  else if Qgeb score 50 then "CCC"
  else if Qgeb score 40 then "CC"
  else "C".

(** Division by a divisor that is not a literal: a zero divisor raises. *)
Definition py_div (a b : Q) : result Q :=
  if Qeq_bool b 0 then Raise ZeroDivisionError else Ok (a / b).

(** Parts of the message of [generate_recommendations]: text, a number
    printed with one decimal, a number printed as it is. *)
Inductive mpart : Type :=
| MText (s : string)
| MFixed1 (q : Q)
| MValue (q : Q).

(** Values of the dict returned by [generate_recommendations]. *)
Inductive rec_value : Type :=
| RMessage (m : list mpart)
| RPillar (d : gmap string Q)
| RNumber (q : Q).

(** Body of the loop over the pillars in [generate_recommendations]. *)
Definition recommend_pillar (current_scores : gmap string Q) (gap : Q)
    (recommendations : gmap string rec_value) (pillar : string)
    : result (gmap string rec_value) :=
  let cur := dict_get_default current_scores pillar 0 in
  weight ← dict_get weights pillar;
  let points_needed := gap / 3 in
  score_increase ← py_div points_needed weight;
  increase_pct ← (if Qltb 0 cur
                  then q ← py_div score_increase cur; mret (q * 100)
                  else mret 0);
  mret (<[pillar := RPillar
            (<["increase_pct" := increase_pct]>
               (<["increase_needed" := score_increase]>
                  (<["target" := py_min 100 (cur + score_increase)]>
                     (<["current" := cur]> ∅))))]> recommendations).

Definition generate_recommendations (current_scores : gmap string Q) (target_score : Q)
    : result (gmap string rec_value) :=
  current_total ← calculate_total_score
                    (dict_get_default current_scores "environmental" 0)
                    (dict_get_default current_scores "social" 0)
                    (dict_get_default current_scores "governance" 0);
  if Qgeb current_total target_score
  then mret (<["message" := RMessage [MText "Current score ("; MFixed1 current_total;
                                      MText ") already meets or exceeds target (";
                                      MValue target_score; MText ")!"]]> ∅)
  else
    let gap := target_score - current_total in
    recommendations ← foldM (recommend_pillar current_scores gap) ∅ pillars;
    mret (<["target_total" := RNumber target_score]>
            (<["current_total" := RNumber current_total]>
               (<["gap" := RNumber gap]> recommendations))).

(** Body of the loop over the pillars in [benchmark_simulation]. *)
Definition benchmark_pillar (company_scores sector_avg_scores : gmap string Q)
    (improvements : gmap string Q) (pillar : string) : result (gmap string Q) :=
  let cur := dict_get_default company_scores pillar 0 in
  let target := dict_get_default sector_avg_scores pillar 0 in
  if Qltb cur target
  then
    improvement_needed ← (if Qltb 0 cur
                          then q ← py_div (target - cur) cur; mret (q * 100)
                          else mret 0);
    mret (<[pillar := improvement_needed]> improvements)
  else mret (<[pillar := 0]> improvements).

Definition benchmark_simulation (company_scores sector_avg_scores : gmap string Q)
    : result simulation :=
  improvements ← foldM (benchmark_pillar company_scores sector_avg_scores) ∅ pillars;
  simulate_improvements company_scores improvements.

End EsgSimulator.

(** ** The dataset *)

Module Frame.
Import Num.

(** One line of the dataset. *)
Record row := {
  company : string;
  sector : string;
  country : string;
  year : Z;
  environmental_score : cell;
  social_score : cell;
  governance_score : cell;
  total_esg_score : cell;
  carbon_emissions_mt : cell;
  energy_intensity : cell;
  waste_recycled_pct : cell;
  diversity_score : cell;
  employee_turnover_pct : cell;
  safety_incidents : cell;
  board_independence_pct : cell;
  executive_pay_ratio : cell;
  controversy_score : cell;
  market_cap_billion : cell
}.

(** A dataframe: its rows, in index order. *)
Abbreviation frame := (list row).

(** [row[name]] for a numeric column; [None] when the frame has no such
    numeric column (the three text columns are read through their
    fields). *)
Definition get_metric (r : row) (name : string) : option cell :=
  if String.eqb name "year" then Some (Some (inject_Z (year r)))
  else if String.eqb name "environmental_score" then Some (environmental_score r)
  else if String.eqb name "social_score" then Some (social_score r)
  else if String.eqb name "governance_score" then Some (governance_score r)
  else if String.eqb name "total_esg_score" then Some (total_esg_score r)
  else if String.eqb name "carbon_emissions_mt" then Some (carbon_emissions_mt r)
  else if String.eqb name "energy_intensity" then Some (energy_intensity r)
  else if String.eqb name "waste_recycled_pct" then Some (waste_recycled_pct r)
  else if String.eqb name "diversity_score" then Some (diversity_score r)
  else if String.eqb name "employee_turnover_pct" then Some (employee_turnover_pct r)
  else if String.eqb name "safety_incidents" then Some (safety_incidents r)
  else if String.eqb name "board_independence_pct" then Some (board_independence_pct r)
  else if String.eqb name "executive_pay_ratio" then Some (executive_pay_ratio r)
  else if String.eqb name "controversy_score" then Some (controversy_score r)
  else if String.eqb name "market_cap_billion" then Some (market_cap_billion r)
  else None.

(** [df[name]]: the column as a series, [KeyError] without it. *)
Fixpoint column (df : frame) (name : string) : result (list cell) :=
  match df with
  | [] => mret []
  | r :: df' =>
      v ← (match get_metric r name with Some v => Ok v | None => Raise KeyError end);
      vs ← column df' name;
      mret (v :: vs)
  end.

(** [df[df['company'] == c]]. *)
Definition company_rows (df : frame) (c : string) : frame :=
  List.filter (fun r => String.eqb (company r) c) df.

(** [df['year'].max()]; [None] (NaN) on an empty frame. *)
Definition year_max (df : frame) : option Z :=
  match df with
  | [] => None
  | r :: df' => Some (foldl (fun m r' => Z.max m (year r')) (year r) df')
  end.

(** [df['year'] == y] for the result of [max()]: nothing equals NaN. *)
Definition year_is (y : option Z) (r : row) : bool :=
  match y with Some y => Z.eqb (year r) y | None => false end.

(** [df.iloc[0]]. *)
Definition iloc0 (df : frame) : result row :=
  match df with r :: _ => Ok r | [] => Raise IndexError end.

End Frame.

(** ** The object store

    Dataframes are mutable objects with identity: a function that receives
    a dataframe receives a reference.  The store maps object identities to
    frames; creating a frame allocates a fresh identity. *)

Module Store.
Import Frame.

Abbreviation loc := nat.
Abbreviation heap := (gmap nat frame).

(** A computation that reads and extends the store. *)
Definition St (A : Type) : Type := heap -> A * heap.

Definition st_ret {A : Type} (a : A) : St A := fun h => (a, h).
Definition st_bind {A B : Type} (m : St A) (k : A -> St B) : St B :=
  fun h => let '(a, h') := m h in k a h'.

Definition read (l : loc) (h : heap) : frame :=
  match h !! l with Some f => f | None => [] end.

Definition alloc (f : frame) : St loc :=
  fun h => let l := fresh (dom h) in (l, <[l := f]> h).

(** [df.copy()]. *)
Definition df_copy (df : loc) : St loc := fun h => alloc (read df h) h.

(** [df[mask]] for a boolean mask computed row by row. *)
Definition df_mask (df : loc) (mask : row -> bool) : St loc :=
  fun h => alloc (List.filter mask (read df h)) h.

End Store.

(** ** src/data_loader.py *)

Module DataLoader.
Import Num Frame Store.

(** Truth value of an optional list argument: [None] and [[]] are false. *)
Definition truthy {A : Type} (arg : option (list A)) : bool :=
  match arg with Some (_ :: _) => true | _ => false end.

(** [series.isin(values)], element-wise. *)
Definition isin_str (x : string) (arg : option (list string)) : bool :=
  match arg with Some vs => existsb (String.eqb x) vs | None => false end.
Definition isin_int (x : Z) (arg : option (list Z)) : bool :=
  match arg with Some vs => existsb (Z.eqb x) vs | None => false end.

Definition filter_data (df : loc)
    (companies sectors countries : option (list string)) (years : option (list Z))
    : St loc :=
  st_bind (df_copy df) (fun filtered_df =>
  st_bind (if truthy companies
           then df_mask filtered_df (fun r => isin_str (company r) companies)
           else st_ret filtered_df) (fun filtered_df =>
  st_bind (if truthy sectors
           then df_mask filtered_df (fun r => isin_str (sector r) sectors)
           else st_ret filtered_df) (fun filtered_df =>
  st_bind (if truthy countries
           then df_mask filtered_df (fun r => isin_str (country r) countries)
           else st_ret filtered_df) (fun filtered_df =>
  st_bind (if truthy years
           then df_mask filtered_df (fun r => isin_int (year r) years)
           else st_ret filtered_df) (fun filtered_df =>
  st_ret filtered_df))))).

(** [df.sort_values('year')]: ascending.  The default sort of pandas does
    not fix the order among rows with equal years; this model keeps their
    relative order, and the properties proved below do not depend on that
    choice. *)
Fixpoint insert_by_year (r : row) (sorted : frame) : frame :=
  match sorted with
  | [] => [r]
  | r' :: rest =>
      if (year r <=? year r')%Z then r :: sorted
      else r' :: insert_by_year r rest
  end.

Definition sort_values_year (df : frame) : frame :=
  foldr insert_by_year [] df.

(** A frame that carries columns added after loading, by name. *)
Record xrow := { base : row; extra : gmap string cell }.

(** [series.diff()]. *)
Fixpoint diff_from (prev : cell) (xs : list cell) : list cell :=
  match xs with
  | [] => []
  | x :: xs' => csub x prev :: diff_from x xs'
  end.

Definition series_diff (xs : list cell) : list cell :=
  match xs with
  | [] => []
  | x :: xs' => None :: diff_from x xs'
  end.

(** [df[name] = series]: the series is aligned with the rows. *)
Fixpoint set_column (name : string) (df : list xrow) (series : list cell) : list xrow :=
  match df, series with
  | r :: df', v :: series' =>
      {| base := base r; extra := <[name := v]> (extra r) |} :: set_column name df' series'
  | _, _ => df
  end.

Definition score_columns : list string :=
  ["environmental_score"; "social_score"; "governance_score"; "total_esg_score"].

(** The loop over the score columns of [calculate_yoy_change]. *)
Fixpoint add_changes (cols : list string) (company_df : list xrow) : result (list xrow) :=
  match cols with
  | [] => mret company_df
  | col :: cols' =>
      series ← column (map base company_df) col;
      add_changes cols' (set_column (col ++ "_change") company_df (series_diff series))
  end.

Definition calculate_yoy_change (df : frame) (c : string) : result (list xrow) :=
  let company_df := sort_values_year (company_rows df c) in
  add_changes score_columns (map (fun r => {| base := r; extra := ∅ |}) company_df).

(** [get_esg_rating]: the rating letter and its colour. *)
Definition get_esg_rating (score : Q) : string * string :=
  if Qgeb score 80 then ("AAA", "#006400")
  else if Qgeb score 70 then ("AA", "#228B22")
  else if Qgeb score 60 then ("A", "#32CD32")
  else if Qgeb score 50 then ("BBB", "#FFD700")
  else if Qgeb score 40 then ("BB", "#FFA500")
  else if Qgeb score 30 then ("B", "#FF6347")
  else if Qgeb score 20 then ("CCC", "#FF4500")
  else ("CC", "#DC143C").

(** [df[col] = df[col].round(1)] for one of the score columns, row by
    row. *)
Definition round_score (col : string) (r : row) : row :=
  {| company := company r; sector := sector r; country := country r; year := year r;
     environmental_score :=
       if String.eqb col "environmental_score"
       then cround1 (environmental_score r) else environmental_score r;
     social_score :=
       if String.eqb col "social_score"
       then cround1 (social_score r) else social_score r;
     governance_score :=
       if String.eqb col "governance_score"
       then cround1 (governance_score r) else governance_score r;
     total_esg_score :=
       if String.eqb col "total_esg_score"
       then cround1 (total_esg_score r) else total_esg_score r;
     carbon_emissions_mt := carbon_emissions_mt r;
     energy_intensity := energy_intensity r;
     waste_recycled_pct := waste_recycled_pct r;
     diversity_score := diversity_score r;
     employee_turnover_pct := employee_turnover_pct r;
     safety_incidents := safety_incidents r;
     board_independence_pct := board_independence_pct r;
     executive_pay_ratio := executive_pay_ratio r;
     controversy_score := controversy_score r;
     market_cap_billion := market_cap_billion r |}.

(** The rows after the loop of [clean_data] over the score columns.  The
    conversions of the year and text columns to their types leave the typed
    rows of this model as they are. *)
Definition clean_rows (f : frame) : frame :=
  foldl (fun f col => map (round_score col) f) f score_columns.

(** [clean_data]: the columns of the received dataframe are assigned in
    place and the same object is returned. *)
Definition clean_data (df : loc) : St loc :=
  fun h => (df, <[df := clean_rows (read df h)]> h).

(** [series.unique()]: the distinct values in order of first appearance. *)
Fixpoint unique {A : Type} (eqb : A -> A -> bool) (l : list A) : list A :=
  match l with
  | [] => []
  | x :: l' => x :: List.filter (fun y => negb (eqb x y)) (unique eqb l')
  end.

(** The builtin [sorted]: ascending, equal elements in their order. *)
Fixpoint insert_by {A : Type} (leb : A -> A -> bool) (x : A) (sorted : list A) : list A :=
  match sorted with
  | [] => [x]
  | y :: rest => if leb x y then x :: sorted else y :: insert_by leb x rest
  end.

Definition sorted_by {A : Type} (leb : A -> A -> bool) (l : list A) : list A :=
  foldr (insert_by leb) [] l.

(** Order of Python strings: lexicographic on the characters. *)
Definition str_leb (a b : string) : bool :=
  match String_as_OT.compare a b with Gt => false | _ => true end.

Definition get_companies (df : frame) : list string :=
  sorted_by str_leb (unique String.eqb (map company df)).

Definition get_sectors (df : frame) : list string :=
  sorted_by str_leb (unique String.eqb (map sector df)).

Definition get_countries (df : frame) : list string :=
  sorted_by str_leb (unique String.eqb (map country df)).

Definition get_years (df : frame) : list Z :=
  sorted_by Z.leb (unique Z.eqb (map year df)).

(** [df.groupby('company')['year'].idxmax()] for one group: the first row
    of the company that has the largest year of the company. *)
Definition idxmax_year (df : frame) (c : string) : option row :=
  head (List.filter (year_is (year_max (company_rows df c))) (company_rows df c)).

(** [get_latest_data]: the groups come in ascending order of the company;
    [df.loc[...]] takes the row of each group. *)
Definition get_latest_data (df : frame) : frame :=
  omap (idxmax_year df) (get_companies df).

End DataLoader.

(** Division on cells.  A zero divisor is a fault: Python numbers raise on
    it, numpy scalars produce inf or NaN under a warning; both count as
    division by zero here. *)
Definition cdiv (a b : Num.cell) : result Num.cell :=
  match b with
  | Some d =>
      if Qeq_bool d 0 then Raise ZeroDivisionError
      else mret (match a with Some x => Some (x / d) | None => None end)
  | None => mret None
  end.

(** ** src/esg_analyzer.py *)

Module EsgAnalyzer.
Import Num Frame.

(** Values of the benchmark dict: numbers and the sector name. *)
Inductive bval : Type :=
| BNum (c : cell)
| BStr (s : string).

Definition as_num (v : bval) : result cell :=
  match v with BNum c => Ok c | BStr _ => Raise TypeError end.

Definition is_empty {A : Type} (l : list A) : bool :=
  match l with [] => true | _ => false end.

Definition calculate_sector_benchmark (df : frame) (c : string)
    : result (gmap string bval) :=
  let company_data := company_rows df c in
  if is_empty company_data then mret ∅
  else
    let latest_year := year_max company_data in
    company_latest ← iloc0 (List.filter (year_is latest_year) company_data);
    let sec := sector company_latest in
    let sector_data :=
      List.filter (fun r => String.eqb (sector r) sec && year_is latest_year r) df in
    mret (<["sector" := BStr sec]>
         (<["sector_total" := BNum (series_mean (map total_esg_score sector_data))]>
         (<["company_total" := BNum (total_esg_score company_latest)]>
         (<["sector_g" := BNum (series_mean (map governance_score sector_data))]>
         (<["company_g" := BNum (governance_score company_latest)]>
         (<["sector_s" := BNum (series_mean (map social_score sector_data))]>
         (<["company_s" := BNum (social_score company_latest)]>
         (<["sector_e" := BNum (series_mean (map environmental_score sector_data))]>
         (<["company_e" := BNum (environmental_score company_latest)]> ∅))))))))).

(** An f-string: literal text and formatted numbers. *)
Inductive fpart : Type :=
| Lit (s : string)
| Fmt (c : cell).

Record risk := {
  category : string;
  severity : string;
  description : list fpart
}.

Definition identify_risks (df : frame) (c : string) : result (list risk) :=
  let company_data := company_rows df c in
  if is_empty company_data then mret []
  else
    latest ← iloc0 (List.filter (year_is (year_max company_data)) company_data);
    let risks := [] in
    let risks :=
      if clt (environmental_score latest) (Some 50)
      then append risks {| category := "Environmental";
                        severity := if clt (environmental_score latest) (Some 40)
                                    then "High" else "Medium";
                        description := [Lit "Environmental score (";
                                        Fmt (environmental_score latest);
                                        Lit ") below industry threshold"] |}
      else risks in
    let risks :=
      if cgt (carbon_emissions_mt latest) (Some 50)
      then append risks {| category := "Environmental";
                        severity := if cgt (carbon_emissions_mt latest) (Some 100)
                                    then "High" else "Medium";
                        description := [Lit "High carbon emissions (";
                                        Fmt (carbon_emissions_mt latest);
                                        Lit " MT)"] |}
      else risks in
    let risks :=
      if clt (social_score latest) (Some 50)
      then append risks {| category := "Social";
                        severity := if clt (social_score latest) (Some 40)
                                    then "High" else "Medium";
                        description := [Lit "Social score (";
                                        Fmt (social_score latest);
                                        Lit ") indicates workforce or community concerns"] |}
      else risks in
    let risks :=
      if cgt (safety_incidents latest) (Some 20)
      then append risks {| category := "Social";
                        severity := if cgt (safety_incidents latest) (Some 40)
                                    then "High" else "Medium";
                        description := [Lit "Elevated safety incidents (";
                                        Fmt (safety_incidents latest);
                                        Lit " reported)"] |}
      else risks in
    let risks :=
      if clt (governance_score latest) (Some 60)
      then append risks {| category := "Governance";
                        severity := if clt (governance_score latest) (Some 50)
                                    then "High" else "Medium";
                        description := [Lit "Governance score (";
                                        Fmt (governance_score latest);
                                        Lit ") suggests oversight concerns"] |}
      else risks in
    let risks :=
      if clt (board_independence_pct latest) (Some 60)
      then append risks {| category := "Governance";
                        severity := "Medium";
                        description := [Lit "Low board independence (";
                                        Fmt (board_independence_pct latest);
                                        Lit "%)"] |}
      else risks in
    let risks :=
      if clt (controversy_score latest) (Some 60)
      then append risks {| category := "Reputation";
                        severity := if clt (controversy_score latest) (Some 50)
                                    then "High" else "Medium";
                        description := [Lit "Controversy score (";
                                        Fmt (controversy_score latest);
                                        Lit ") indicates reputational risks"] |}
      else risks in
    mret risks.

Record improvement := {
  area : string;
  gap : cell;
  recommendation : string
}.

(** One of the three comparisons of [calculate_improvement_areas]. *)
Definition compare_area (benchmark : gmap string bval) (company_key sector_key : string)
    (area_name advice : string) (improvements : list improvement)
    : result (list improvement) :=
  cv ← dict_get benchmark company_key ≫= as_num;
  sv ← dict_get benchmark sector_key ≫= as_num;
  if clt cv sv
  then
    let diff := csub sv cv in
    mret (append improvements {| area := area_name; gap := cround1 diff;
                                     recommendation := advice |})
  else mret improvements.

Definition calculate_improvement_areas (df : frame) (c : string)
    : result (list improvement) :=
  benchmark ← calculate_sector_benchmark df c;
  if (size benchmark =? 0)%nat then mret []
  else
    let improvements := [] in
    improvements ← compare_area benchmark "company_e" "sector_e" "Environmental"
      "Focus on reducing carbon emissions and improving energy efficiency" improvements;
    improvements ← compare_area benchmark "company_s" "sector_s" "Social"
      "Enhance workforce diversity, safety programs, and community engagement" improvements;
    improvements ← compare_area benchmark "company_g" "sector_g" "Governance"
      "Strengthen board independence and improve executive compensation alignment"
      improvements;
    mret improvements.

End EsgAnalyzer.

(** ** src/peer_benchmark.py *)

Module PeerBenchmark.
Import Num Frame.

Record metric_stats := {
  name : string;
  company_value : cell;
  sector_mean : cell;
  sector_median : cell;
  sector_std : cell;
  percentile : cell;
  z_score : cell;
  vs_mean : cell;
  vs_median : cell
}.

(** The metrics of [calculate_peer_statistics] with their display names. *)
Definition stat_metrics : list (string * string) :=
  [("total_esg_score", "Total ESG");
   ("environmental_score", "Environmental");
   ("social_score", "Social");
   ("governance_score", "Governance")].

(** [(series < value).sum() / n * 100]. *)
Definition percentile_of (series : list cell) (value : cell) (n : cell) : result cell :=
  ratio ← cdiv (of_int (bool_sum (map (fun v => clt v value) series))) n;
  mret (cmul ratio (Some 100)).

(** A row of the benchmark matrix: the company and the values stored under
    the metric names and their percentile keys. *)
Record matrix_row := { Company : string; values : gmap string cell }.

Definition default_metrics : list string :=
  ["total_esg_score"; "environmental_score"; "social_score"; "governance_score";
   "carbon_emissions_mt"; "diversity_score"; "board_independence_pct"].

(** Body of the loop over the metrics in [create_benchmark_matrix].  The
    metrics are names of numeric columns, as in every call of the
    dashboard; a name that [get_metric] does not know is skipped like a
    name that is not in the row. *)
Definition matrix_metric (data : frame) (latest_year : option Z) (r : row)
    (company_metrics : gmap string cell) (metric : string) : result (gmap string cell) :=
  match get_metric r metric with
  | None => mret company_metrics
  | Some value =>
      let company_metrics := <[metric := value]> company_metrics in
      series ← column (List.filter (year_is latest_year) data) metric;
      let all_values := map Some (dropna series) in
      if (0 <? length all_values)%nat
      then
        pct ← percentile_of all_values value (of_len all_values);
        mret (<[metric ++ "_percentile" := pct]> company_metrics)
      else mret company_metrics
  end.

Definition create_benchmark_matrix (data : frame) (companies : list string)
    (metrics : option (list string)) : result (list matrix_row) :=
  let metrics := match metrics with None => default_metrics | Some ms => ms end in
  let latest_year := year_max data in
  let company_data :=
    List.filter (fun r => existsb (String.eqb (company r)) companies
                          && year_is latest_year r) data in
  if EsgAnalyzer.is_empty company_data then mret []
  else
    forM (fun r =>
            company_metrics ← foldM (matrix_metric data latest_year r) ∅ metrics;
            mret {| Company := company r; values := company_metrics |})
         company_data.

Section WithSqrt.

(** The square root behind [series.std()]. *)
Variable sqrt : Q -> Q.

(** [series.std()]. *)
Definition series_std (xs : list cell) : cell := option_map sqrt (series_var xs).

(** Body of the loop over the metrics in [calculate_peer_statistics]. *)
Definition peer_metric (company_row : row) (sector_data : frame)
    (stats : gmap string metric_stats) (m : string * string)
    : result (gmap string metric_stats) :=
  let '(metric, display) := m in
  company_value ← (match get_metric company_row metric with
                   | Some v => Ok v | None => Raise KeyError end);
  series ← column sector_data metric;
  let sector_mean := series_mean series in
  let sector_median := series_median series in
  let sector_std := series_std series in
  percentile ← percentile_of series company_value (of_len sector_data);
  z_score ← (if cgt sector_std (Some 0)
             then cdiv (csub company_value sector_mean) sector_std
             else mret (Some 0));
  mret (<[metric := {| name := display;
                       company_value := company_value;
                       sector_mean := sector_mean;
                       sector_median := sector_median;
                       sector_std := sector_std;
                       percentile := percentile;
                       z_score := z_score;
                       vs_mean := csub company_value sector_mean;
                       vs_median := csub company_value sector_median |}]> stats).

Definition calculate_peer_statistics (data : frame) (c sec : string)
    : result (gmap string metric_stats) :=
  let latest_year := year_max data in
  let company_data :=
    List.filter (fun r => String.eqb (company r) c && year_is latest_year r) data in
  let sector_data :=
    List.filter (fun r => String.eqb (sector r) sec && year_is latest_year r) data in
  if EsgAnalyzer.is_empty company_data || EsgAnalyzer.is_empty sector_data
  then mret ∅
  else
    company_row ← iloc0 company_data;
    foldM (peer_metric company_row sector_data) ∅ stat_metrics.

End WithSqrt.

End PeerBenchmark.

(** ** The trajectory in the arithmetic of the interpreter

    [predict_future_trajectory] once more, with the number operations left
    open: the interpreter computes them in binary64 floating point, the
    module [EsgSimulator] above in exact rationals.  What follows from the
    order laws [lawful] holds in both.  The two differ where a score
    falls on a tie of the second decimal: from 2 at 5 percent the exact
    score after one step is 4.45, which rounds to 4.4, while binary64
    holds a number just above 4.45, which rounds to 4.5.

    The laws are written so that binary64 has them with NaN and the
    infinities included.  [le] is the comparison [<=], which is false as
    soon as one side is NaN, so [le x x] says that [x] is a number; a sum
    or a product that is a number has operands that are numbers; adding a
    nonnegative number never lowers a sum that is a number, and the product
    of nonnegative numbers is nonnegative unless it is NaN (0 times
    infinity), because rounding to nearest is monotone; [round(x, 1)] is
    monotone and leaves 100 alone. *)

Module Arith.

Record arith : Type := {
  num : Type;
  lit : Q -> num;                 (* a literal, or an int used as a number *)
  add : num -> num -> num;
  sub : num -> num -> num;
  mul : num -> num -> num;
  div : num -> num -> num;
  ltb : num -> num -> bool;       (* [x < y] *)
  le : num -> num -> Prop;        (* [x <= y] *)
  round1 : num -> num             (* [round(x, 1)] *)
}.

Record lawful (a : arith) : Prop := {
  le_number : forall x y, le a x y -> le a x x /\ le a y y;
  le_trans : forall x y z, le a x y -> le a y z -> le a x z;
  ltb_le : forall x y, ltb a x y = true -> le a x y;
  add_number : forall x y, le a (add a x y) (add a x y) -> le a x x /\ le a y y;
  mul_number : forall x y, le a (mul a x y) (mul a x y) -> le a x x /\ le a y y;
  add_nonneg : forall x y,
    le a (lit a 0) y -> le a (add a x y) (add a x y) -> le a x (add a x y);
  mul_nonneg : forall x y,
    le a (lit a 0) x -> le a (lit a 0) y -> le a (mul a x y) (mul a x y) ->
    le a (lit a 0) (mul a x y);
  sub_100_nonneg : forall x, le a x (lit a 100) -> le a (lit a 0) (sub a (lit a 100) x);
  div_100_nonneg : forall x, le a (lit a 0) x -> le a (lit a 0) (div a x (lit a 100));
  half_nonneg : le a (lit a 0) (lit a (1 # 2));
  round1_mono : forall x y, le a x y -> le a (round1 a x) (round1 a y);
  round1_100 : le a (round1 a (lit a 100)) (lit a 100)
}.

Section WithArith.
Variable a : arith.

(** The builtin [min(x, y)]. *)
Definition py_min (x y : num a) : num a := if ltb a y x then y else x.

(** [self.weights]. *)
Definition weights : gmap string (num a) :=
  <["governance" := lit a (34 # 100)]>
    (<["social" := lit a (33 # 100)]>
       (<["environmental" := lit a (33 # 100)]> ∅)).

Definition calculate_total_score (env_score social_score gov_score : num a)
    : result (num a) :=
  we ← dict_get weights "environmental";
  ws ← dict_get weights "social";
  wg ← dict_get weights "governance";
  mret (add a (add a (mul a env_score we) (mul a social_score ws)) (mul a gov_score wg)).

(** Body of the innermost loop. *)
Definition trajectory_step (rate : num a) (score : num a) : num a :=
  let improvement :=
    mul a (mul a (sub a (lit a 100) score) (div a rate (lit a 100))) (lit a (1 # 2)) in
  py_min (lit a 100) (add a score improvement).

Definition pillar_score (current rate : num a) (year : Z) : num a :=
  foldl (fun score _ => trajectory_step rate score) current (EsgSimulator.py_range year).

Definition year_pillar (current_scores annual_improvement_rate : gmap string (num a))
    (year : Z) (year_data : gmap string (num a)) (pillar : string)
    : gmap string (num a) :=
  let cur := dict_get_default current_scores pillar (lit a 0) in
  let rate := dict_get_default annual_improvement_rate pillar (lit a 0) in
  <[pillar := round1 a (pillar_score cur rate year)]> year_data.

Definition year_row (current_scores annual_improvement_rate : gmap string (num a))
    (year : Z) : result (gmap string (num a)) :=
  let year_data := <["year" := lit a (inject_Z year)]> ∅ in
  let year_data :=
    foldl (year_pillar current_scores annual_improvement_rate year) year_data
      EsgSimulator.pillars in
  e ← dict_get year_data "environmental";
  s ← dict_get year_data "social";
  g ← dict_get year_data "governance";
  total ← calculate_total_score e s g;
  mret (<["total" := total]> year_data).

Definition predict_future_trajectory
    (current_scores annual_improvement_rate : gmap string (num a)) (years : Z)
    : result (list (gmap string (num a))) :=
  forM (year_row current_scores annual_improvement_rate)
       (EsgSimulator.py_range (years + 1)).

End WithArith.

(** Exact rationals as an arithmetic: the one of [EsgSimulator]. *)
Definition exact : arith :=
  {| num := Q; lit := fun q => q;
     add := Qplus; sub := Qminus; mul := Qmult; div := Qdiv;
     ltb := Num.Qltb; le := Qle; round1 := Num.round1 |}.

End Arith.

(** ** Reference definitions used by the statements *)

Module Spec.
Import Num.

(** The projection of one pillar, as the loop body computes it. *)
Definition projection_of (current_scores improvements : gmap string Q)
    (pillar : string) : Q :=
  let cur := dict_get_default current_scores pillar 0 in
  py_min 100 (cur + cur * dict_get_default improvements pillar 0 / 100).

(** The yearly growth rule: add (100 - score) * (rate / 100) * 0.5 and cap
    the sum at 100. *)
Definition capped_growth (rate score : Q) : Q :=
  Qmin 100 (score + (100 - score) * (rate / 100) * (1 # 2)).

(** What one row of the projection holds. *)
Definition row_spec (cs rates : gmap string Q) (y : Z) (row : gmap string Q) : Prop :=
  row !! "year" = Some (inject_Z y) /\
  forall pillar, pillar ∈ EsgSimulator.pillars ->
    row !! pillar
    = Some (round1 (EsgSimulator.pillar_score (dict_get_default cs pillar 0)
                                 (dict_get_default rates pillar 0) y)).

(** The latest row of a company: the first row of the company, in index
    order, whose year no other row of the company exceeds. *)
Definition is_latest_of (df : Frame.frame) (c : string) (r : Frame.row) : bool :=
  String.eqb (Frame.company r) c
  && forallb (fun r' => negb (String.eqb (Frame.company r') c)
                        || (Frame.year r' <=? Frame.year r)%Z) df.

Definition latest_row (df : Frame.frame) (c : string) : option Frame.row :=
  List.find (is_latest_of df c) df.

(** The risk rules as a table: a rule looks at one value of the latest row
    and fires when the value is on the wrong side of its limit; the flag is
    High past the second limit, when the rule has one, and Medium
    otherwise. *)
Inductive side : Set := Below | Above.

Record rule := {
  rule_category : string;
  rule_value : Frame.row -> cell;
  rule_side : side;
  rule_limit : Q;
  rule_high : option Q;
  rule_before : string;
  rule_after : string
}.

Definition beyond (s : side) (v : cell) (limit : Q) : bool :=
  match s with
  | Below => clt v (Some limit)
  | Above => clt (Some limit) v
  end.

Definition rule_fires (k : rule) (latest : Frame.row) : bool :=
  beyond (rule_side k) (rule_value k latest) (rule_limit k).

Definition rule_flag (k : rule) (latest : Frame.row) : EsgAnalyzer.risk :=
  {| EsgAnalyzer.category := rule_category k;
     EsgAnalyzer.severity :=
       match rule_high k with
       | Some h => if beyond (rule_side k) (rule_value k latest) h
                   then "High" else "Medium"
       | None => "Medium"
       end;
     EsgAnalyzer.description :=
       [EsgAnalyzer.Lit (rule_before k);
        EsgAnalyzer.Fmt (rule_value k latest);
        EsgAnalyzer.Lit (rule_after k)] |}.

Definition risk_rules : list rule :=
  [ {| rule_category := "Environmental"; rule_value := Frame.environmental_score;
       rule_side := Below; rule_limit := 50; rule_high := Some 40;
       rule_before := "Environmental score (";
       rule_after := ") below industry threshold" |};
    {| rule_category := "Environmental"; rule_value := Frame.carbon_emissions_mt;
       rule_side := Above; rule_limit := 50; rule_high := Some 100;
       rule_before := "High carbon emissions (";
       rule_after := " MT)" |};
    {| rule_category := "Social"; rule_value := Frame.social_score;
       rule_side := Below; rule_limit := 50; rule_high := Some 40;
       rule_before := "Social score (";
       rule_after := ") indicates workforce or community concerns" |};
    {| rule_category := "Social"; rule_value := Frame.safety_incidents;
       rule_side := Above; rule_limit := 20; rule_high := Some 40;
       rule_before := "Elevated safety incidents (";
       rule_after := " reported)" |};
    {| rule_category := "Governance"; rule_value := Frame.governance_score;
       rule_side := Below; rule_limit := 60; rule_high := Some 50;
       rule_before := "Governance score (";
       rule_after := ") suggests oversight concerns" |};
    {| rule_category := "Governance"; rule_value := Frame.board_independence_pct;
       rule_side := Below; rule_limit := 60; rule_high := None;
       rule_before := "Low board independence (";
       rule_after := "%)" |};
    {| rule_category := "Reputation"; rule_value := Frame.controversy_score;
       rule_side := Below; rule_limit := 60; rule_high := Some 50;
       rule_before := "Controversy score (";
       rule_after := ") indicates reputational risks" |} ].

(** The flags the table yields for a latest row, in the order of the
    table. *)
Definition expected_risks (latest : Frame.row) : list EsgAnalyzer.risk :=
  map (fun k => rule_flag k latest)
      (List.filter (fun k => rule_fires k latest) risk_rules).

(** A selection criterion constrains a row only when it is given as a
    non-empty list; the row's field must then be one of its elements. *)
Definition criterion_ok {A : Type} (arg : option (list A)) (x : A) : Prop :=
  match arg with
  | Some (v :: vs) => In x (v :: vs)
  | _ => True
  end.

(** The rows [filter_data] keeps, as one predicate. *)
Definition keeps (companies sectors countries : option (list string))
    (years : option (list Z)) (r : Frame.row) : bool :=
  (if DataLoader.truthy companies
   then DataLoader.isin_str (Frame.company r) companies else true)
  && ((if DataLoader.truthy sectors
       then DataLoader.isin_str (Frame.sector r) sectors else true)
      && ((if DataLoader.truthy countries
           then DataLoader.isin_str (Frame.country r) countries else true)
          && (if DataLoader.truthy years
              then DataLoader.isin_int (Frame.year r) years else true))).

(** The percentile rank of [v] among [values] out of [n]: the number of
    values strictly less than [v], divided by [n], times 100. *)
Definition percentile_rank (values : list cell) (v : cell) (n : nat) : cell :=
  Some (inject_Z (Z.of_nat (length (List.filter (fun x => clt x v) values)))
        / inject_Z (Z.of_nat n) * 100).

(** The z-score of [v] for a mean and a standard deviation: the quotient
    when the deviation is strictly positive, 0 otherwise. *)
Definition z_of (v mean std : cell) : cell :=
  match std with
  | Some s => if Qltb 0 s then option_map (fun d => d / s) (csub v mean) else Some 0
  | None => Some 0
  end.

(** The entry of one metric in the peer statistics. *)
Definition peer_entry (sqrt : Q -> Q) (display : string) (v : cell)
    (series : list cell) : PeerBenchmark.metric_stats :=
  {| PeerBenchmark.name := display;
     PeerBenchmark.company_value := v;
     PeerBenchmark.sector_mean := series_mean series;
     PeerBenchmark.sector_median := series_median series;
     PeerBenchmark.sector_std := PeerBenchmark.series_std sqrt series;
     PeerBenchmark.percentile := percentile_rank series v (length series);
     PeerBenchmark.z_score :=
       z_of v (series_mean series) (PeerBenchmark.series_std sqrt series);
     PeerBenchmark.vs_mean := csub v (series_mean series);
     PeerBenchmark.vs_median := csub v (series_median series) |}.

(** The rows of the latest year of the whole dataset. *)
Definition latest_rows (data : Frame.frame) : Frame.frame :=
  List.filter (Frame.year_is (Frame.year_max data)) data.

(** The rows of a sector in the latest year of the dataset. *)
Definition sector_rows (data : Frame.frame) (sec : string) : Frame.frame :=
  List.filter (fun r => String.eqb (Frame.sector r) sec
                        && Frame.year_is (Frame.year_max data) r) data.

(** The first row of a company in the latest year of the dataset. *)
Definition company_latest (data : Frame.frame) (c : string) : option Frame.row :=
  List.find (fun r => String.eqb (Frame.company r) c
                      && Frame.year_is (Frame.year_max data) r) data.

(** The statistics computed when both selections are non-empty. *)
Definition peer_table (sqrt : Q -> Q) (crow : Frame.row) (srows : Frame.frame)
    : gmap string PeerBenchmark.metric_stats :=
  <["governance_score" :=
      peer_entry sqrt "Governance" (Frame.governance_score crow) (map Frame.governance_score srows)]>
  (<["social_score" :=
      peer_entry sqrt "Social" (Frame.social_score crow) (map Frame.social_score srows)]>
  (<["environmental_score" :=
      peer_entry sqrt "Environmental" (Frame.environmental_score crow)
        (map Frame.environmental_score srows)]>
  (<["total_esg_score" :=
      peer_entry sqrt "Total ESG" (Frame.total_esg_score crow) (map Frame.total_esg_score srows)]>
   ∅))).

(** What the benchmark matrix holds for a numeric column [metric] read
    by [g], in the row made for [r]: the value of [r], and, when the latest
    year has a non-null value in that column, its percentile rank among the
    non-null values of the latest year. *)
Definition entry_ok (data : Frame.frame) (r : Frame.row) (metric : string)
    (g : Frame.row -> cell) (values : gmap string cell) : Prop :=
  let all_values := dropna (map g (latest_rows data)) in
  values !! metric = Some (g r) /\
  (all_values <> [] ->
   values !! (metric ++ "_percentile")
   = Some (percentile_rank (map Some all_values) (g r) (length all_values))).

(** The rows of the selected companies in the latest year. *)
Definition selected_rows (data : Frame.frame) (companies : list string) : Frame.frame :=
  List.filter (fun r => existsb (String.eqb (Frame.company r)) companies
                        && Frame.year_is (Frame.year_max data) r) data.

(** What one row of the benchmark matrix holds. *)
Definition matrix_row_ok (data : Frame.frame) (metrics : list string)
    (r : Frame.row) (mr : PeerBenchmark.matrix_row) : Prop :=
  PeerBenchmark.Company mr = Frame.company r /\
  forall metric g, In metric metrics ->
    (forall r', Frame.get_metric r' metric = Some (g r')) ->
    entry_ok data r metric g (PeerBenchmark.values mr).

(** A table built row by row: the first row gets the extra columns
    [first r], every later row the extra columns [next p r] computed from
    its predecessor [p]. *)
Fixpoint build_from (next : Frame.row -> Frame.row -> gmap string cell)
    (prev : Frame.row) (l : list Frame.row) : list DataLoader.xrow :=
  match l with
  | [] => []
  | r :: l' =>
      {| DataLoader.base := r; DataLoader.extra := next prev r |}
        :: build_from next r l'
  end.

Definition build (first : Frame.row -> gmap string cell)
    (next : Frame.row -> Frame.row -> gmap string cell)
    (l : list Frame.row) : list DataLoader.xrow :=
  match l with
  | [] => []
  | r :: l' =>
      {| DataLoader.base := r; DataLoader.extra := first r |} :: build_from next r l'
  end.

(** The change columns of the first row of a company: all undefined. *)
Definition changes_first (r : Frame.row) : gmap string cell :=
  <["total_esg_score_change" := None]>
    (<["governance_score_change" := None]>
       (<["social_score_change" := None]>
          (<["environmental_score_change" := None]> ∅))).

(** The change columns of a later row [r] with predecessor [p]. *)
Definition changes_next (p r : Frame.row) : gmap string cell :=
  <["total_esg_score_change" := csub (Frame.total_esg_score r) (Frame.total_esg_score p)]>
    (<["governance_score_change" :=
         csub (Frame.governance_score r) (Frame.governance_score p)]>
       (<["social_score_change" := csub (Frame.social_score r) (Frame.social_score p)]>
          (<["environmental_score_change" :=
               csub (Frame.environmental_score r) (Frame.environmental_score p)]> ∅))).

(** Ascending order of the year column. *)
Definition year_le (a b : Frame.row) : Prop := (Frame.year a <= Frame.year b)%Z.

(** State of the store while [filter_data] runs: the current frame [cur]
    is an object created by the call, holding [g], and everything the
    caller had is still there. *)
Definition running (h0 h : Store.heap) (cur : Store.loc) (g : Frame.frame) : Prop :=
  h0 ⊆ h /\ h0 !! cur = None /\ h !! cur = Some g.

(** Position of a rating letter on the scale, the best letter highest. *)
Definition letter_rank (letter : string) : nat :=
  if String.eqb letter "AAA" then 9
  else if String.eqb letter "AA" then 8
  else if String.eqb letter "A" then 7
  else if String.eqb letter "BBB" then 6
  else if String.eqb letter "BB" then 5
  else if String.eqb letter "B" then 4
  else if String.eqb letter "CCC" then 3
  else if String.eqb letter "CC" then 2
  else if String.eqb letter "C" then 1
  else 0.

(** A field of the plan that [generate_recommendations] makes for a
    pillar. *)
Definition plan_field (recs : gmap string EsgSimulator.rec_value)
    (pillar key : string) : option Q :=
  match recs !! pillar with
  | Some (EsgSimulator.RPillar d) => d !! key
  | _ => None
  end.

(** The improvement that [benchmark_simulation] asks of a pillar: the
    relative distance to the sector average, in percent, for a positive
    score below the average; nothing otherwise. *)
Definition needed_improvement (company_scores sector_avg_scores : gmap string Q)
    (pillar : string) : Q :=
  let cur := dict_get_default company_scores pillar 0 in
  let target := dict_get_default sector_avg_scores pillar 0 in
  if Qltb cur target
  then if Qltb 0 cur then (target - cur) / cur * 100 else 0
  else 0.

(** A cell and its rounding: both missing, or at most 0.05 apart. *)
Definition cell_close (original rounded : cell) : Prop :=
  match original, rounded with
  | Some x, Some y => x - (1 # 20) <= y <= x + (1 # 20)
  | None, None => True
  | _, _ => False
  end.

(** A row after [clean_data], against the row before: the scores are
    rounded to one decimal, everything else is kept. *)
Definition cleaned (r r' : Frame.row) : Prop :=
  Frame.company r' = Frame.company r /\ Frame.sector r' = Frame.sector r /\
  Frame.country r' = Frame.country r /\ Frame.year r' = Frame.year r /\
  Frame.environmental_score r' = cround1 (Frame.environmental_score r) /\
  Frame.social_score r' = cround1 (Frame.social_score r) /\
  Frame.governance_score r' = cround1 (Frame.governance_score r) /\
  Frame.total_esg_score r' = cround1 (Frame.total_esg_score r) /\
  (forall name,
     name <> "environmental_score" -> name <> "social_score" ->
     name <> "governance_score" -> name <> "total_esg_score" ->
     Frame.get_metric r' name = Frame.get_metric r name).

(** The sum and the mean of a list of numbers, and its sample variance:
    the squared distances to the mean, summed and divided by one less than
    the number of values. *)
Fixpoint sum_of (ys : list Q) : Q :=
  match ys with
  | [] => 0
  | y :: ys' => y + sum_of ys'
  end.

Definition mean (ys : list Q) : Q := sum_of ys / inject_Z (Z.of_nat (length ys)).

Definition sample_variance (ys : list Q) : Q :=
  sum_of (map (fun y => (y - mean ys) * (y - mean ys)) ys)
  / inject_Z (Z.of_nat (length ys - 1)).

End Spec.

(** ** A small dataset for the examples *)

Module Sample.
Import Num Frame.

Definition mk (c s : string) (y : Z) (e so g t co2 inc board contro : Q) : row :=
  {| company := c; sector := s; country := "US"; year := y;
     environmental_score := Some e; social_score := Some so;
     governance_score := Some g; total_esg_score := Some t;
     carbon_emissions_mt := Some co2; energy_intensity := None;
     waste_recycled_pct := Some 40; diversity_score := Some 55;
     employee_turnover_pct := Some 12; safety_incidents := Some inc;
     board_independence_pct := Some board; executive_pay_ratio := Some 150;
     controversy_score := Some contro; market_cap_billion := Some 80 |}.

Definition acme22 : row := mk "Acme" "Energy" 2022 45 70 55 (565 # 10) 120 10 65 70.
Definition acme23 : row := mk "Acme" "Energy" 2023 38 52 61 (505 # 10) 80 45 55 48.
Definition globex23 : row := mk "Globex" "Energy" 2023 62 48 72 (61 # 1) 30 25 75 66.
Definition hooli22 : row := mk "Hooli" "Tech" 2022 81 77 90 (83 # 1) 5 0 80 91.
Definition hooli23 : row := mk "Hooli" "Tech" 2023 84 79 88 (84 # 1) 4 1 82 93.

Definition data : frame := [acme23; hooli22; globex23; acme22; hooli23].

(** A square root good enough for the examples: exact on the squares of
    small integers, an upper approximation elsewhere. *)
Definition sqrt_approx (q : Q) : Q :=
  let n := (Qnum q * 10000 / Zpos (Qden q))%Z in
  let r := Z.sqrt n in
  inject_Z (if (r * r =? n)%Z then r else r + 1) / 100.

End Sample.

(** * Properties *)

(** ** Comparisons and the builtin [min] *)

Section NumFacts.
Import Num.

Lemma Qgeb_true (a b : Q) : Qgeb a b = true <-> b <= a.
Proof. unfold Qgeb. apply Qle_bool_iff. Qed.

Lemma Qgeb_false (a b : Q) : Qgeb a b = false <-> a < b.
Proof.
  unfold Qgeb. split.
  - intros H. apply Qnot_le_lt. intros Hle.
    apply Qle_bool_iff in Hle. congruence.
  - intros H. destruct (Qle_bool b a) eqn:E; [|reflexivity].
    apply Qle_bool_iff in E. lra.
Qed.

Lemma Qltb_true (a b : Q) : Qltb a b = true <-> a < b.
Proof.
  unfold Qltb. rewrite negb_true_iff. apply (Qgeb_false a b).
Qed.

Lemma Qltb_false (a b : Q) : Qltb a b = false <-> b <= a.
Proof.
  unfold Qltb. rewrite negb_false_iff. apply (Qgeb_true a b).
Qed.

Lemma py_min_Qmin (a b : Q) : py_min a b == Qmin a b.
Proof.
  unfold py_min. destruct (Qltb b a) eqn:E.
  - apply Qltb_true in E. rewrite Q.min_r; lra.
  - apply Qltb_false in E. rewrite Q.min_l; lra.
Qed.

Lemma py_min_le_l (a b : Q) : py_min a b <= a.
Proof. rewrite py_min_Qmin. apply Q.le_min_l. Qed.

Lemma py_min_le_r (a b : Q) : py_min a b <= b.
Proof. rewrite py_min_Qmin. apply Q.le_min_r. Qed.

Lemma py_min_glb (a b c : Q) : c <= a -> c <= b -> c <= py_min a b.
Proof. intros Ha Hb. unfold py_min. destruct (Qltb b a); assumption. Qed.

End NumFacts.

(** Turn the boolean comparisons in the context into order facts. *)
Ltac reflect_cmp :=
  repeat match goal with
  | H : Num.Qgeb _ _ = true |- _ => apply Qgeb_true in H
  | H : Num.Qgeb _ _ = false |- _ => apply Qgeb_false in H
  | H : Num.Qltb _ _ = true |- _ => apply Qltb_true in H
  | H : Num.Qltb _ _ = false |- _ => apply Qltb_false in H
  end.

(** ** The two rating scales *)

(** C8, as stated, fails: at 72 the loader answers AA and the simulator A. *)
Lemma rating_scales_differ_at_72 :
  fst (DataLoader.get_esg_rating 72) = "AA" /\
  EsgSimulator._score_to_rating 72 = "A" /\
  fst (DataLoader.get_esg_rating 72) <> EsgSimulator._score_to_rating 72.
Proof. repeat split. vm_compute. discriminate. Qed.

(** C8 (amended): the rating letter of [get_esg_rating] equals the rating
    of [_score_to_rating] exactly for the scores of at least 75; below 75
    the two scales give different letters. *)
Theorem rating_scales_agree_iff (score : Q) :
  fst (DataLoader.get_esg_rating score) = EsgSimulator._score_to_rating score
  <-> 75 <= score.
Proof.
  unfold DataLoader.get_esg_rating, EsgSimulator._score_to_rating.
  repeat match goal with
  | |- context [if Num.Qgeb score ?c then _ else _] =>
      let E := fresh "E" in destruct (Num.Qgeb score c) eqn:E
  end; reflect_cmp; cbn [fst]; split; intros H;
    solve [ reflexivity | discriminate H | lra ].
Qed.

(** ** The what-if simulator *)

Section Simulator.
Import Num EsgSimulator Spec.

Lemma calculate_total_score_ok (e s g : Q) :
  calculate_total_score e s g
  = Ok (e * (33 # 100) + s * (33 # 100) + g * (34 # 100)).
Proof. reflexivity. Qed.

Lemma pillar_cases (pillar : string) :
  pillar ∈ pillars ->
  pillar = "environmental" \/ pillar = "social" \/ pillar = "governance".
Proof.
  unfold pillars. rewrite !elem_of_cons, elem_of_nil. tauto.
Qed.

Lemma simulate_improvements_ok (cs imp : gmap string Q) :
  exists r,
    simulate_improvements cs imp = Ok r /\
    forall pillar, pillar ∈ pillars ->
      projected r !! pillar = Some (projection_of cs imp pillar) /\
      delta r !! pillar
      = Some (projection_of cs imp pillar - dict_get_default cs pillar 0).
Proof.
  unfold simulate_improvements. cbn [foldl pillars simulate_pillar projected delta current].
  rewrite calculate_total_score_ok. cbn [mbind result_bind].
  unfold dict_get. simplify_map_eq.
  rewrite calculate_total_score_ok. cbn [mbind result_bind mret result_ret].
  simplify_map_eq. cbn [mbind result_bind mret result_ret].
  eexists; split; [reflexivity|].
  intros pillar Hp. cbn [projected delta].
  destruct (pillar_cases pillar Hp) as [-> | [-> | ->]];
    unfold projection_of; simplify_map_eq; split; reflexivity.
Qed.

End Simulator.

(** C1: [simulate_improvements] returns, for each of the three pillars, the
    projected score min(100, current + current * improvement_pct / 100),
    with missing entries read as 0, and the delta projected - current; no
    projected pillar score exceeds 100. *)
Theorem simulate_improvements_projection (current_scores improvements : gmap string Q) :
  exists r,
    EsgSimulator.simulate_improvements current_scores improvements = Ok r /\
    forall pillar, pillar ∈ EsgSimulator.pillars ->
      let cur := dict_get_default current_scores pillar 0 in
      let pct := dict_get_default improvements pillar 0 in
      exists proj d,
        EsgSimulator.projected r !! pillar = Some proj /\
        proj == Qmin 100 (cur + cur * pct / 100) /\
        EsgSimulator.delta r !! pillar = Some d /\
        d == proj - cur /\
        proj <= 100.
Proof.
  destruct (simulate_improvements_ok current_scores improvements) as [r [Hr Hp]].
  exists r. split; [exact Hr|].
  intros pillar Hin cur pct. destruct (Hp pillar Hin) as [Hproj Hdelta].
  eexists; eexists. split; [exact Hproj|].
  split; [apply py_min_Qmin|].
  split; [exact Hdelta|].
  split; [reflexivity|].
  apply py_min_le_l.
Qed.

(** C1 at a concrete input: 80 improved by 50 percent is capped at 100. *)
Lemma simulate_improvements_projection_witness :
  exists r,
    EsgSimulator.simulate_improvements
      (<["environmental" := 80]> ∅) (<["environmental" := 50]> ∅) = Ok r /\
    exists proj d,
      EsgSimulator.projected r !! "environmental" = Some proj /\
      proj == Qmin 100 (80 + 80 * 50 / 100) /\
      EsgSimulator.delta r !! "environmental" = Some d /\
      d == proj - 80 /\
      proj <= 100.
Proof.
  destruct (simulate_improvements_projection
              (<["environmental" := 80]> ∅) (<["environmental" := 50]> ∅))
    as [r [Hr Hp]].
  exists r. split; [exact Hr|].
  apply (Hp "environmental"). unfold EsgSimulator.pillars. apply list_elem_of_here.
Defined.

(** ** Rounding to one decimal *)

Section Rounding.
Import Num.

Lemma round_half_even_range (x : Q) :
  (Qfloor x <= round_half_even x <= Qfloor x + 1)%Z.
Proof.
  unfold round_half_even.
  destruct (Qltb _ _); [lia|].
  destruct (Qltb _ _); [lia|].
  destruct (Z.even _); lia.
Qed.

Lemma round_half_even_mono (x y : Q) :
  x <= y -> (round_half_even x <= round_half_even y)%Z.
Proof.
  intros Hxy.
  pose proof (Qfloor_resp_le _ _ Hxy) as Hfl.
  destruct (Z.eq_dec (Qfloor x) (Qfloor y)) as [Heq | Hne].
  - unfold round_half_even. rewrite <- Heq.
    destruct (Qltb (x - inject_Z (Qfloor x)) (1 # 2)) eqn:E1;
      destruct (Qltb (y - inject_Z (Qfloor x)) (1 # 2)) eqn:E2;
      destruct (Qltb (1 # 2) (x - inject_Z (Qfloor x))) eqn:E3;
      destruct (Qltb (1 # 2) (y - inject_Z (Qfloor x))) eqn:E4;
      destruct (Z.even (Qfloor x)); reflect_cmp; try lia; exfalso; lra.
  - pose proof (round_half_even_range x). pose proof (round_half_even_range y). lia.
Qed.

Lemma round1_mono (x y : Q) : x <= y -> round1 x <= round1 y.
Proof.
  intros Hxy. unfold round1.
  assert (H : (round_half_even (x * 10) <= round_half_even (y * 10))%Z)
    by (apply round_half_even_mono; lra).
  rewrite Zle_Qle in H. unfold Qdiv.
  apply Qmult_le_compat_r; [exact H | discriminate].
Qed.

Lemma round1_100 : round1 100 == 100.
Proof. vm_compute. reflexivity. Qed.

Lemma round1_le_100 (x : Q) : x <= 100 -> round1 x <= 100.
Proof. intros H. rewrite <- round1_100. apply round1_mono, H. Qed.

End Rounding.

(** ** The projected trajectory *)

Section Trajectory.
Import Num EsgSimulator Spec.

Lemma py_range_of_nat (n : nat) : py_range (Z.of_nat n) = map Z.of_nat (seq 0 n).
Proof. unfold py_range. rewrite Nat2Z.id. reflexivity. Qed.

Lemma py_range_succ (n : nat) :
  py_range (Z.of_nat (S n)) = (py_range (Z.of_nat n) ++ [Z.of_nat n])%list.
Proof. rewrite !py_range_of_nat, seq_S, map_app. reflexivity. Qed.

Lemma pillar_score_0 (cur rate : Q) : pillar_score cur rate 0 = cur.
Proof. reflexivity. Qed.

Lemma pillar_score_succ (cur rate : Q) (n : nat) :
  pillar_score cur rate (Z.of_nat (S n))
  = trajectory_step rate (pillar_score cur rate (Z.of_nat n)).
Proof. unfold pillar_score. rewrite py_range_succ, foldl_app. reflexivity. Qed.

Lemma trajectory_step_growth (rate score : Q) :
  trajectory_step rate score == capped_growth rate score.
Proof. unfold trajectory_step, capped_growth. apply py_min_Qmin. Qed.

Lemma trajectory_step_le_100 (rate score : Q) : trajectory_step rate score <= 100.
Proof. unfold trajectory_step. apply py_min_le_l. Qed.

Lemma trajectory_step_incr (rate score : Q) :
  0 <= rate -> score <= 100 -> score <= trajectory_step rate score.
Proof.
  intros Hr Hs. unfold trajectory_step. apply py_min_glb; [exact Hs|].
  assert (Hq : 0 <= rate / 100) by (apply Qle_shift_div_l; lra).
  assert (Hp : 0 <= (100 - score) * (rate / 100)).
  { apply Qmult_le_0_compat; [lra | exact Hq]. }
  set (p := (100 - score) * (rate / 100)) in *.
  lra.
Qed.

Lemma pillar_score_le_100 (cur rate : Q) (n : nat) :
  cur <= 100 -> pillar_score cur rate (Z.of_nat n) <= 100.
Proof.
  intros Hc. destruct n as [|n]; [exact Hc|].
  rewrite pillar_score_succ. apply trajectory_step_le_100.
Qed.

Lemma pillar_score_incr (cur rate : Q) (n : nat) :
  0 <= rate -> cur <= 100 ->
  pillar_score cur rate (Z.of_nat n) <= pillar_score cur rate (Z.of_nat (S n)).
Proof.
  intros Hr Hc. rewrite pillar_score_succ.
  apply trajectory_step_incr; [exact Hr|]. apply pillar_score_le_100, Hc.
Qed.

Lemma year_row_ok (cs rates : gmap string Q) (y : Z) :
  exists row, year_row cs rates y = Ok row /\ row_spec cs rates y row.
Proof.
  unfold year_row. cbn [foldl pillars year_pillar].
  unfold dict_get. simplify_map_eq. cbn [mbind result_bind].
  rewrite calculate_total_score_ok. cbn [mbind result_bind mret result_ret].
  eexists; split; [reflexivity|]. split.
  - simplify_map_eq. reflexivity.
  - intros pillar Hp.
    destruct (pillar_cases pillar Hp) as [-> | [-> | ->]]; simplify_map_eq; reflexivity.
Qed.

Lemma collect_years_ok (cs rates : gmap string Q) (ys : list Z) :
  exists traj, collect_years cs rates ys = Ok traj /\
               Forall2 (row_spec cs rates) ys traj.
Proof.
  induction ys as [|y ys IH]; cbn [collect_years].
  - exists []. split; [reflexivity | constructor].
  - destruct (year_row_ok cs rates y) as [row [Hrow Hspec]].
    destruct IH as [traj [Htraj Hall]].
    rewrite Hrow, Htraj. cbn [mbind result_bind mret result_ret].
    exists (row :: traj). split; [reflexivity | constructor; assumption].
Qed.

Lemma py_range_lookup (n : Z) (i : nat) (y : Z) :
  py_range n !! i = Some y -> y = Z.of_nat i.
Proof.
  unfold py_range. rewrite list_lookup_fmap. intros H.
  destruct (seq 0 (Z.to_nat n) !! i) as [k|] eqn:E; [|discriminate].
  apply lookup_seq in E as [-> _]. cbn in H. congruence.
Qed.

End Trajectory.

Section TrajectoryColumn.
Import Num EsgSimulator Spec.

Lemma raw_lookup (f : Z -> Q) (n : Z) (y : nat) (s : Q) :
  map f (py_range n) !! y = Some s -> s = f (Z.of_nat y).
Proof.
  rewrite list_lookup_fmap. intros H.
  destruct (py_range n !! y) as [z|] eqn:E; [|discriminate].
  apply py_range_lookup in E as ->. cbn in H. congruence.
Qed.

Lemma length_py_range (n : Z) : length (py_range n) = Z.to_nat n.
Proof. unfold py_range. rewrite length_map, length_seq. reflexivity. Qed.

End TrajectoryColumn.

(** ** The trajectory in any lawful arithmetic *)

Section ArithTrajectory.
Import Arith.

Variable a : arith.
Hypothesis La : lawful a.

Lemma arith_100_number : le a (lit a 100) (lit a 100).
Proof. apply (le_number a La _ _ (round1_100 a La)). Qed.

Lemma arith_min_le_l (x y : num a) : le a x x -> le a (py_min a x y) x.
Proof.
  intros Hx. unfold py_min. destruct (ltb a y x) eqn:E.
  - apply (ltb_le a La), E.
  - exact Hx.
Qed.

Lemma arith_step_le_100 (rate score : num a) :
  le a (trajectory_step a rate score) (lit a 100).
Proof. unfold trajectory_step. apply arith_min_le_l, arith_100_number. Qed.

(** A step never lowers a score of at most 100.  When the sum is not a
    number, the comparison inside [min] fails and the step yields 100. *)
Lemma arith_step_incr (rate score : num a) :
  le a (lit a 0) rate -> le a score (lit a 100) ->
  le a score (trajectory_step a rate score).
Proof.
  intros Hr Hs. unfold trajectory_step, py_min. cbn zeta.
  match goal with
  | |- context [ltb a ?sum (lit a 100)] => destruct (ltb a sum (lit a 100)) eqn:E
  end; [|exact Hs].
  apply (ltb_le a La) in E. apply (le_number a La) in E as [Hsum _].
  apply (add_nonneg a La); [|exact Hsum].
  apply (add_number a La) in Hsum as [_ Himp].
  apply (mul_nonneg a La); [|apply (half_nonneg a La)|exact Himp].
  apply (mul_number a La) in Himp as [Hprod _].
  apply (mul_nonneg a La); [| |exact Hprod].
  - apply (sub_100_nonneg a La), Hs.
  - apply (div_100_nonneg a La), Hr.
Qed.

Lemma arith_pillar_score_succ (cur rate : num a) (n : nat) :
  pillar_score a cur rate (Z.of_nat (S n))
  = trajectory_step a rate (pillar_score a cur rate (Z.of_nat n)).
Proof. unfold pillar_score. rewrite py_range_succ, foldl_app. reflexivity. Qed.

Lemma arith_pillar_score_le_100 (cur rate : num a) (n : nat) :
  le a cur (lit a 100) -> le a (pillar_score a cur rate (Z.of_nat n)) (lit a 100).
Proof.
  intros Hc. destruct n as [|n]; [exact Hc|].
  rewrite arith_pillar_score_succ. apply arith_step_le_100.
Qed.

Lemma arith_pillar_score_incr (cur rate : num a) (n : nat) :
  le a (lit a 0) rate -> le a cur (lit a 100) ->
  le a (pillar_score a cur rate (Z.of_nat n)) (pillar_score a cur rate (Z.of_nat (S n))).
Proof.
  intros Hr Hc. rewrite arith_pillar_score_succ.
  apply arith_step_incr; [exact Hr | apply arith_pillar_score_le_100, Hc].
Qed.

Lemma arith_round1_le_100 (x : num a) :
  le a x (lit a 100) -> le a (round1 a x) (lit a 100).
Proof.
  intros H. apply (le_trans a La) with (round1 a (lit a 100)).
  - apply (round1_mono a La), H.
  - apply (round1_100 a La).
Qed.

Lemma arith_total_ok (e s g : num a) :
  exists t, calculate_total_score a e s g = Ok t.
Proof. eexists. reflexivity. Qed.

(** What a row of the projection holds for its year. *)
Lemma arith_year_row_ok (cs rates : gmap string (num a)) (y : Z) :
  exists row,
    year_row a cs rates y = Ok row /\
    row !! "year" = Some (lit a (inject_Z y)) /\
    forall pillar, pillar ∈ EsgSimulator.pillars ->
      row !! pillar
      = Some (round1 a (pillar_score a (dict_get_default cs pillar (lit a 0))
                                       (dict_get_default rates pillar (lit a 0)) y)).
Proof.
  unfold year_row. cbn [foldl EsgSimulator.pillars year_pillar].
  unfold dict_get at 1 2 3. simplify_map_eq. cbn [mbind result_bind].
  match goal with
  | |- context [calculate_total_score a ?e ?s ?g] =>
      destruct (arith_total_ok e s g) as [t ->]
  end.
  cbn [mbind result_bind mret result_ret].
  eexists; split; [reflexivity|]. split.
  - simplify_map_eq. reflexivity.
  - intros pillar Hp.
    destruct (pillar_cases pillar Hp) as [-> | [-> | ->]]; simplify_map_eq; reflexivity.
Qed.

Lemma arith_rows_ok (cs rates : gmap string (num a)) (ys : list Z) :
  exists traj,
    forM (year_row a cs rates) ys = Ok traj /\
    Forall2 (fun y row =>
               row !! "year" = Some (lit a (inject_Z y)) /\
               forall pillar, pillar ∈ EsgSimulator.pillars ->
                 row !! pillar
                 = Some (round1 a (pillar_score a (dict_get_default cs pillar (lit a 0))
                                      (dict_get_default rates pillar (lit a 0)) y)))
            ys traj.
Proof.
  induction ys as [|y ys IH]; cbn [forM].
  - exists []. split; [reflexivity | constructor].
  - destruct (arith_year_row_ok cs rates y) as (row & -> & Hrow).
    destruct IH as (traj & -> & Hall). cbn [mbind result_bind mret result_ret].
    exists (row :: traj). split; [reflexivity | constructor; assumption].
Qed.

Lemma arith_raw_lookup (f : Z -> num a) (n : Z) (y : nat) (s : num a) :
  map f (EsgSimulator.py_range n) !! y = Some s -> s = f (Z.of_nat y).
Proof.
  rewrite list_lookup_fmap. intros H.
  destruct (EsgSimulator.py_range n !! y) as [z|] eqn:E; [|discriminate].
  apply py_range_lookup in E as ->. cbn in H. congruence.
Qed.

End ArithTrajectory.

(** The exact rationals obey the laws. *)
Lemma exact_lawful : Arith.lawful Arith.exact.
Proof.
  split; cbn [Arith.le Arith.lit Arith.add Arith.sub Arith.mul Arith.div Arith.ltb
              Arith.round1 Arith.exact Arith.num].
  - intros x y _. split; apply Qle_refl.
  - intros x y z. apply Qle_trans.
  - intros x y H. apply Qltb_true in H. apply Qlt_le_weak, H.
  - intros x y _. split; apply Qle_refl.
  - intros x y _. split; apply Qle_refl.
  - intros x y H _. lra.
  - intros x y Hx Hy _. apply Qmult_le_0_compat; assumption.
  - intros x H. lra.
  - intros x H. apply Qle_shift_div_l; lra.
  - lra.
  - intros x y. apply round1_mono.
  - rewrite round1_100. apply Qle_refl.
Qed.

(** On the exact rationals the generic projection is the one of
    [EsgSimulator]. *)
Lemma exact_predict_future_trajectory (cs rates : gmap string Q) (years : Z) :
  Arith.predict_future_trajectory Arith.exact cs rates years
  = EsgSimulator.predict_future_trajectory cs rates years.
Proof.
  unfold Arith.predict_future_trajectory, EsgSimulator.predict_future_trajectory.
  induction (EsgSimulator.py_range (years + 1)) as [|y ys IH]; [reflexivity|].
  cbn [forM EsgSimulator.collect_years]. rewrite IH. reflexivity.
Qed.

(** C2: in every arithmetic with the order laws of [Arith.lawful], that of
    the interpreter included, and for current scores in [0, 100] and
    nonnegative annual rates, [predict_future_trajectory] returns one row
    per year 0..years; the score of a pillar in year y is [round(s, 1)] of
    the score s obtained from the current one by y steps, each replacing
    the score by min(100, score + (100 - score) * (rate / 100) * 0.5); the
    entries never exceed 100, never decrease from one year to the next, and
    the entry of year 0 is the rounded current score. *)
Theorem predict_future_trajectory_monotone_capped
    (a : Arith.arith) (La : Arith.lawful a)
    (current_scores rates : gmap string (Arith.num a)) (years : Z) :
  (forall p, p ∈ EsgSimulator.pillars ->
     Arith.le a (Arith.lit a 0) (dict_get_default current_scores p (Arith.lit a 0)) /\
     Arith.le a (dict_get_default current_scores p (Arith.lit a 0)) (Arith.lit a 100)) ->
  (forall p, p ∈ EsgSimulator.pillars ->
     Arith.le a (Arith.lit a 0) (dict_get_default rates p (Arith.lit a 0))) ->
  exists traj,
    Arith.predict_future_trajectory a current_scores rates years = Ok traj /\
    length traj = Z.to_nat (years + 1) /\
    forall p, p ∈ EsgSimulator.pillars ->
      let cur := dict_get_default current_scores p (Arith.lit a 0) in
      let rate := dict_get_default rates p (Arith.lit a 0) in
      exists raw : list (Arith.num a),
        length raw = length traj /\
        (forall s, raw !! 0%nat = Some s -> s = cur) /\
        (forall y s s', raw !! y = Some s -> raw !! S y = Some s' ->
           s' = Arith.py_min a (Arith.lit a 100)
                  (Arith.add a s
                     (Arith.mul a
                        (Arith.mul a (Arith.sub a (Arith.lit a 100) s)
                                     (Arith.div a rate (Arith.lit a 100)))
                        (Arith.lit a (1 # 2))))) /\
        (forall y row, traj !! y = Some row ->
           exists s, raw !! y = Some s /\
                     row !! p = Some (Arith.round1 a s) /\
                     row !! "year" = Some (Arith.lit a (inject_Z (Z.of_nat y)))) /\
        (forall y row v, traj !! y = Some row -> row !! p = Some v ->
           Arith.le a v (Arith.lit a 100)) /\
        (forall y row row' v v',
           traj !! y = Some row -> traj !! S y = Some row' ->
           row !! p = Some v -> row' !! p = Some v' -> Arith.le a v v') /\
        ((0 <= years)%Z ->
           exists row, traj !! 0%nat = Some row /\ row !! p = Some (Arith.round1 a cur)).
Proof.
  intros Hc Hr.
  destruct (arith_rows_ok a current_scores rates (EsgSimulator.py_range (years + 1)))
    as [traj [Ht Hall]].
  exists traj. split; [exact Ht|].
  assert (Hlen : length traj = Z.to_nat (years + 1)).
  { rewrite <- (Forall2_length _ _ _ Hall). apply length_py_range. }
  split; [exact Hlen|].
  intros p Hp cur rate.
  assert (Hcur : Arith.le a cur (Arith.lit a 100)) by (apply Hc, Hp).
  assert (Hrate : Arith.le a (Arith.lit a 0) rate) by (apply Hr, Hp).
  assert (Hrow : forall y row, traj !! y = Some row ->
            EsgSimulator.py_range (years + 1) !! y = Some (Z.of_nat y) /\
            row !! "year" = Some (Arith.lit a (inject_Z (Z.of_nat y))) /\
            row !! p = Some (Arith.round1 a (Arith.pillar_score a cur rate (Z.of_nat y)))).
  { intros y row Hy.
    destruct (Forall2_lookup_r _ _ _ _ _ Hall Hy) as [yz [Hyz [Hyear Hpil]]].
    pose proof (py_range_lookup _ _ _ Hyz) as ->.
    split; [exact Hyz|]. split; [exact Hyear | apply Hpil, Hp]. }
  exists (map (Arith.pillar_score a cur rate) (EsgSimulator.py_range (years + 1))).
  split; [rewrite length_map, length_py_range; symmetry; exact Hlen|].
  split; [intros s Hs; apply arith_raw_lookup in Hs; exact Hs|].
  split.
  { intros y s s' Hs Hs'. apply arith_raw_lookup in Hs, Hs'. subst s s'.
    rewrite arith_pillar_score_succ. reflexivity. }
  split.
  { intros y row Hy. destruct (Hrow y row Hy) as [Hyz [Hyear Hv]].
    eexists. split; [|split; [exact Hv | exact Hyear]].
    rewrite list_lookup_fmap, Hyz. reflexivity. }
  split.
  { intros y row v Hy Hv. destruct (Hrow y row Hy) as [_ [_ Hv']].
    rewrite Hv' in Hv. injection Hv as <-.
    apply (arith_round1_le_100 a La), (arith_pillar_score_le_100 a La), Hcur. }
  split.
  { intros y row row' v v' Hy Hy' Hv Hv'.
    destruct (Hrow y row Hy) as [_ [_ E]]. rewrite E in Hv. injection Hv as <-.
    destruct (Hrow (S y) row' Hy') as [_ [_ E']]. rewrite E' in Hv'. injection Hv' as <-.
    apply (Arith.round1_mono a La), (arith_pillar_score_incr a La); assumption. }
  intros Hy.
  destruct (traj !! 0%nat) as [row|] eqn:E.
  - exists row. split; [reflexivity|]. destruct (Hrow 0%nat row E) as [_ [_ Hv]]. exact Hv.
  - apply lookup_ge_None in E. lia.
Qed.

(** C2 at a concrete input, in exact arithmetic: from an environmental
    score of 60 at 10 percent a year the first step leads to 62, the
    second to 63.9; a missing governance score counts as 0 and a missing
    rate as 0. *)
Lemma predict_future_trajectory_monotone_capped_witness :
  exists traj row1 row2 v1 v2,
    EsgSimulator.predict_future_trajectory
      (<["environmental" := 60]> (<["social" := 100]> ∅))
      (<["environmental" := 10]> ∅) 2 = Ok traj /\
    length traj = 3%nat /\
    traj !! 1%nat = Some row1 /\ traj !! 2%nat = Some row2 /\
    row1 !! "environmental" = Some v1 /\ row2 !! "environmental" = Some v2 /\
    v1 == 62 /\ v2 == 639 # 10 /\ v1 <= v2 /\ v2 <= 100.
Proof.
  destruct (predict_future_trajectory_monotone_capped Arith.exact exact_lawful
              (<["environmental" := 60]> (<["social" := 100]> ∅))
              (<["environmental" := 10]> ∅) 2) as (traj & Ht & Hl & Hp).
  - intros p Hp.
    destruct (pillar_cases p Hp) as [-> | [-> | ->]];
      split; vm_compute; discriminate.
  - intros p Hp.
    destruct (pillar_cases p Hp) as [-> | [-> | ->]]; vm_compute; discriminate.
  - rewrite exact_predict_future_trajectory in Ht.
    destruct (Hp "environmental" ltac:(apply list_elem_of_here))
      as (raw & Hraw & H0 & Hstep & Hent & Hcap & Hmono & _).
    destruct (traj !! 1%nat) as [row1|] eqn:E1;
      [|apply lookup_ge_None in E1; rewrite Hl in E1; cbn in E1; lia].
    destruct (traj !! 2%nat) as [row2|] eqn:E2;
      [|apply lookup_ge_None in E2; rewrite Hl in E2; cbn in E2; lia].
    destruct (traj !! 0%nat) as [row0|] eqn:E0;
      [|apply lookup_ge_None in E0; rewrite Hl in E0; cbn in E0; lia].
    destruct (Hent 0%nat row0 E0) as (s0 & Hs0 & _ & _).
    destruct (Hent 1%nat row1 E1) as (s1 & Hs1 & Hv1 & _).
    destruct (Hent 2%nat row2 E2) as (s2 & Hs2 & Hv2 & _).
    pose proof (H0 s0 Hs0) as ->.
    pose proof (Hstep 0%nat _ _ Hs0 Hs1) as ->.
    pose proof (Hstep 1%nat _ _ Hs1 Hs2) as ->.
    exists traj, row1, row2. eexists. eexists.
    split; [exact Ht|]. split; [exact Hl|].
    split; [exact E1|]. split; [exact E2|].
    split; [exact Hv1|]. split; [exact Hv2|].
    split; [vm_compute; reflexivity|]. split; [vm_compute; reflexivity|].
    split.
    + apply (Hmono 1%nat row1 row2 _ _ E1 E2 Hv1 Hv2).
    + apply (Hcap 2%nat row2 _ E2 Hv2).
Defined.

(** ** Frames: selection and the latest year *)

Section FrameFacts.
Import Num Frame Spec.

Lemma filter_filter {A : Type} (p q : A -> bool) (l : list A) :
  List.filter p (List.filter q l) = List.filter (fun x => q x && p x) l.
Proof.
  induction l as [|x l IH]; [reflexivity|].
  cbn [List.filter]. destruct (q x); cbn [List.filter andb]; rewrite IH; reflexivity.
Qed.

Lemma filter_ext_in_bool {A : Type} (p q : A -> bool) (l : list A) :
  (forall x, In x l -> p x = q x) -> List.filter p l = List.filter q l.
Proof.
  induction l as [|x l IH]; intros H; [reflexivity|].
  cbn [List.filter]. rewrite (H x (or_introl eq_refl)).
  rewrite IH; [reflexivity|]. intros y Hy. apply H. right. exact Hy.
Qed.

Lemma find_ext_in_bool {A : Type} (p q : A -> bool) (l : list A) :
  (forall x, In x l -> p x = q x) -> List.find p l = List.find q l.
Proof.
  induction l as [|x l IH]; intros H; [reflexivity|].
  cbn [List.find]. rewrite (H x (or_introl eq_refl)).
  rewrite IH; [reflexivity|]. intros y Hy. apply H. right. exact Hy.
Qed.

Lemma head_filter_find {A : Type} (p : A -> bool) (l : list A) :
  head (List.filter p l) = List.find p l.
Proof.
  induction l as [|x l IH]; [reflexivity|].
  cbn [List.filter List.find]. destruct (p x); [reflexivity | exact IH].
Qed.

Lemma iloc0_head (df : frame) : iloc0 df = match head df with
                                           | Some r => Ok r
                                           | None => Raise IndexError
                                           end.
Proof. destruct df; reflexivity. Qed.

Lemma foldl_max_ge (l : frame) (a : Z) :
  (a <= foldl (fun m r => Z.max m (year r)) a l)%Z.
Proof.
  revert a. induction l as [|r l IH]; intros a; cbn [foldl]; [lia|].
  specialize (IH (Z.max a (year r))). lia.
Qed.

Lemma foldl_max_upper (l : frame) (a : Z) (r : row) :
  In r l -> (year r <= foldl (fun m r' => Z.max m (year r')) a l)%Z.
Proof.
  revert a. induction l as [|r' l IH]; intros a Hin; [destruct Hin|].
  cbn [foldl]. destruct Hin as [-> | Hin].
  - pose proof (foldl_max_ge l (Z.max a (year r))). lia.
  - apply IH, Hin.
Qed.

Lemma foldl_max_attained (l : frame) (a : Z) :
  foldl (fun m r => Z.max m (year r)) a l = a
  \/ exists r, In r l /\ year r = foldl (fun m r' => Z.max m (year r')) a l.
Proof.
  revert a. induction l as [|r l IH]; intros a; cbn [foldl]; [left; reflexivity|].
  destruct (IH (Z.max a (year r))) as [E | [r' [Hin E]]].
  - rewrite E. destruct (Z.max_spec a (year r)) as [[_ ->] | [_ ->]].
    + right. exists r. split; [left; reflexivity | reflexivity].
    + left. reflexivity.
  - right. exists r'. split; [right; exact Hin | exact E].
Qed.

(** [max()] of the year column of a non-empty frame is the year of one of
    its rows and bounds the years of all of them. *)
Lemma year_max_spec (df : frame) :
  df <> [] ->
  exists m, year_max df = Some m /\
            (forall r, In r df -> (year r <= m)%Z) /\
            (exists r, In r df /\ year r = m).
Proof.
  destruct df as [|r0 l]; [congruence|]. intros _.
  cbn [year_max]. eexists. split; [reflexivity|]. split.
  - intros r [<- | Hin]; [apply foldl_max_ge | apply foldl_max_upper, Hin].
  - destruct (foldl_max_attained l (year r0)) as [E | [r [Hin E]]].
    + exists r0. split; [left; reflexivity | symmetry; exact E].
    + exists r. split; [right; exact Hin | exact E].
Qed.

Lemma year_max_nil_iff (df : frame) : year_max df = None <-> df = [].
Proof. destruct df; cbn; split; congruence. Qed.

Lemma company_rows_In (df : frame) (c : string) (r : row) :
  In r (company_rows df c) <-> In r df /\ company r = c.
Proof.
  unfold company_rows. rewrite filter_In, String.eqb_eq. reflexivity.
Qed.

(** The row that the analyzer takes as the latest one of a company. *)
Lemma latest_of_company (df : frame) (c : string) :
  company_rows df c <> [] ->
  head (List.filter (year_is (year_max (company_rows df c))) (company_rows df c))
  = latest_row df c.
Proof.
  intros Hne.
  destruct (year_max_spec _ Hne) as [m [Hm [Hub [rm [Hrm Hym]]]]].
  rewrite Hm. unfold company_rows. rewrite filter_filter, head_filter_find.
  unfold latest_row. apply find_ext_in_bool.
  intros r Hr. unfold is_latest_of, year_is.
  destruct (String.eqb (company r) c) eqn:Ec; cbn [andb]; [|reflexivity].
  apply String.eqb_eq in Ec.
  apply Bool.eq_iff_eq_true. rewrite Z.eqb_eq, forallb_forall. split.
  - intros Ey r' Hr'. apply Bool.orb_true_iff.
    destruct (String.eqb (company r') c) eqn:Ec'; [right | left; reflexivity].
    apply String.eqb_eq in Ec'. apply Z.leb_le. rewrite Ey.
    apply Hub, company_rows_In. split; assumption.
  - intros Hall.
    assert (H1 : (year r <= m)%Z) by (apply Hub, company_rows_In; split; assumption).
    apply company_rows_In in Hrm as [Hrm Hcm].
    specialize (Hall rm Hrm). apply Bool.orb_true_iff in Hall.
    destruct Hall as [Hall | Hall].
    + apply Bool.negb_true_iff in Hall. apply String.eqb_neq in Hall. congruence.
    + apply Z.leb_le in Hall. lia.
Qed.

End FrameFacts.

(** ** Risk flags *)

Section Risks.
Import Num Frame Spec EsgAnalyzer.

Lemma is_empty_false {A : Type} (l : list A) : l <> [] -> is_empty l = false.
Proof. destruct l; [congruence | reflexivity]. Qed.

Lemma company_rows_nonempty (df : frame) (c : string) :
  (exists r, In r df /\ company r = c) -> company_rows df c <> [].
Proof.
  intros [r Hr] E. apply company_rows_In in Hr. rewrite E in Hr. destruct Hr.
Qed.

Lemma company_rows_absent (df : frame) (c : string) :
  (forall r, In r df -> company r <> c) -> company_rows df c = [].
Proof.
  intros H. destruct (company_rows df c) as [|r l] eqn:E; [reflexivity|].
  assert (Hr : In r (company_rows df c)) by (rewrite E; left; reflexivity).
  apply company_rows_In in Hr as [Hr Hc]. destruct (H r Hr Hc).
Qed.

Lemma latest_row_spec (df : frame) (c : string) (latest : row) :
  latest_row df c = Some latest ->
  In latest df /\ company latest = c /\
  forall r, In r df -> company r = c -> (year r <= year latest)%Z.
Proof.
  unfold latest_row. intros H. apply find_some in H as [Hin Hp].
  unfold is_latest_of in Hp. apply andb_true_iff in Hp as [Hc Hall].
  apply String.eqb_eq in Hc. split; [exact Hin|]. split; [exact Hc|].
  intros r Hr Hrc. rewrite forallb_forall in Hall. specialize (Hall r Hr).
  apply Bool.orb_true_iff in Hall as [Hall | Hall].
  - apply Bool.negb_true_iff, String.eqb_neq in Hall. congruence.
  - apply Z.leb_le, Hall.
Qed.

Lemma latest_row_exists (df : frame) (c : string) :
  (exists r, In r df /\ company r = c) -> exists latest, latest_row df c = Some latest.
Proof.
  intros Hex. pose proof (company_rows_nonempty df c Hex) as Hne.
  rewrite <- (latest_of_company df c Hne).
  destruct (year_max_spec _ Hne) as [m [Hm [_ [rm [Hrm Hym]]]]]. rewrite Hm.
  destruct (List.filter (year_is (Some m)) (company_rows df c)) as [|r l] eqn:E.
  - assert (Hin : In rm (List.filter (year_is (Some m)) (company_rows df c))).
    { apply filter_In. split; [exact Hrm|]. unfold year_is. apply Z.eqb_eq, Hym. }
    rewrite E in Hin. destruct Hin.
  - exists r. reflexivity.
Qed.

(** The row on which the analyzer evaluates its rules. *)
Lemma analyzer_latest (df : frame) (c : string) (latest : row) :
  latest_row df c = Some latest ->
  iloc0 (List.filter (year_is (year_max (company_rows df c))) (company_rows df c))
  = Ok latest.
Proof.
  intros H. pose proof (latest_row_spec df c latest H) as [Hin [Hc _]].
  rewrite iloc0_head, latest_of_company, H; [reflexivity|].
  apply company_rows_nonempty. exists latest. split; assumption.
Qed.

Lemma identify_risks_table (df : frame) (c : string) (latest : row) :
  latest_row df c = Some latest ->
  identify_risks df c = Ok (expected_risks latest).
Proof.
  intros H. pose proof (latest_row_spec df c latest H) as [Hin [Hc _]].
  unfold identify_risks.
  rewrite is_empty_false
    by (apply company_rows_nonempty; exists latest; split; assumption).
  rewrite (analyzer_latest df c latest H). cbn [mbind result_bind].
  unfold expected_risks, risk_rules, rule_fires, rule_flag, cgt.
  cbn [List.filter map beyond rule_side rule_value rule_limit rule_high
       rule_category rule_before rule_after].
  destruct (clt (environmental_score latest) (Some 50));
    destruct (clt (Some 50) (carbon_emissions_mt latest));
    destruct (clt (social_score latest) (Some 50));
    destruct (clt (Some 20) (safety_incidents latest));
    destruct (clt (governance_score latest) (Some 60));
    destruct (clt (board_independence_pct latest) (Some 60));
    destruct (clt (controversy_score latest) (Some 60));
    reflexivity.
Qed.

(** Distinct rules of the table carry distinct texts. *)
Lemma risk_rules_text_inj (k k' : rule) :
  In k risk_rules -> In k' risk_rules -> rule_before k = rule_before k' -> k = k'.
Proof.
  unfold risk_rules. cbn [In]. intros Hk Hk' E.
  repeat (destruct Hk as [<- | Hk]; [|]); try destruct Hk;
    repeat (destruct Hk' as [<- | Hk']; [|]); try destruct Hk';
    first [reflexivity | discriminate E].
Qed.

Lemma expected_risks_In (latest : row) (k : rule) :
  In k risk_rules ->
  (In (rule_flag k latest) (expected_risks latest) <-> rule_fires k latest = true).
Proof.
  intros Hk. unfold expected_risks. rewrite in_map_iff. split.
  - intros [k' [E Hk']]. apply filter_In in Hk' as [Hk' Hf].
    assert (k' = k) as <-; [|exact Hf].
    apply risk_rules_text_inj; [exact Hk' | exact Hk |].
    unfold rule_flag in E. congruence.
  - intros Hf. exists k. split; [reflexivity|]. apply filter_In. split; assumption.
Qed.

End Risks.

(** C4: for a company present in the data, [identify_risks] evaluates the
    fixed thresholds on the company's latest-year row and returns exactly
    the flags of the rules that fire, in the order of the table
    [Spec.risk_rules]: environmental_score < 50 (High below 40),
    carbon_emissions_mt > 50 (High above 100), social_score < 50 (High
    below 40), safety_incidents > 20 (High above 40), governance_score < 60
    (High below 50), board_independence_pct < 60 (always Medium),
    controversy_score < 60 (High below 50). *)
Theorem identify_risks_threshold_flags (df : Frame.frame) (c : string) :
  (exists r, In r df /\ Frame.company r = c) ->
  exists latest,
    Spec.latest_row df c = Some latest /\
    In latest df /\ Frame.company latest = c /\
    (forall r, In r df -> Frame.company r = c ->
               (Frame.year r <= Frame.year latest)%Z) /\
    EsgAnalyzer.identify_risks df c = Ok (Spec.expected_risks latest) /\
    forall k, In k Spec.risk_rules ->
      (In (Spec.rule_flag k latest) (Spec.expected_risks latest)
       <-> Spec.rule_fires k latest = true).
Proof.
  intros Hex. destruct (latest_row_exists df c Hex) as [latest Hl].
  exists latest. split; [exact Hl|].
  destruct (latest_row_spec df c latest Hl) as [Hin [Hc Hmax]].
  split; [exact Hin|]. split; [exact Hc|]. split; [exact Hmax|].
  split; [apply identify_risks_table, Hl|].
  intros k Hk. apply expected_risks_In, Hk.
Qed.

(** C4 at a concrete input: the latest row of Acme is the one of 2023. *)
Lemma identify_risks_threshold_flags_witness :
  exists latest,
    Spec.latest_row Sample.data "Acme" = Some latest /\
    EsgAnalyzer.identify_risks Sample.data "Acme" = Ok (Spec.expected_risks latest).
Proof.
  destruct (identify_risks_threshold_flags Sample.data "Acme")
    as [latest [Hl [_ [_ [_ [Hr _]]]]]].
  - exists Sample.acme22. split; [|reflexivity].
    unfold Sample.data. cbn [In]. tauto.
  - exists latest. split; [exact Hl | exact Hr].
Defined.

(** ** Unknown companies *)

Section UnknownCompany.
Import Num Frame EsgAnalyzer.

Lemma filter_none {A : Type} (p : A -> bool) (l : list A) :
  (forall x, In x l -> p x = false) -> List.filter p l = [].
Proof.
  induction l as [|x l IH]; intros H; [reflexivity|].
  cbn [List.filter]. rewrite (H x (or_introl eq_refl)).
  apply IH. intros y Hy. apply H. right. exact Hy.
Qed.

Lemma identify_risks_absent (df : frame) (c : string) :
  (forall r, In r df -> company r <> c) -> identify_risks df c = Ok [].
Proof.
  intros H. unfold identify_risks. rewrite (company_rows_absent df c H). reflexivity.
Qed.

Lemma calculate_sector_benchmark_absent (df : frame) (c : string) :
  (forall r, In r df -> company r <> c) -> calculate_sector_benchmark df c = Ok ∅.
Proof.
  intros H. unfold calculate_sector_benchmark.
  rewrite (company_rows_absent df c H). reflexivity.
Qed.

Lemma calculate_improvement_areas_absent (df : frame) (c : string) :
  (forall r, In r df -> company r <> c) -> calculate_improvement_areas df c = Ok [].
Proof.
  intros H. unfold calculate_improvement_areas.
  rewrite (calculate_sector_benchmark_absent df c H). cbn [mbind result_bind].
  rewrite map_size_empty. reflexivity.
Qed.

Lemma calculate_peer_statistics_absent (sqrt : Q -> Q) (df : frame) (c sec : string) :
  (forall r, In r df -> company r <> c) ->
  PeerBenchmark.calculate_peer_statistics sqrt df c sec = Ok ∅.
Proof.
  intros H. unfold PeerBenchmark.calculate_peer_statistics.
  rewrite (filter_none (fun r => String.eqb (company r) c && _)).
  - reflexivity.
  - intros r Hr. apply andb_false_iff. left. apply String.eqb_neq, H, Hr.
Qed.

End UnknownCompany.

(** C9: for a company name that does not occur in the company column, the
    analysis operations return empty results and do not raise:
    [identify_risks] the empty list, [calculate_sector_benchmark] the empty
    dict, [calculate_improvement_areas] the empty list and
    [calculate_peer_statistics] the empty dict, whatever the sector. *)
Theorem unknown_company_empty_results (df : Frame.frame) (c : string) :
  (forall r, In r df -> Frame.company r <> c) ->
  EsgAnalyzer.identify_risks df c = Ok [] /\
  EsgAnalyzer.calculate_sector_benchmark df c = Ok ∅ /\
  EsgAnalyzer.calculate_improvement_areas df c = Ok [] /\
  forall (sqrt : Q -> Q) (sec : string),
    PeerBenchmark.calculate_peer_statistics sqrt df c sec = Ok ∅.
Proof.
  intros H. split; [apply identify_risks_absent, H|].
  split; [apply calculate_sector_benchmark_absent, H|].
  split; [apply calculate_improvement_areas_absent, H|].
  intros sqrt sec. apply calculate_peer_statistics_absent, H.
Qed.

(** C9 at a concrete input: no row of the sample data belongs to Initech. *)
Lemma unknown_company_empty_results_witness :
  EsgAnalyzer.identify_risks Sample.data "Initech" = Ok [] /\
  EsgAnalyzer.calculate_sector_benchmark Sample.data "Initech" = Ok ∅ /\
  EsgAnalyzer.calculate_improvement_areas Sample.data "Initech" = Ok [] /\
  forall (sqrt : Q -> Q) (sec : string),
    PeerBenchmark.calculate_peer_statistics sqrt Sample.data "Initech" sec = Ok ∅.
Proof.
  apply (unknown_company_empty_results Sample.data "Initech").
  intros r Hr. unfold Sample.data in Hr. cbn [In] in Hr.
  destruct Hr as [<- | [<- | [<- | [<- | [<- | []]]]]]; cbn; discriminate.
Defined.

(** ** Filtering *)

Section Filtering.
Import Num Frame Store DataLoader Spec.

Lemma alloc_spec (f : frame) (h : heap) :
  exists l, alloc f h = (l, <[l := f]> h) /\ h !! l = None.
Proof.
  unfold alloc. eexists. split; [reflexivity|].
  apply not_elem_of_dom, is_fresh.
Qed.

Lemma running_copy (h0 : heap) (df : loc) (f : frame) :
  h0 !! df = Some f ->
  exists cur h, df_copy df h0 = (cur, h) /\ running h0 h cur f.
Proof.
  intros Hdf. unfold df_copy, read. rewrite Hdf.
  destruct (alloc_spec f h0) as [l [-> Hl]].
  exists l, (<[l := f]> h0). split; [reflexivity|].
  split; [apply insert_subseteq, Hl|]. split; [exact Hl | apply lookup_insert_eq].
Qed.

Lemma running_stage (h0 h : heap) (cur : loc) (g : frame)
    (cond : bool) (mask : row -> bool) :
  running h0 h cur g ->
  exists cur' h',
    (if cond then df_mask cur mask else st_ret cur) h = (cur', h') /\
    running h0 h' cur' (if cond then List.filter mask g else g).
Proof.
  intros (Hsub & Hfresh & Hcur). destruct cond.
  - unfold df_mask, read. rewrite Hcur.
    destruct (alloc_spec (List.filter mask g) h) as [l [-> Hl]].
    exists l, (<[l := List.filter mask g]> h). split; [reflexivity|].
    split; [|split].
    + etransitivity; [exact Hsub | apply insert_subseteq, Hl].
    + destruct (h0 !! l) as [x|] eqn:E; [|reflexivity].
      pose proof (lookup_weaken _ _ _ _ E Hsub) as E'. congruence.
    + apply lookup_insert_eq.
  - exists cur, h. split; [reflexivity|]. split; [exact Hsub|]. split; assumption.
Qed.

Lemma cond_filter {A : Type} (cond : bool) (p : A -> bool) (l : list A) :
  (if cond then List.filter p l else l)
  = List.filter (fun x => if cond then p x else true) l.
Proof.
  destruct cond; [reflexivity|].
  induction l as [|x l IH]; [reflexivity|]. cbn [List.filter]. congruence.
Qed.

Lemma isin_str_In (x : string) (vs : list string) :
  isin_str x (Some vs) = true <-> In x vs.
Proof.
  cbn [isin_str]. rewrite existsb_exists. split.
  - intros [y [Hy E]]. apply String.eqb_eq in E. subst. exact Hy.
  - intros H. exists x. split; [exact H | apply String.eqb_refl].
Qed.

Lemma isin_int_In (x : Z) (vs : list Z) :
  isin_int x (Some vs) = true <-> In x vs.
Proof.
  cbn [isin_int]. rewrite existsb_exists. split.
  - intros [y [Hy E]]. apply Z.eqb_eq in E. subst. exact Hy.
  - intros H. exists x. split; [exact H | apply Z.eqb_refl].
Qed.

Lemma keep_str_ok (arg : option (list string)) (x : string) :
  (if truthy arg then isin_str x arg else true) = true <-> criterion_ok arg x.
Proof.
  destruct arg as [[|v vs]|]; cbn [truthy criterion_ok]; [tauto | | tauto].
  apply isin_str_In.
Qed.

Lemma keep_int_ok (arg : option (list Z)) (x : Z) :
  (if truthy arg then isin_int x arg else true) = true <-> criterion_ok arg x.
Proof.
  destruct arg as [[|v vs]|]; cbn [truthy criterion_ok]; [tauto | | tauto].
  apply isin_int_In.
Qed.

Lemma filter_sublist {A : Type} (p : A -> bool) (l : list A) :
  List.filter p l `sublist_of` l.
Proof.
  induction l as [|x l IH]; [constructor|].
  cbn [List.filter]. destruct (p x); constructor; exact IH.
Qed.

(** What a call of [filter_data] does to the store. *)
Lemma filter_data_run (h : heap) (df : loc) (f : frame)
    (companies sectors countries : option (list string)) (years : option (list Z)) :
  h !! df = Some f ->
  exists out h',
    filter_data df companies sectors countries years h = (out, h') /\
    running h h' out
      (List.filter (keeps companies sectors countries years) f).
Proof.
  intros Hdf. unfold filter_data, st_bind.
  destruct (running_copy h df f Hdf) as (c0 & h0 & -> & R0).
  destruct (running_stage h h0 c0 _ (truthy companies)
              (fun r => isin_str (company r) companies) R0) as (c1 & h1 & -> & R1).
  destruct (running_stage h h1 c1 _ (truthy sectors)
              (fun r => isin_str (sector r) sectors) R1) as (c2 & h2 & -> & R2).
  destruct (running_stage h h2 c2 _ (truthy countries)
              (fun r => isin_str (country r) countries) R2) as (c3 & h3 & -> & R3).
  destruct (running_stage h h3 c3 _ (truthy years)
              (fun r => isin_int (year r) years) R3) as (c4 & h4 & -> & R4).
  exists c4, h4. split; [reflexivity|].
  rewrite !cond_filter, !filter_filter in R4. exact R4.
Qed.

End Filtering.

Section FilterData.
Import Num Frame Store DataLoader Spec.

Lemma keeps_ok (companies sectors countries : option (list string))
    (years : option (list Z)) (r : row) :
  keeps companies sectors countries years r = true <->
  criterion_ok companies (company r) /\ criterion_ok sectors (sector r) /\
  criterion_ok countries (country r) /\ criterion_ok years (year r).
Proof.
  unfold keeps. rewrite !andb_true_iff, !keep_str_ok, keep_int_ok. reflexivity.
Qed.

Lemma falsy_cases {A : Type} (arg : option (list A)) :
  arg = None \/ arg = Some [] -> truthy arg = false.
Proof. intros [-> | ->]; reflexivity. Qed.

Lemma filter_all {A : Type} (p : A -> bool) (l : list A) :
  (forall x, p x = true) -> List.filter p l = l.
Proof.
  intros H. induction l as [|x l IH]; [reflexivity|].
  cbn [List.filter]. rewrite H, IH. reflexivity.
Qed.

End FilterData.

(** C6: a row of the input is in the output of [filter_data] if and only if
    it satisfies every criterion given as a non-empty list (its field is a
    member of the list); the output is the input with the other rows
    removed, so the rows keep their order; the output is a new object and
    the input dataframe, like every other object of the caller, is
    unchanged. *)
Theorem filter_data_selects (h : gmap nat Frame.frame) (df : nat) (f : Frame.frame)
    (companies sectors countries : option (list string)) (years : option (list Z)) :
  h !! df = Some f ->
  exists out h' g,
    DataLoader.filter_data df companies sectors countries years h = (out, h') /\
    h' !! out = Some g /\
    (forall r, In r g <->
       In r f /\
       Spec.criterion_ok companies (Frame.company r) /\
       Spec.criterion_ok sectors (Frame.sector r) /\
       Spec.criterion_ok countries (Frame.country r) /\
       Spec.criterion_ok years (Frame.year r)) /\
    g = List.filter (Spec.keeps companies sectors countries years) f /\
    g `sublist_of` f /\
    out <> df /\
    h' !! df = Some f /\
    (forall l x, h !! l = Some x -> h' !! l = Some x).
Proof.
  intros Hdf.
  destruct (filter_data_run h df f companies sectors countries years Hdf)
    as (out & h' & Hrun & Hsub & Hfresh & Hout).
  exists out, h', (List.filter (Spec.keeps companies sectors countries years) f).
  split; [exact Hrun|]. split; [exact Hout|]. split.
  { intros r. rewrite filter_In, keeps_ok. reflexivity. }
  split; [reflexivity|]. split; [apply filter_sublist|]. split.
  { intros ->. congruence. }
  split; [exact (lookup_weaken _ _ _ _ Hdf Hsub)|].
  intros l x Hl. exact (lookup_weaken _ _ _ _ Hl Hsub).
Qed.

(** C6 at a concrete input: the Energy rows of 2023. *)
Lemma filter_data_selects_witness :
  exists out h',
    DataLoader.filter_data 0%nat None (Some ["Energy"]) (Some []) (Some [2023%Z])
      (<[0%nat := Sample.data]> ∅) = (out, h') /\
    h' !! out = Some [Sample.acme23; Sample.globex23] /\
    h' !! 0%nat = Some Sample.data.
Proof.
  destruct (filter_data_selects (<[0%nat := Sample.data]> ∅) 0%nat Sample.data
              None (Some ["Energy"]) (Some []) (Some [2023%Z]))
    as (out & h' & g & Hrun & Hout & _ & Hg & _ & _ & Hdf & _).
  - apply lookup_insert_eq.
  - exists out, h'. split; [exact Hrun|]. split; [|exact Hdf].
    rewrite Hout, Hg. reflexivity.
Defined.

(** C10: when every criterion is omitted or is an empty list,
    [filter_data] returns a dataframe equal to its input (a copy: a new
    object with the same rows); an empty list does not select away
    anything. *)
Theorem filter_data_no_criteria (h : gmap nat Frame.frame) (df : nat) (f : Frame.frame)
    (companies sectors countries : option (list string)) (years : option (list Z)) :
  h !! df = Some f ->
  companies = None \/ companies = Some [] ->
  sectors = None \/ sectors = Some [] ->
  countries = None \/ countries = Some [] ->
  years = None \/ years = Some [] ->
  exists out h',
    DataLoader.filter_data df companies sectors countries years h = (out, h') /\
    h' !! out = Some f /\
    h' !! df = Some f.
Proof.
  intros Hdf Hc Hs Hk Hy.
  destruct (filter_data_run h df f companies sectors countries years Hdf)
    as (out & h' & Hrun & Hsub & Hfresh & Hout).
  exists out, h'. split; [exact Hrun|]. split.
  - rewrite Hout. f_equal. apply filter_all. intros r. unfold Spec.keeps.
    rewrite (falsy_cases _ Hc), (falsy_cases _ Hs), (falsy_cases _ Hk),
      (falsy_cases _ Hy). reflexivity.
  - exact (lookup_weaken _ _ _ _ Hdf Hsub).
Qed.

(** C10 at a concrete input: two criteria omitted, two empty. *)
Lemma filter_data_no_criteria_witness :
  exists out h',
    DataLoader.filter_data 0%nat None (Some []) None (Some [])
      (<[0%nat := Sample.data]> ∅) = (out, h') /\
    h' !! out = Some Sample.data /\
    h' !! 0%nat = Some Sample.data.
Proof.
  apply (filter_data_no_criteria (<[0%nat := Sample.data]> ∅) 0%nat Sample.data
           None (Some []) None (Some [])).
  - apply lookup_insert_eq.
  - left; reflexivity.
  - right; reflexivity.
  - left; reflexivity.
  - right; reflexivity.
Defined.

(** ** Year-over-year changes *)

Section YearOverYear.
Import Num Frame DataLoader Spec.

Lemma insert_by_year_perm (r : row) (l : frame) :
  Permutation (insert_by_year r l) (r :: l).
Proof.
  induction l as [|a l IH]; cbn [insert_by_year]; [reflexivity|].
  destruct (year r <=? year a)%Z; [reflexivity|].
  rewrite IH. apply perm_swap.
Qed.

Lemma sort_values_year_perm (l : frame) : Permutation (sort_values_year l) l.
Proof.
  induction l as [|a l IH]; cbn; [reflexivity|].
  rewrite insert_by_year_perm. constructor. exact IH.
Qed.

Lemma insert_by_year_sorted (r : row) (l : frame) :
  Sorted year_le l -> Sorted year_le (insert_by_year r l).
Proof.
  induction 1 as [|a l Hs IH Hd]; cbn [insert_by_year].
  - repeat constructor.
  - destruct (year r <=? year a)%Z eqn:E.
    + apply Z.leb_le in E. repeat constructor; assumption.
    + apply Z.leb_gt in E. constructor; [exact IH|].
      destruct Hd as [|b l Hab]; cbn [insert_by_year].
      * constructor. unfold year_le. lia.
      * destruct (year r <=? year b)%Z; constructor; [unfold year_le; lia | exact Hab].
Qed.

Lemma sort_values_year_sorted (l : frame) : StronglySorted year_le (sort_values_year l).
Proof.
  apply Sorted_StronglySorted.
  - intros a b c. unfold year_le. lia.
  - induction l as [|a l IH]; cbn; [constructor|].
    apply insert_by_year_sorted, IH.
Qed.

Lemma column_field (g : row -> cell) (col : string) (df : frame) :
  (forall r, get_metric r col = Some (g r)) -> column df col = Ok (map g df).
Proof.
  intros H. induction df as [|r df IH]; [reflexivity|].
  cbn [column]. rewrite H, IH. reflexivity.
Qed.

Lemma build_from_base next (prev : row) (l : frame) :
  map base (build_from next prev l) = l.
Proof.
  revert prev. induction l as [|r l IH]; intros prev; [reflexivity|].
  cbn. rewrite IH. reflexivity.
Qed.

Lemma build_base first next (l : frame) : map base (build first next l) = l.
Proof. destruct l as [|r l]; [reflexivity|]. cbn. rewrite build_from_base. reflexivity. Qed.

Lemma build_plain (l : frame) :
  map (fun r => {| base := r; extra := ∅ |}) l = build (fun _ => ∅) (fun _ _ => ∅) l.
Proof.
  destruct l as [|r l]; [reflexivity|]. cbn. f_equal.
  revert r. induction l as [|a l IH]; intros r; [reflexivity|].
  cbn. f_equal. apply IH.
Qed.

Lemma set_column_build_from (key : string) (g : row -> cell) next
    (prev : row) (l : frame) :
  set_column key (build_from next prev l) (diff_from (g prev) (map g l))
  = build_from (fun p r => <[key := csub (g r) (g p)]> (next p r)) prev l.
Proof.
  revert prev. induction l as [|r l IH]; intros prev; [reflexivity|].
  cbn. f_equal. apply IH.
Qed.

(** Adding the change column of [g] to a table built row by row. *)
Lemma set_column_build (key : string) (g : row -> cell) first next (l : frame) :
  set_column key (build first next l) (series_diff (map g l))
  = build (fun r => <[key := None]> (first r))
          (fun p r => <[key := csub (g r) (g p)]> (next p r)) l.
Proof.
  destruct l as [|r l]; [reflexivity|].
  cbn. f_equal. apply set_column_build_from.
Qed.

Lemma build_lookup_first first next (l : frame) (x : xrow) :
  build first next l !! 0%nat = Some x -> extra x = first (base x).
Proof. destruct l as [|r l]; cbn; [discriminate|]. intros [= <-]. reflexivity. Qed.

Lemma build_from_lookup_next next (prev : row) (l : frame) (i : nat) (y : xrow) :
  build_from next prev l !! i = Some y ->
  exists p, (prev :: l) !! i = Some p /\ extra y = next p (base y).
Proof.
  revert prev i. induction l as [|r l IH]; intros prev i Hy; [destruct i; discriminate|].
  destruct i as [|i].
  - cbn in Hy. injection Hy as <-. exists prev. split; reflexivity.
  - cbn in Hy. destruct (IH r i Hy) as [p [Hp E]]. exists p. split; [exact Hp | exact E].
Qed.

Lemma build_lookup_base first next (l : frame) (i : nat) (x : xrow) :
  build first next l !! i = Some x -> l !! i = Some (base x).
Proof.
  intros H. rewrite <- (build_base first next l) at 1.
  change (map base (build first next l)) with (base <$> build first next l).
  rewrite list_lookup_fmap, H. reflexivity.
Qed.

Lemma build_lookup_next first next (l : frame) (i : nat) (x y : xrow) :
  build first next l !! i = Some x ->
  build first next l !! S i = Some y ->
  extra y = next (base x) (base y).
Proof.
  intros Hx Hy. apply build_lookup_base in Hx.
  destruct l as [|r l]; [discriminate|]. cbn in Hy.
  destruct (build_from_lookup_next next r l i y Hy) as [p [Hp E]].
  rewrite Hx in Hp. injection Hp as <-. exact E.
Qed.

End YearOverYear.

Section YearOverYearTable.
Import Num Frame DataLoader Spec.

Lemma calculate_yoy_change_build (df : frame) (c : string) :
  calculate_yoy_change df c
  = Ok (build changes_first changes_next (sort_values_year (company_rows df c))).
Proof.
  unfold calculate_yoy_change. rewrite build_plain.
  unfold score_columns. cbn [add_changes].
  rewrite build_base, (column_field environmental_score) by (intros; reflexivity).
  cbn [mbind result_bind]. rewrite set_column_build.
  rewrite build_base, (column_field social_score) by (intros; reflexivity).
  cbn [mbind result_bind]. rewrite set_column_build.
  rewrite build_base, (column_field governance_score) by (intros; reflexivity).
  cbn [mbind result_bind]. rewrite set_column_build.
  rewrite build_base, (column_field total_esg_score) by (intros; reflexivity).
  cbn [mbind result_bind]. rewrite set_column_build.
  reflexivity.
Qed.

Lemma score_column_cases (col : string) :
  In col score_columns ->
  col = "environmental_score" \/ col = "social_score" \/
  col = "governance_score" \/ col = "total_esg_score".
Proof. unfold score_columns. cbn [In]. intuition. Qed.

End YearOverYearTable.

(** C5: [calculate_yoy_change] returns the rows of the company sorted by
    ascending year, and adds for each score column a change column that is
    undefined (NaN) in the first row and, in every later row, the score of
    the row minus the score of the row just before it in that order. *)
Theorem calculate_yoy_change_diffs (df : Frame.frame) (c : string) :
  exists out,
    DataLoader.calculate_yoy_change df c = Ok out /\
    Permutation (map DataLoader.base out) (Frame.company_rows df c) /\
    StronglySorted Spec.year_le (map DataLoader.base out) /\
    forall col, In col DataLoader.score_columns ->
      (forall x, out !! 0%nat = Some x ->
         DataLoader.extra x !! (col ++ "_change") = Some None) /\
      (forall i x y, out !! i = Some x -> out !! S i = Some y ->
         exists vx vy,
           Frame.get_metric (DataLoader.base x) col = Some vx /\
           Frame.get_metric (DataLoader.base y) col = Some vy /\
           DataLoader.extra y !! (col ++ "_change") = Some (Num.csub vy vx)).
Proof.
  eexists. split; [apply calculate_yoy_change_build|].
  rewrite build_base.
  split; [apply sort_values_year_perm|].
  split; [apply sort_values_year_sorted|].
  intros col Hcol. split.
  - intros x Hx. rewrite (build_lookup_first _ _ _ _ Hx).
    destruct (score_column_cases col Hcol) as [-> | [-> | [-> | ->]]];
      unfold Spec.changes_first; cbn [String.append]; simplify_map_eq; reflexivity.
  - intros i x y Hx Hy. rewrite (build_lookup_next _ _ _ _ _ _ Hx Hy).
    destruct (score_column_cases col Hcol) as [-> | [-> | [-> | ->]]];
      eexists; eexists; (split; [reflexivity|]); (split; [reflexivity|]);
      unfold Spec.changes_next; cbn [String.append]; simplify_map_eq; reflexivity.
Qed.

(** C5 at a concrete input: the two rows of Acme come out in the order
    2022, 2023, and the second one carries the differences. *)
Lemma calculate_yoy_change_diffs_witness :
  exists out x y,
    DataLoader.calculate_yoy_change Sample.data "Acme" = Ok out /\
    out !! 0%nat = Some x /\ out !! 1%nat = Some y /\
    DataLoader.base x = Sample.acme22 /\ DataLoader.base y = Sample.acme23 /\
    DataLoader.extra x !! "social_score_change" = Some None /\
    DataLoader.extra y !! "social_score_change" = Some (Num.csub (Some 52) (Some 70)).
Proof.
  destruct (calculate_yoy_change_diffs Sample.data "Acme") as (out & Hout & _ & _ & Hcol).
  destruct (Hcol "social_score") as [H0 H1].
  { unfold DataLoader.score_columns. cbn [In]. tauto. }
  rewrite calculate_yoy_change_build in Hout. injection Hout as <-.
  eexists; eexists; eexists.
  split; [reflexivity|]. split; [reflexivity|]. split; [reflexivity|].
  split; [reflexivity|]. split; [reflexivity|].
  split.
  - apply H0. reflexivity.
  - destruct (H1 0%nat _ _ eq_refl eq_refl) as (vx & vy & Ex & Ey & E).
    cbn in Ex, Ey. injection Ex as <-. injection Ey as <-. exact E.
Defined.

(** ** Peer statistics *)

Section PeerStatistics.
Import Num Frame PeerBenchmark Spec.

Variable sqrt : Q -> Q.

Lemma bool_sum_from (bs : list bool) (a : Z) :
  foldl (fun n (b : bool) => if b then (n + 1)%Z else n) a bs
  = (a + Z.of_nat (length (List.filter (fun b => b) bs)))%Z.
Proof.
  revert a. induction bs as [|b bs IH]; intros a; cbn [foldl List.filter]; [cbn; lia|].
  rewrite IH. destruct b; cbn [length]; lia.
Qed.

Lemma filter_map_length {A : Type} (f : A -> bool) (l : list A) :
  length (List.filter (fun b => b) (map f l)) = length (List.filter f l).
Proof.
  induction l as [|x l IH]; [reflexivity|].
  cbn [map List.filter]. destruct (f x); cbn [length]; rewrite IH; reflexivity.
Qed.

(** Summing a boolean mask counts the elements that satisfy it. *)
Lemma bool_sum_count {A : Type} (f : A -> bool) (l : list A) :
  bool_sum (map f l) = Z.of_nat (length (List.filter f l)).
Proof. unfold bool_sum. rewrite bool_sum_from, filter_map_length. lia. Qed.

Lemma Qeq_bool_length_nonzero (n : nat) :
  n <> 0%nat -> Qeq_bool (inject_Z (Z.of_nat n)) 0 = false.
Proof.
  intros Hn. destruct (Qeq_bool _ _) eqn:E; [|reflexivity].
  apply Qeq_bool_iff in E. unfold Qeq in E. cbn in E. lia.
Qed.

Lemma percentile_of_rank (series : list cell) (v : cell) (n : nat) :
  n <> 0%nat ->
  percentile_of series v (of_int (Z.of_nat n)) = Ok (percentile_rank series v n).
Proof.
  intros Hn. unfold percentile_of, cdiv, of_int.
  rewrite (Qeq_bool_length_nonzero n Hn). cbn [mbind result_bind mret result_ret cmul].
  rewrite bool_sum_count. reflexivity.
Qed.

Lemma z_score_guarded (v mean std : cell) :
  (if cgt std (Some 0) then cdiv (csub v mean) std else mret (Some 0))
  = Ok (z_of v mean std).
Proof.
  unfold cgt, clt, z_of. destruct std as [s|]; [|reflexivity].
  destruct (Qltb 0 s) eqn:E; [|reflexivity].
  apply Qltb_true in E. unfold cdiv.
  destruct (Qeq_bool s 0) eqn:E0.
  - apply Qeq_bool_iff in E0. lra.
  - destruct (csub v mean); reflexivity.
Qed.

Lemma peer_metric_ok (crow : row) (sector_data : frame)
    (stats : gmap string metric_stats) (metric display : string) (g : row -> cell) :
  (forall r, get_metric r metric = Some (g r)) ->
  sector_data <> [] ->
  peer_metric sqrt crow sector_data stats (metric, display)
  = Ok (<[metric := peer_entry sqrt display (g crow) (map g sector_data)]> stats).
Proof.
  intros Hg Hne. unfold peer_metric.
  rewrite Hg, (column_field g metric sector_data Hg). cbn [mbind result_bind].
  unfold of_len. rewrite percentile_of_rank by (destruct sector_data; [congruence | discriminate]).
  cbn [mbind result_bind]. rewrite z_score_guarded. cbn [mbind result_bind].
  unfold peer_entry. rewrite length_map. reflexivity.
Qed.

Lemma calculate_peer_statistics_table (data : frame) (c sec : string) (crow : row) :
  company_latest data c = Some crow ->
  sector_rows data sec <> [] ->
  calculate_peer_statistics sqrt data c sec
  = Ok (peer_table sqrt crow (sector_rows data sec)).
Proof.
  intros Hc Hs. unfold calculate_peer_statistics.
  unfold company_latest in Hc. rewrite <- head_filter_find in Hc.
  fold (sector_rows data sec).
  destruct (List.filter (fun r => String.eqb (company r) c && _) data)
    as [|r0 cd] eqn:Ecd; [discriminate|].
  cbn in Hc. injection Hc as ->.
  rewrite (is_empty_false (sector_rows data sec) Hs).
  cbn [EsgAnalyzer.is_empty orb iloc0 mbind result_bind].
  unfold stat_metrics. cbn [foldM].
  rewrite (peer_metric_ok _ _ _ _ _ total_esg_score) by (intros; reflexivity || exact Hs).
  cbn [mbind result_bind].
  rewrite (peer_metric_ok _ _ _ _ _ environmental_score) by (intros; reflexivity || exact Hs).
  cbn [mbind result_bind].
  rewrite (peer_metric_ok _ _ _ _ _ social_score) by (intros; reflexivity || exact Hs).
  cbn [mbind result_bind].
  rewrite (peer_metric_ok _ _ _ _ _ governance_score) by (intros; reflexivity || exact Hs).
  reflexivity.
Qed.

(** Without a row of the company or of the sector in the latest year the
    result is the empty dict. *)
Lemma calculate_peer_statistics_empty (data : frame) (c sec : string) :
  company_latest data c = None \/ sector_rows data sec = [] ->
  calculate_peer_statistics sqrt data c sec = Ok ∅.
Proof.
  intros H. unfold calculate_peer_statistics. fold (sector_rows data sec).
  destruct H as [H | H].
  - unfold company_latest in H. rewrite <- head_filter_find in H.
    destruct (List.filter (fun r => String.eqb (company r) c && _) data); [|discriminate].
    reflexivity.
  - rewrite H. cbn [EsgAnalyzer.is_empty]. rewrite orb_true_r. reflexivity.
Qed.

End PeerStatistics.

(** ** The benchmark matrix *)

Section BenchmarkMatrix.
Import Num Frame PeerBenchmark Spec.

Lemma length_append (s t : string) :
  String.length (s ++ t) = (String.length s + String.length t)%nat.
Proof.
  induction s as [|a s IH]; [reflexivity|].
  change (S (String.length (s ++ t)) = S (String.length s + String.length t)).
  rewrite IH. reflexivity.
Qed.

Lemma append_inj_r (s1 s2 t : string) : s1 ++ t = s2 ++ t -> s1 = s2.
Proof.
  revert s2. induction s1 as [|a s1 IH]; intros [|b s2] H.
  - reflexivity.
  - apply (f_equal String.length) in H. rewrite !length_append in H. cbn in H. lia.
  - apply (f_equal String.length) in H. rewrite !length_append in H. cbn in H. lia.
  - cbn in H. injection H as -> H. f_equal. apply IH, H.
Qed.

(** A name read by [get_metric] is a column of every row, and adding the
    percentile suffix to it never gives a column. *)
Lemma get_metric_column (r : row) (metric : string) (v : cell) :
  get_metric r metric = Some v ->
  (exists g, forall r', get_metric r' metric = Some (g r')) /\
  (forall r', get_metric r' (metric ++ "_percentile") = None).
Proof.
  unfold get_metric at 1.
  repeat match goal with
  | |- context [if String.eqb metric ?c then _ else _] =>
      let E := fresh "E" in
      destruct (String.eqb metric c) eqn:E;
      [apply String.eqb_eq in E; subst metric; intros _;
       split; [eexists; intros r'; reflexivity | intros r'; reflexivity] |]
  end.
  discriminate.
Qed.

Lemma get_metric_same (metric : string) (g g' : row -> cell) :
  (forall r, get_metric r metric = Some (g r)) ->
  (forall r, get_metric r metric = Some (g' r)) ->
  forall r, g r = g' r.
Proof. intros H H' r. specialize (H r). rewrite H' in H. congruence. Qed.

(** One round of the loop over the metrics, for a numeric column. *)
Lemma matrix_metric_column (data : frame) (r : row) (cm : gmap string cell)
    (metric : string) (g : row -> cell) :
  (forall r', get_metric r' metric = Some (g r')) ->
  matrix_metric data (year_max data) r cm metric
  = Ok (let all_values := dropna (map g (latest_rows data)) in
        if (0 <? length all_values)%nat
        then <[metric ++ "_percentile" :=
                 percentile_rank (map Some all_values) (g r) (length all_values)]>
               (<[metric := g r]> cm)
        else <[metric := g r]> cm).
Proof.
  intros Hg. unfold matrix_metric. rewrite Hg.
  fold (latest_rows data). rewrite (column_field g metric _ Hg).
  cbn [mbind result_bind]. rewrite length_map.
  destruct (0 <? length (dropna (map g (latest_rows data))))%nat eqn:E; [|reflexivity].
  apply Nat.ltb_lt in E. unfold of_len. rewrite length_map.
  rewrite percentile_of_rank by lia. reflexivity.
Qed.

Lemma matrix_metric_other (data : frame) (r : row) (cm : gmap string cell)
    (metric : string) :
  get_metric r metric = None ->
  matrix_metric data (year_max data) r cm metric = Ok cm.
Proof. intros H. unfold matrix_metric. rewrite H. reflexivity. Qed.

Lemma matrix_metric_total (data : frame) (r : row) (cm : gmap string cell)
    (metric : string) :
  exists cm', matrix_metric data (year_max data) r cm metric = Ok cm'.
Proof.
  destruct (get_metric r metric) as [v|] eqn:E.
  - destruct (get_metric_column r metric v E) as [[g Hg] _].
    rewrite (matrix_metric_column data r cm metric g Hg). eexists; reflexivity.
  - rewrite (matrix_metric_other data r cm metric E). eexists; reflexivity.
Qed.

(** A round establishes the entry of its own metric. *)
Lemma matrix_metric_sets (data : frame) (r : row) (cm cm' : gmap string cell)
    (metric : string) (g : row -> cell) :
  (forall r', get_metric r' metric = Some (g r')) ->
  matrix_metric data (year_max data) r cm metric = Ok cm' ->
  entry_ok data r metric g cm'.
Proof.
  intros Hg. rewrite (matrix_metric_column data r cm metric g Hg). intros [= <-].
  unfold entry_ok. cbn zeta.
  assert (Hne : metric ++ "_percentile" <> metric).
  { intros E. destruct (get_metric_column r metric _ (Hg r)) as [_ Hn].
    specialize (Hn r). rewrite E, Hg in Hn. discriminate. }
  destruct (dropna (map g (latest_rows data))) as [|q qs] eqn:Eall.
  - cbn [length Nat.ltb Nat.leb]. split; [apply lookup_insert_eq | congruence].
  - cbn [length Nat.ltb Nat.leb]. split.
    + rewrite lookup_insert_ne by exact Hne. apply lookup_insert_eq.
    + intros _. apply lookup_insert_eq.
Qed.

(** A round keeps the entries of the other metrics. *)
Lemma matrix_metric_keeps (data : frame) (r : row) (cm cm' : gmap string cell)
    (metric0 metric : string) (g : row -> cell) :
  (forall r', get_metric r' metric = Some (g r')) ->
  matrix_metric data (year_max data) r cm metric0 = Ok cm' ->
  entry_ok data r metric g cm ->
  entry_ok data r metric g cm'.
Proof.
  intros Hg Hstep Hok.
  destruct (String.string_dec metric0 metric) as [-> | Hne].
  { apply (matrix_metric_sets data r cm cm' metric g Hg Hstep). }
  destruct (get_metric r metric0) as [v0|] eqn:E0.
  2:{ rewrite (matrix_metric_other data r cm metric0 E0) in Hstep.
      injection Hstep as <-. exact Hok. }
  destruct (get_metric_column r metric0 v0 E0) as [[g0 Hg0] Hn0].
  destruct (get_metric_column r metric _ (Hg r)) as [_ Hn].
  rewrite (matrix_metric_column data r cm metric0 g0 Hg0) in Hstep.
  injection Hstep as <-.
  assert (H1 : metric0 ++ "_percentile" <> metric).
  { intros E. specialize (Hn0 r). rewrite E, Hg in Hn0. discriminate. }
  assert (H2 : metric0 <> metric ++ "_percentile").
  { intros E. specialize (Hn r). rewrite <- E, Hg0 in Hn. discriminate. }
  assert (H3 : metric0 ++ "_percentile" <> metric ++ "_percentile").
  { intros E. apply Hne, (append_inj_r _ _ _ E). }
  destruct Hok as [Hv Hp]. unfold entry_ok. cbn zeta.
  destruct (0 <? length (dropna (map g0 (latest_rows data))))%nat.
  - split.
    + rewrite lookup_insert_ne by exact H1. rewrite lookup_insert_ne by exact Hne.
      exact Hv.
    + intros Hall. rewrite lookup_insert_ne by exact H3.
      rewrite lookup_insert_ne by exact H2. apply Hp, Hall.
  - split.
    + rewrite lookup_insert_ne by exact Hne. exact Hv.
    + intros Hall. rewrite lookup_insert_ne by exact H2. apply Hp, Hall.
Qed.

Lemma matrix_fold_ok (data : frame) (r : row) (metrics : list string)
    (cm0 : gmap string cell) :
  exists cm,
    foldM (matrix_metric data (year_max data) r) cm0 metrics = Ok cm /\
    (forall metric g, (forall r', get_metric r' metric = Some (g r')) ->
       entry_ok data r metric g cm0 -> entry_ok data r metric g cm) /\
    (forall metric g, In metric metrics ->
       (forall r', get_metric r' metric = Some (g r')) ->
       entry_ok data r metric g cm).
Proof.
  revert cm0. induction metrics as [|m0 metrics IH]; intros cm0; cbn [foldM].
  - exists cm0. split; [reflexivity|]. split; [tauto | intros ? ? []].
  - destruct (matrix_metric_total data r cm0 m0) as [cm1 Hstep].
    rewrite Hstep. cbn [mbind result_bind].
    destruct (IH cm1) as (cm & Hfold & Hkeep & Hin).
    exists cm. split; [exact Hfold|]. split.
    + intros metric g Hg Hok. apply Hkeep; [exact Hg|].
      apply (matrix_metric_keeps data r cm0 cm1 m0 metric g Hg Hstep Hok).
    + intros metric g [<- | Hm] Hg.
      * apply Hkeep; [exact Hg|].
        apply (matrix_metric_sets data r cm0 cm1 m0 g Hg Hstep).
      * apply Hin; assumption.
Qed.

Lemma matrix_rows_ok (data : frame) (metrics : list string) (rows : frame) :
  exists m,
    forM (fun r =>
            company_metrics ← foldM (matrix_metric data (year_max data) r) ∅ metrics;
            mret {| Company := company r; values := company_metrics |}) rows = Ok m /\
    Forall2 (matrix_row_ok data metrics) rows m.
Proof.
  induction rows as [|r rows IH]; cbn [forM].
  - exists []. split; [reflexivity | constructor].
  - destruct (matrix_fold_ok data r metrics ∅) as (cm & Hfold & _ & Hin).
    destruct IH as (m & Hm & Hall).
    rewrite Hfold. cbn [mbind result_bind mret result_ret]. rewrite Hm.
    cbn [mbind result_bind mret result_ret].
    eexists. split; [reflexivity|]. constructor; [|exact Hall].
    split; [reflexivity | exact Hin].
Qed.

Lemma create_benchmark_matrix_ok (data : frame) (companies : list string)
    (metrics : option (list string)) :
  exists m,
    create_benchmark_matrix data companies metrics = Ok m /\
    Forall2 (matrix_row_ok data
               (match metrics with None => default_metrics | Some ms => ms end))
            (selected_rows data companies) m.
Proof.
  unfold create_benchmark_matrix. fold (selected_rows data companies).
  destruct (selected_rows data companies) as [|r rows] eqn:E.
  - exists []. split; [reflexivity | constructor].
  - cbn [EsgAnalyzer.is_empty]. apply matrix_rows_ok.
Qed.

End BenchmarkMatrix.

Section PeerEntries.
Import Num Frame PeerBenchmark Spec.

Variable sqrt : Q -> Q.

Lemma peer_table_lookup (crow : row) (srows : frame) (metric : string)
    (ms : metric_stats) :
  peer_table sqrt crow srows !! metric = Some ms ->
  exists display v series,
    ms = peer_entry sqrt display v series /\ length series = length srows.
Proof.
  unfold peer_table. rewrite !lookup_insert_Some, lookup_empty.
  intros [[_ <-] | [_ [[_ <-] | [_ [[_ <-] | [_ [[_ <-] | [_ H]]]]]]]];
    [| | | | discriminate];
    eexists; eexists; eexists; (split; [reflexivity | apply length_map]).
Qed.

Lemma peer_table_score (crow : row) (srows : frame) (metric : string)
    (g : row -> cell) :
  In metric DataLoader.score_columns ->
  (forall r, get_metric r metric = Some (g r)) ->
  exists display,
    peer_table sqrt crow srows !! metric
    = Some (peer_entry sqrt display (g crow) (map g srows)).
Proof.
  intros Hin Hg.
  destruct (score_column_cases metric Hin) as [-> | [-> | [-> | ->]]].
  - assert (E : forall r, g r = environmental_score r)
      by (apply (get_metric_same "environmental_score"); [exact Hg | reflexivity]).
    rewrite (map_ext _ _ E), E. eexists. unfold peer_table. simplify_map_eq. reflexivity.
  - assert (E : forall r, g r = social_score r)
      by (apply (get_metric_same "social_score"); [exact Hg | reflexivity]).
    rewrite (map_ext _ _ E), E. eexists. unfold peer_table. simplify_map_eq. reflexivity.
  - assert (E : forall r, g r = governance_score r)
      by (apply (get_metric_same "governance_score"); [exact Hg | reflexivity]).
    rewrite (map_ext _ _ E), E. eexists. unfold peer_table. simplify_map_eq. reflexivity.
  - assert (E : forall r, g r = total_esg_score r)
      by (apply (get_metric_same "total_esg_score"); [exact Hg | reflexivity]).
    rewrite (map_ext _ _ E), E. eexists. unfold peer_table. simplify_map_eq. reflexivity.
Qed.

Lemma dropna_length (xs : list cell) : (length (dropna xs) <= length xs)%nat.
Proof.
  induction xs as [|[x|] xs IH]; cbn [dropna length]; lia.
Qed.

(** With a single row, or none, the standard deviation is undefined. *)
Lemma series_std_short (series : list cell) :
  (length series <= 1)%nat -> series_std sqrt series = None.
Proof.
  intros H. unfold series_std, series_var.
  pose proof (dropna_length series) as Hd.
  destruct (length (dropna series) <=? 1)%nat eqn:E; [reflexivity|].
  apply Nat.leb_gt in E. lia.
Qed.

Lemma z_of_positive (v mean : cell) (s : Q) :
  0 < s -> z_of v mean (Some s) = option_map (fun d => d / s) (csub v mean).
Proof. intros H. unfold z_of. apply Qltb_true in H. rewrite H. reflexivity. Qed.

Lemma z_of_degenerate (v mean std : cell) :
  std = None \/ (exists s, std = Some s /\ s <= 0) -> z_of v mean std = Some 0.
Proof.
  intros [-> | [s [-> H]]]; [reflexivity|].
  unfold z_of. apply Qltb_false in H. rewrite H. reflexivity.
Qed.

(** [calculate_peer_statistics] always returns: either the table of the
    four metrics or the empty dict. *)
Lemma calculate_peer_statistics_cases (data : frame) (c sec : string) :
  (exists crow, company_latest data c = Some crow /\ sector_rows data sec <> [] /\
     calculate_peer_statistics sqrt data c sec
     = Ok (peer_table sqrt crow (sector_rows data sec)))
  \/ ((company_latest data c = None \/ sector_rows data sec = []) /\
      calculate_peer_statistics sqrt data c sec = Ok ∅).
Proof.
  destruct (company_latest data c) as [crow|] eqn:Ec.
  - destruct (sector_rows data sec) as [|r rows] eqn:Es.
    + right. split; [right; reflexivity|].
      apply calculate_peer_statistics_empty. right. exact Es.
    + left. exists crow. split; [reflexivity|]. split; [discriminate|].
      rewrite <- Es. apply calculate_peer_statistics_table; [exact Ec|].
      rewrite Es. discriminate.
  - right. split; [left; reflexivity|].
    apply calculate_peer_statistics_empty. left. exact Ec.
Qed.

End PeerEntries.

(** C3: the percentile rank that [calculate_peer_statistics] computes for a
    metric is the number of latest-year sector values strictly less than
    the company's value, divided by the number of latest-year sector rows,
    times 100 (it is computed when the company and the sector have a row in
    the latest year of the data, and the result is the empty dict
    otherwise); [create_benchmark_matrix] uses the same strict formula for
    its percentile columns, over the non-null latest-year values of all
    companies. *)
Theorem percentile_rank_strictly_less (sqrt : Q -> Q) (data : Frame.frame) :
  (forall c sec crow,
     Spec.company_latest data c = Some crow ->
     Spec.sector_rows data sec <> [] ->
     exists stats,
       PeerBenchmark.calculate_peer_statistics sqrt data c sec = Ok stats /\
       forall metric g,
         In metric DataLoader.score_columns ->
         (forall r, Frame.get_metric r metric = Some (g r)) ->
         exists ms,
           stats !! metric = Some ms /\
           PeerBenchmark.company_value ms = g crow /\
           PeerBenchmark.percentile ms
           = Some (inject_Z (Z.of_nat (length
                     (List.filter (fun x => Num.clt x (g crow))
                                  (map g (Spec.sector_rows data sec)))))
                   / inject_Z (Z.of_nat (length (Spec.sector_rows data sec)))
                   * 100)) /\
  (forall c sec,
     Spec.company_latest data c = None \/ Spec.sector_rows data sec = [] ->
     PeerBenchmark.calculate_peer_statistics sqrt data c sec = Ok ∅) /\
  (forall companies metrics,
     exists m,
       PeerBenchmark.create_benchmark_matrix data companies metrics = Ok m /\
       Forall2 (Spec.matrix_row_ok data
                  (match metrics with
                   | None => PeerBenchmark.default_metrics
                   | Some ms => ms
                   end))
               (Spec.selected_rows data companies) m).
Proof.
  split; [|split].
  - intros c sec crow Hc Hs.
    exists (Spec.peer_table sqrt crow (Spec.sector_rows data sec)).
    split; [apply calculate_peer_statistics_table; assumption|].
    intros metric g Hin Hg.
    destruct (peer_table_score sqrt crow (Spec.sector_rows data sec) metric g Hin Hg)
      as [display Hl].
    eexists. split; [exact Hl|]. split; [reflexivity|].
    cbn [PeerBenchmark.percentile Spec.peer_entry]. unfold Spec.percentile_rank.
    rewrite length_map. reflexivity.
  - intros c sec H. apply calculate_peer_statistics_empty, H.
  - intros companies metrics. apply create_benchmark_matrix_ok.
Qed.

(** C3 at a concrete input: of the two Energy social scores of 2023, one
    (48) is strictly below Acme's 52. *)
Lemma percentile_rank_strictly_less_witness :
  exists stats ms,
    PeerBenchmark.calculate_peer_statistics Sample.sqrt_approx Sample.data
      "Acme" "Energy" = Ok stats /\
    stats !! "social_score" = Some ms /\
    PeerBenchmark.percentile ms = Some (inject_Z 1 / inject_Z 2 * 100).
Proof.
  destruct (percentile_rank_strictly_less Sample.sqrt_approx Sample.data) as [H _].
  destruct (H "Acme" "Energy" Sample.acme23) as (stats & Hs & Hm).
  - reflexivity.
  - discriminate.
  - destruct (Hm "social_score" Frame.social_score) as (ms & Hl & _ & Hp).
    + unfold DataLoader.score_columns. cbn [In]. tauto.
    + reflexivity.
    + exists stats, ms. split; [exact Hs|]. split; [exact Hl|]. exact Hp.
Defined.

(** ** Mean and deviation of the sector *)

Section SectorStatistics.
Import Num Frame PeerBenchmark Spec.

Lemma qsum_from (ys : list Q) (a : Q) : foldl Qplus a ys == a + sum_of ys.
Proof.
  revert a. induction ys as [|y ys IH]; intros a; cbn [foldl sum_of]; [ring|].
  rewrite IH. ring.
Qed.

Lemma qsum_sum_of (ys : list Q) : qsum ys == sum_of ys.
Proof. unfold qsum. rewrite qsum_from. ring. Qed.

Lemma sum_of_map_ext (f g : Q -> Q) (ys : list Q) :
  (forall y, f y == g y) -> sum_of (map f ys) == sum_of (map g ys).
Proof.
  intros E. induction ys as [|y ys IH]; cbn [map sum_of]; [reflexivity|].
  rewrite IH, (E y). reflexivity.
Qed.

(** [series.mean()] is the mean of the values that are not missing. *)
Lemma series_mean_spec (xs : list cell) :
  dropna xs <> [] ->
  exists m, series_mean xs = Some m /\ m == mean (dropna xs).
Proof.
  intros Hne. unfold series_mean, mean.
  destruct (dropna xs) as [|y ys] eqn:E; [congruence|].
  eexists. split; [reflexivity|]. rewrite qsum_sum_of. reflexivity.
Qed.

(** The variance is missing exactly when fewer than two values are left. *)
Lemma series_var_none (xs : list cell) :
  series_var xs = None <-> (length (dropna xs) <= 1)%nat.
Proof.
  unfold series_var. cbn zeta.
  destruct (length (dropna xs) <=? 1)%nat eqn:E.
  - apply Nat.leb_le in E. split; [intros _; exact E | reflexivity].
  - apply Nat.leb_gt in E. split; [discriminate | lia].
Qed.

(** With two values or more it is their sample variance. *)
Lemma series_var_spec (xs : list cell) :
  (2 <= length (dropna xs))%nat ->
  exists v, series_var xs = Some v /\ v == sample_variance (dropna xs).
Proof.
  intros Hn. unfold series_var. cbn zeta.
  destruct (length (dropna xs) <=? 1)%nat eqn:E; [apply Nat.leb_le in E; lia|].
  eexists. split; [reflexivity|].
  unfold sample_variance, mean.
  rewrite qsum_sum_of.
  rewrite (sum_of_map_ext
             (fun y => (y - qsum (dropna xs) / inject_Z (Z.of_nat (length (dropna xs))))
                       * (y - qsum (dropna xs) / inject_Z (Z.of_nat (length (dropna xs)))))
             (fun y => (y - sum_of (dropna xs) / inject_Z (Z.of_nat (length (dropna xs))))
                       * (y - sum_of (dropna xs) / inject_Z (Z.of_nat (length (dropna xs))))))
    by (intros y; rewrite qsum_sum_of; reflexivity).
  replace (Z.of_nat (length (dropna xs)) - 1)%Z
    with (Z.of_nat (length (dropna xs) - 1)) by lia.
  reflexivity.
Qed.

End SectorStatistics.

(** C7: the z-score computed by [calculate_peer_statistics] is always
    well defined: the call never raises, so no division by zero occurs.
    In every entry the z-score is (company value - sector mean) / sector
    standard deviation when that deviation is strictly positive, where the
    divisor is then not zero, and it is 0 when the deviation is undefined
    or not positive.  The entry of a score metric is computed from the
    latest-year rows: it holds the company's value; its deviation is
    undefined exactly when the sector has fewer than two values that are
    not missing, as with a single sector row, where the mean is that one
    value; and when the sample variance of the sector's values is positive,
    the mean is their mean, the deviation the square root of that variance
    and the z-score the quotient of the two.  For two or more values that
    are all equal the variance is zero in exact arithmetic, while rounding
    may leave a small positive deviation: there the statement relates the
    fields of the entry to each other and not to the data. *)
Theorem z_score_well_defined (sqrt : Q -> Q) (data : Frame.frame) (c sec : string) :
  exists stats,
    PeerBenchmark.calculate_peer_statistics sqrt data c sec = Ok stats /\
    (forall crow, Spec.company_latest data c = Some crow ->
       Spec.sector_rows data sec <> [] ->
       forall metric, In metric DataLoader.score_columns -> is_Some (stats !! metric)) /\
    (forall crow, Spec.company_latest data c = Some crow ->
       Spec.sector_rows data sec <> [] ->
       forall metric g,
         In metric DataLoader.score_columns ->
         (forall r, Frame.get_metric r metric = Some (g r)) ->
         let ys := Num.dropna (map g (Spec.sector_rows data sec)) in
         exists ms,
           stats !! metric = Some ms /\
           PeerBenchmark.company_value ms = g crow /\
           (PeerBenchmark.sector_std ms = None <-> (length ys <= 1)%nat) /\
           (forall y, ys = [y] ->
              exists m, PeerBenchmark.sector_mean ms = Some m /\ m == y) /\
           ((2 <= length ys)%nat -> 0 < Spec.sample_variance ys ->
            exists m v,
              m == Spec.mean ys /\ v == Spec.sample_variance ys /\
              PeerBenchmark.sector_mean ms = Some m /\
              PeerBenchmark.sector_std ms = Some (sqrt v) /\
              forall x, g crow = Some x -> 0 < sqrt v ->
                PeerBenchmark.z_score ms = Some ((x - m) / sqrt v))) /\
    forall metric ms, stats !! metric = Some ms ->
      (forall s, PeerBenchmark.sector_std ms = Some s -> 0 < s ->
         ~ s == 0 /\
         PeerBenchmark.z_score ms
         = option_map (fun d => d / s)
             (Num.csub (PeerBenchmark.company_value ms) (PeerBenchmark.sector_mean ms))) /\
      (PeerBenchmark.sector_std ms = None \/
       (exists s, PeerBenchmark.sector_std ms = Some s /\ s <= 0) ->
       PeerBenchmark.z_score ms = Some 0) /\
      (length (Spec.sector_rows data sec) = 1%nat ->
       PeerBenchmark.sector_std ms = None /\ PeerBenchmark.z_score ms = Some 0).
Proof.
  destruct (calculate_peer_statistics_cases sqrt data c sec)
    as [(crow & Hc & Hs & Hrun) | [Hnone Hrun]].
  - exists (Spec.peer_table sqrt crow (Spec.sector_rows data sec)).
    split; [exact Hrun|]. split; [|split].
    + intros crow' _ _ metric Hin.
      destruct (score_column_cases metric Hin) as [-> | [-> | [-> | ->]]];
        unfold Spec.peer_table; simplify_map_eq; eexists; reflexivity.
    + intros crow' Hc' _ metric g Hin Hg. cbn zeta.
      assert (crow' = crow) as -> by congruence.
      destruct (peer_table_score sqrt crow (Spec.sector_rows data sec) metric g Hin Hg)
        as [display Hl].
      eexists. split; [exact Hl|].
      cbn [PeerBenchmark.sector_std PeerBenchmark.z_score PeerBenchmark.company_value
           PeerBenchmark.sector_mean Spec.peer_entry].
      split; [reflexivity|]. split; [|split].
      * unfold PeerBenchmark.series_std. rewrite <- series_var_none.
        destruct (Num.series_var (map g (Spec.sector_rows data sec)));
          cbn [option_map]; split; congruence.
      * intros y Hy.
        destruct (series_mean_spec (map g (Spec.sector_rows data sec)))
          as (m & Hm & Em); [rewrite Hy; discriminate|].
        exists m. split; [exact Hm|]. rewrite Em, Hy.
        unfold Spec.mean. cbn [Spec.sum_of length]. field.
      * intros Hn _.
        destruct (series_var_spec (map g (Spec.sector_rows data sec)) Hn) as (v & Hv & Ev).
        destruct (series_mean_spec (map g (Spec.sector_rows data sec)))
          as (m & Hm & Em).
        { intros E. rewrite E in Hn. cbn in Hn. lia. }
        exists m, v. split; [exact Em|]. split; [exact Ev|]. split; [exact Hm|].
        unfold PeerBenchmark.series_std. rewrite Hv. cbn [option_map].
        split; [reflexivity|].
        intros x Hx Hpos. rewrite Hm, Hx, (z_of_positive _ _ _ Hpos). reflexivity.
    + intros metric ms Hl.
      destruct (peer_table_lookup sqrt crow _ metric ms Hl)
        as (display & v & series & -> & Hlen).
      cbn [PeerBenchmark.sector_std PeerBenchmark.z_score PeerBenchmark.company_value
           PeerBenchmark.sector_mean Spec.peer_entry].
      split; [|split].
      * intros s Hstd Hpos. split; [lra|]. rewrite Hstd. apply z_of_positive, Hpos.
      * apply z_of_degenerate.
      * intros H1.
        assert (Hstd : PeerBenchmark.series_std sqrt series = None)
          by (apply series_std_short; lia).
        split; [exact Hstd|]. rewrite Hstd. reflexivity.
  - exists ∅. split; [exact Hrun|]. split; [|split].
    + intros crow Hc Hs. destruct Hnone as [Hn | Hn]; [congruence | contradiction].
    + intros crow Hc Hs. destruct Hnone as [Hn | Hn]; [congruence | contradiction].
    + intros metric ms Hl. rewrite lookup_empty in Hl. discriminate.
Qed.

(** C7 at a concrete input: the Energy sector has two social scores in
    2023, 52 (Acme) and 48, so their mean is 50, their sample variance 8,
    the standard deviation the root of 8 (2.83 with the root of the
    examples), and the z-score of Acme is 2 / 2.83. *)
Lemma z_score_well_defined_witness :
  exists stats ms m s z,
    PeerBenchmark.calculate_peer_statistics Sample.sqrt_approx Sample.data
      "Acme" "Energy" = Ok stats /\
    stats !! "social_score" = Some ms /\
    PeerBenchmark.company_value ms = Some 52 /\
    PeerBenchmark.sector_mean ms = Some m /\ m == 50 /\
    (exists v, v == 8 /\ PeerBenchmark.sector_std ms = Some (Sample.sqrt_approx v)) /\
    PeerBenchmark.sector_std ms = Some s /\ s == 283 # 100 /\
    PeerBenchmark.z_score ms = Some z /\ z == 200 # 283.
Proof.
  destruct (z_score_well_defined Sample.sqrt_approx Sample.data "Acme" "Energy")
    as (stats & Hrun & _ & Htie & _).
  destruct (Htie Sample.acme23 eq_refl ltac:(discriminate) "social_score"
              Frame.social_score)
    as (ms & Hl & Hv & _ & _ & Hdata).
  - unfold DataLoader.score_columns. cbn [In]. tauto.
  - reflexivity.
  - destruct Hdata as (m & v & Em & Ev & Hm & Hs & Hz);
      [vm_compute; lia | vm_compute; reflexivity|].
    assert (Es : exists s, PeerBenchmark.sector_std ms = Some s /\ s == 283 # 100).
    { pose proof (calculate_peer_statistics_table Sample.sqrt_approx Sample.data
                    "Acme" "Energy" Sample.acme23 eq_refl ltac:(discriminate)) as Htab.
      rewrite Hrun in Htab. injection Htab as Htab. rewrite Htab in Hl.
      unfold Spec.peer_table in Hl.
      rewrite lookup_insert_ne, lookup_insert_eq in Hl by discriminate.
      injection Hl as Hms. rewrite <- Hms.
      cbn [PeerBenchmark.sector_std Spec.peer_entry].
      eexists. split; [vm_compute; reflexivity|]. reflexivity. }
    destruct Es as (s & Hs' & Es).
    assert (Ess : Sample.sqrt_approx v = s) by congruence.
    assert (Hpos : 0 < Sample.sqrt_approx v) by (rewrite Ess, Es; reflexivity).
    exists stats, ms, m, s. eexists.
    split; [exact Hrun|]. split; [exact Hl|]. split; [exact Hv|].
    split; [exact Hm|]. split; [rewrite Em; vm_compute; reflexivity|].
    split; [exists v; split; [rewrite Ev; vm_compute; reflexivity | exact Hs]|].
    split; [exact Hs'|]. split; [exact Es|].
    split; [apply (Hz 52 eq_refl Hpos)|].
    rewrite Ess, Em, Es. vm_compute. reflexivity.
Defined.

(** ** The embedding on concrete inputs *)

Example round1_ties_to_even :
  Num.round1 (25 # 100) == 2 # 10 /\ Num.round1 (35 # 100) == 4 # 10 /\
  Num.round1 (9995 # 100) == 100.
Proof. repeat split. Qed.

Example py_min_keeps_the_first_of_equals : Num.py_min 100 (200 # 2) = 100.
Proof. reflexivity. Qed.

Example ratings_at_80_and_65 :
  DataLoader.get_esg_rating 80 = ("AAA", "#006400") /\
  EsgSimulator._score_to_rating 80 = "AAA" /\
  DataLoader.get_esg_rating 65 = ("A", "#32CD32") /\
  EsgSimulator._score_to_rating 65 = "BBB".
Proof. repeat split. Qed.

Example trajectory_of_60_at_10_percent :
  match EsgSimulator.predict_future_trajectory
          (<["environmental" := 60]> ∅) (<["environmental" := 10]> ∅) 2 with
  | Ok rows =>
      Forall2 (fun row v => option_map Qred (row !! "environmental") = Some v)
              rows [60; 62; 639 # 10]
  | Raise _ => False
  end.
Proof.
  unfold EsgSimulator.predict_future_trajectory.
  destruct (collect_years_ok (<["environmental" := 60]> ∅) (<["environmental" := 10]> ∅)
              (EsgSimulator.py_range (2 + 1))) as [traj [-> Hall]].
  assert (Henv : "environmental" ∈ EsgSimulator.pillars) by apply list_elem_of_here.
  change (EsgSimulator.py_range (2 + 1)) with [0; 1; 2]%Z in Hall.
  inversion Hall as [|y0 r0 ys0 t0 [_ H0] Hall0]; subst.
  inversion Hall0 as [|y1 r1 ys1 t1 [_ H1] Hall1]; subst.
  inversion Hall1 as [|y2 r2 ys2 t2 [_ H2] Hall2]; subst.
  inversion Hall2; subst.
  repeat constructor.
  - rewrite (H0 _ Henv). vm_compute. reflexivity.
  - rewrite (H1 _ Henv). vm_compute. reflexivity.
  - rewrite (H2 _ Henv). vm_compute. reflexivity.
Qed.

Example negative_years_give_no_rows :
  EsgSimulator.predict_future_trajectory ∅ ∅ (-3) = Ok [].
Proof. reflexivity. Qed.

Example risks_of_acme :
  match EsgAnalyzer.identify_risks Sample.data "Acme" with
  | Ok risks =>
      map (fun k => (EsgAnalyzer.category k, EsgAnalyzer.severity k)) risks
      = [("Environmental", "High"); ("Environmental", "Medium"); ("Social", "High");
         ("Governance", "Medium"); ("Reputation", "High")]
  | Raise _ => False
  end.
Proof. reflexivity. Qed.

Example years_of_acme_in_order :
  match DataLoader.calculate_yoy_change Sample.data "Acme" with
  | Ok rows => map (fun x => Frame.year (DataLoader.base x)) rows = [2022; 2023]%Z
  | Raise _ => False
  end.
Proof. reflexivity. Qed.

Example matrix_of_hooli :
  match PeerBenchmark.create_benchmark_matrix Sample.data ["Hooli"]
          (Some ["social_score"; "energy_intensity"; "no_such_column"]) with
  | Ok [mr] =>
      PeerBenchmark.Company mr = "Hooli" /\
      option_map (option_map Qred) (PeerBenchmark.values mr !! "social_score_percentile")
      = Some (Some (200 # 3)) /\
      PeerBenchmark.values mr !! "energy_intensity" = Some None /\
      PeerBenchmark.values mr !! "energy_intensity_percentile" = None /\
      PeerBenchmark.values mr !! "no_such_column" = None
  | _ => False
  end.
Proof. vm_compute. repeat split. Qed.

(** * Further properties of the code *)

(** Membership of a concrete pillar name in the list of pillars. *)
Ltac pillar_in :=
  unfold EsgSimulator.pillars;
  repeat first [apply list_elem_of_here | apply list_elem_of_further].

(** ** Totals and deltas of a simulation *)

Section SimulationTotals.
Import Num EsgSimulator Spec.

Lemma simulate_improvements_totals (cs imp : gmap string Q) :
  exists r,
    simulate_improvements cs imp = Ok r /\
    projected r !! "total"
    = Some (projection_of cs imp "environmental" * (33 # 100)
            + projection_of cs imp "social" * (33 # 100)
            + projection_of cs imp "governance" * (34 # 100)) /\
    current r !! "total"
    = Some (dict_get_default cs "environmental" 0 * (33 # 100)
            + dict_get_default cs "social" 0 * (33 # 100)
            + dict_get_default cs "governance" 0 * (34 # 100)) /\
    (exists pt ct, projected r !! "total" = Some pt /\ current r !! "total" = Some ct /\
                   delta r !! "total" = Some (pt - ct)) /\
    (forall k, k <> "total" -> current r !! k = cs !! k) /\
    improvement_pct r = imp /\
    (forall pillar, pillar ∈ pillars ->
       projected r !! pillar = Some (projection_of cs imp pillar) /\
       delta r !! pillar
       = Some (projection_of cs imp pillar - dict_get_default cs pillar 0)).
Proof.
  unfold simulate_improvements. cbn [foldl pillars simulate_pillar projected delta current].
  rewrite calculate_total_score_ok. cbn [mbind result_bind].
  unfold dict_get. simplify_map_eq.
  rewrite calculate_total_score_ok. cbn [mbind result_bind mret result_ret].
  simplify_map_eq. cbn [mbind result_bind mret result_ret].
  eexists; split; [reflexivity|]. cbn [projected delta current improvement_pct].
  split; [simplify_map_eq; reflexivity|].
  split; [simplify_map_eq; reflexivity|].
  split.
  { eexists; eexists. simplify_map_eq. repeat split; reflexivity. }
  split; [intros k Hk; rewrite lookup_insert_ne by congruence; reflexivity|].
  split; [reflexivity|].
  intros pillar Hp.
  destruct (pillar_cases pillar Hp) as [-> | [-> | ->]];
    unfold projection_of; simplify_map_eq; split; reflexivity.
Qed.

Lemma projection_le_100 (cs imp : gmap string Q) (pillar : string) :
  projection_of cs imp pillar <= 100.
Proof. unfold projection_of. apply py_min_le_l. Qed.

Lemma projection_ge_current (cs imp : gmap string Q) (pillar : string) :
  0 <= dict_get_default cs pillar 0 <= 100 ->
  0 <= dict_get_default imp pillar 0 ->
  dict_get_default cs pillar 0 <= projection_of cs imp pillar.
Proof.
  intros Hc Hi. unfold projection_of. cbn zeta.
  set (cur := dict_get_default cs pillar 0) in *.
  set (pct := dict_get_default imp pillar 0) in *.
  apply py_min_glb; [lra|].
  assert (Hp : 0 <= cur * pct) by (apply Qmult_le_0_compat; lra).
  assert (Hq : 0 <= cur * pct / 100) by (apply Qle_shift_div_l; lra).
  lra.
Qed.

End SimulationTotals.

(** X1: [calculate_total_score] always returns (the lookups of the
    weights never raise), and it is monotone: raising pillar scores never
    lowers the total. *)
Theorem total_score_monotone (e s g e' s' g' : Q) :
  e <= e' -> s <= s' -> g <= g' ->
  exists t t',
    EsgSimulator.calculate_total_score e s g = Ok t /\
    EsgSimulator.calculate_total_score e' s' g' = Ok t' /\
    t <= t'.
Proof.
  intros He Hs Hg. rewrite !calculate_total_score_ok.
  eexists; eexists; split; [reflexivity|]. split; [reflexivity|]. lra.
Qed.

Lemma total_score_monotone_witness :
  exists t t',
    EsgSimulator.calculate_total_score 40 90 65 = Ok t /\
    EsgSimulator.calculate_total_score 50 90 70 = Ok t' /\
    t <= t'.
Proof.
  apply (total_score_monotone 40 90 65 50 90 70); vm_compute; discriminate.
Defined.

(** X2: whatever the inputs, [simulate_improvements] returns; the projected
    total is the weighted sum of the projected pillars and never exceeds
    100; the total delta is the projected total minus the current total;
    the caller's scores and improvement percentages are handed back. *)
Theorem simulate_improvements_total_capped (cs imp : gmap string Q) :
  exists r pe ps pg pt ct,
    EsgSimulator.simulate_improvements cs imp = Ok r /\
    EsgSimulator.projected r !! "environmental" = Some pe /\
    EsgSimulator.projected r !! "social" = Some ps /\
    EsgSimulator.projected r !! "governance" = Some pg /\
    EsgSimulator.projected r !! "total" = Some pt /\
    EsgSimulator.calculate_total_score pe ps pg = Ok pt /\
    pt <= 100 /\
    EsgSimulator.current r !! "total" = Some ct /\
    EsgSimulator.delta r !! "total" = Some (pt - ct) /\
    (forall k, k <> "total" -> EsgSimulator.current r !! k = cs !! k) /\
    EsgSimulator.improvement_pct r = imp.
Proof.
  destruct (simulate_improvements_totals cs imp)
    as (r & Hr & Hpt & Hct & (pt & ct & Hpt' & Hct' & Hd) & Hcur & Himp & Hp).
  exists r, (Spec.projection_of cs imp "environmental"),
    (Spec.projection_of cs imp "social"), (Spec.projection_of cs imp "governance"), pt, ct.
  split; [exact Hr|].
  split; [apply Hp; pillar_in|].
  split; [apply Hp; pillar_in|].
  split; [apply Hp; pillar_in|].
  split; [exact Hpt'|].
  rewrite Hpt in Hpt'. injection Hpt' as <-.
  split; [apply calculate_total_score_ok|].
  split.
  { pose proof (projection_le_100 cs imp "environmental").
    pose proof (projection_le_100 cs imp "social").
    pose proof (projection_le_100 cs imp "governance"). lra. }
  split; [exact Hct'|]. split; [exact Hd|]. split; [exact Hcur | exact Himp].
Qed.

(** X3: with current scores in [0, 100] and nonnegative improvement
    percentages no delta of the simulation is negative, neither for a
    pillar nor for the total. *)
Theorem simulate_improvements_deltas_nonneg (cs imp : gmap string Q) :
  (forall p, p ∈ EsgSimulator.pillars -> 0 <= dict_get_default cs p 0 <= 100) ->
  (forall p, p ∈ EsgSimulator.pillars -> 0 <= dict_get_default imp p 0) ->
  exists r,
    EsgSimulator.simulate_improvements cs imp = Ok r /\
    (forall p, p ∈ EsgSimulator.pillars ->
       exists d, EsgSimulator.delta r !! p = Some d /\ 0 <= d) /\
    exists dt, EsgSimulator.delta r !! "total" = Some dt /\ 0 <= dt.
Proof.
  intros Hc Hi.
  destruct (simulate_improvements_totals cs imp)
    as (r & Hr & Hpt & Hct & (pt & ct & Hpt' & Hct' & Hd) & _ & _ & Hp).
  exists r. split; [exact Hr|].
  assert (Hge : forall p, p ∈ EsgSimulator.pillars ->
            dict_get_default cs p 0 <= Spec.projection_of cs imp p).
  { intros p Hin. apply projection_ge_current; [apply Hc | apply Hi]; exact Hin. }
  split.
  - intros p Hin. destruct (Hp p Hin) as [_ Hdp].
    eexists; split; [exact Hdp|]. specialize (Hge p Hin). lra.
  - exists (pt - ct). split; [exact Hd|].
    rewrite Hpt in Hpt'. injection Hpt' as <-. rewrite Hct in Hct'. injection Hct' as <-.
    pose proof (Hge "environmental" ltac:(pillar_in)).
    pose proof (Hge "social" ltac:(pillar_in)).
    pose proof (Hge "governance" ltac:(pillar_in)).
    lra.
Qed.

Lemma simulate_improvements_deltas_nonneg_witness :
  exists r dt,
    EsgSimulator.simulate_improvements
      (<["environmental" := 80]> (<["social" := 50]> ∅))
      (<["environmental" := 50]> ∅) = Ok r /\
    EsgSimulator.delta r !! "total" = Some dt /\ 0 <= dt.
Proof.
  destruct (simulate_improvements_deltas_nonneg
              (<["environmental" := 80]> (<["social" := 50]> ∅))
              (<["environmental" := 50]> ∅)) as (r & Hr & _ & dt & Hd & Hpos).
  - intros p Hp.
    destruct (pillar_cases p Hp) as [-> | [-> | ->]]; split; vm_compute; discriminate.
  - intros p Hp.
    destruct (pillar_cases p Hp) as [-> | [-> | ->]]; vm_compute; discriminate.
  - exists r, dt. split; [exact Hr|]. split; [exact Hd | exact Hpos].
Defined.

(** X4: a pillar whose improvement percentage is zero or missing keeps its
    score when the score is at most 100, and is lowered to 100 when the
    score is above 100: the cap also applies to scores that are not
    improved. *)
Theorem simulate_improvements_zero_improvement (cs imp : gmap string Q) (p : string) :
  p ∈ EsgSimulator.pillars ->
  dict_get_default imp p 0 == 0 ->
  exists r proj d,
    EsgSimulator.simulate_improvements cs imp = Ok r /\
    EsgSimulator.projected r !! p = Some proj /\
    EsgSimulator.delta r !! p = Some d /\
    (dict_get_default cs p 0 <= 100 -> proj == dict_get_default cs p 0 /\ d == 0) /\
    (100 < dict_get_default cs p 0 -> proj == 100 /\ d < 0).
Proof.
  intros Hin Hz.
  destruct (simulate_improvements_ok cs imp) as (r & Hr & Hp).
  destruct (Hp p Hin) as [Hproj Hd].
  exists r. eexists; eexists. split; [exact Hr|]. split; [exact Hproj|].
  split; [exact Hd|].
  unfold Spec.projection_of. cbn zeta.
  set (cur := dict_get_default cs p 0) in *.
  set (pct := dict_get_default imp p 0) in *.
  assert (Hx : cur + cur * pct / 100 == cur).
  { rewrite Hz. unfold Qdiv. ring. }
  unfold Num.py_min.
  destruct (Num.Qltb (cur + cur * pct / 100) 100) eqn:E; reflect_cmp; split; intros H;
    split; lra.
Qed.

Lemma simulate_improvements_zero_improvement_witness :
  exists r proj,
    EsgSimulator.simulate_improvements (<["social" := 120]> ∅) ∅ = Ok r /\
    EsgSimulator.projected r !! "social" = Some proj /\ proj == 100.
Proof.
  destruct (simulate_improvements_zero_improvement (<["social" := 120]> ∅) ∅ "social")
    as (r & proj & d & Hr & Hp & _ & _ & Hhigh).
  - pillar_in.
  - reflexivity.
  - exists r, proj. split; [exact Hr|]. split; [exact Hp|].
    apply Hhigh. vm_compute. reflexivity.
Defined.

(** ** Matching the sector average *)

Section BenchmarkSimulation.
Import Num EsgSimulator Spec.

Lemma py_div_positive (a b : Q) : 0 < b -> py_div a b = Ok (a / b).
Proof.
  intros Hb. unfold py_div. destruct (Qeq_bool b 0) eqn:E; [|reflexivity].
  apply Qeq_bool_iff in E. lra.
Qed.

Lemma benchmark_pillar_ok (cs avg improvements : gmap string Q) (pillar : string) :
  benchmark_pillar cs avg improvements pillar
  = Ok (<[pillar := needed_improvement cs avg pillar]> improvements).
Proof.
  unfold benchmark_pillar, needed_improvement. cbn zeta.
  destruct (Qltb (dict_get_default cs pillar 0) (dict_get_default avg pillar 0));
    [|reflexivity].
  destruct (Qltb 0 (dict_get_default cs pillar 0)) eqn:E; [|reflexivity].
  apply Qltb_true in E. rewrite (py_div_positive _ _ E). reflexivity.
Qed.

(** The improvements that [benchmark_simulation] hands to the simulation. *)
Lemma benchmark_simulation_unfold (cs avg : gmap string Q) :
  exists improvements,
    benchmark_simulation cs avg = simulate_improvements cs improvements /\
    forall pillar, pillar ∈ pillars ->
      dict_get_default improvements pillar 0 = needed_improvement cs avg pillar.
Proof.
  unfold benchmark_simulation, pillars. cbn [foldM].
  repeat (rewrite benchmark_pillar_ok; cbn [mbind result_bind mret result_ret]).
  eexists. split; [reflexivity|].
  intros pillar Hp.
  destruct (pillar_cases pillar Hp) as [-> | [-> | ->]];
    unfold dict_get_default; simplify_map_eq; reflexivity.
Qed.

(** The improvements that [benchmark_simulation] hands to the simulation,
    as they are stored. *)
Lemma benchmark_simulation_plan (cs avg : gmap string Q) :
  exists improvements,
    benchmark_simulation cs avg = simulate_improvements cs improvements /\
    (forall pillar, pillar ∈ pillars ->
       improvements !! pillar = Some (needed_improvement cs avg pillar)) /\
    forall pillar, pillar ∈ pillars ->
      dict_get_default improvements pillar 0 = needed_improvement cs avg pillar.
Proof.
  unfold benchmark_simulation, pillars. cbn [foldM].
  repeat (rewrite benchmark_pillar_ok; cbn [mbind result_bind mret result_ret]).
  eexists. split; [reflexivity|]. split.
  - intros pillar Hp.
    destruct (pillar_cases pillar Hp) as [-> | [-> | ->]]; simplify_map_eq; reflexivity.
  - intros pillar Hp.
    destruct (pillar_cases pillar Hp) as [-> | [-> | ->]];
      unfold dict_get_default; simplify_map_eq; reflexivity.
Qed.

End BenchmarkSimulation.

(** X5: [benchmark_simulation] never raises (its divisions are guarded).
    For a pillar with a positive score below the sector average the
    improvement handed to the simulation is (average - score) / score * 100,
    which is positive, and the projection does not fall below a score of at
    most 100; a pillar at or above the average, or with a score that is not
    positive, gets improvement 0 and keeps its score when that is at most
    100.  No projection exceeds 100. *)
Theorem benchmark_simulation_improvements (cs avg : gmap string Q) :
  exists r,
    EsgSimulator.benchmark_simulation cs avg = Ok r /\
    forall p, p ∈ EsgSimulator.pillars ->
      let cur := dict_get_default cs p 0 in
      let target := dict_get_default avg p 0 in
      exists pct proj,
        EsgSimulator.improvement_pct r !! p = Some pct /\
        EsgSimulator.projected r !! p = Some proj /\
        proj <= 100 /\
        (0 < cur -> cur < target ->
           pct = (target - cur) / cur * 100 /\ 0 < pct /\ (cur <= 100 -> cur <= proj)) /\
        (target <= cur \/ cur <= 0 -> pct = 0 /\ (cur <= 100 -> proj == cur)).
Proof.
  destruct (benchmark_simulation_plan cs avg) as (imps & -> & Hlook & Himp).
  destruct (simulate_improvements_totals cs imps)
    as (r & Hr & _ & _ & _ & _ & Himpr & Hp).
  exists r. split; [exact Hr|].
  intros p Hin cur target. destruct (Hp p Hin) as [Hproj _].
  exists (Spec.needed_improvement cs avg p), (Spec.projection_of cs imps p).
  split; [rewrite Himpr; apply Hlook, Hin|].
  split; [exact Hproj|].
  split; [apply projection_le_100|].
  unfold Spec.needed_improvement. cbn zeta. fold cur. fold target.
  split.
  - intros Hpos Hlt.
    apply Qltb_true in Hlt as Hlt', Hpos as Hpos'. rewrite Hlt', Hpos'.
    assert (Hq : 0 < (target - cur) / cur) by (apply Qlt_shift_div_l; lra).
    split; [reflexivity|]. split; [lra|].
    intros Hle. apply projection_ge_current; [fold cur; lra|].
    rewrite (Himp p Hin). unfold Spec.needed_improvement. cbn zeta.
    fold cur. fold target. rewrite Hlt', Hpos'. lra.
  - intros Hcase.
    assert (E : (if Num.Qltb cur target
                 then if Num.Qltb 0 cur then (target - cur) / cur * 100 else 0
                 else 0) = 0).
    { destruct (Num.Qltb cur target) eqn:E1; [|reflexivity].
      destruct (Num.Qltb 0 cur) eqn:E2; [|reflexivity]. reflect_cmp. lra. }
    split; [exact E|]. intros Hle.
    unfold Spec.projection_of. cbn zeta. rewrite (Himp p Hin).
    unfold Spec.needed_improvement. cbn zeta. fold cur. fold target. rewrite E.
    rewrite py_min_Qmin.
    assert (E' : cur + cur * 0 / 100 == cur) by (unfold Qdiv; ring).
    destruct (Q.min_spec 100 (cur + cur * 0 / 100)) as [[H1 ->] | [H1 ->]]; lra.
Qed.

Lemma benchmark_simulation_improvements_witness :
  exists r pct proj,
    EsgSimulator.benchmark_simulation
      (<["environmental" := 40]> ∅) (<["environmental" := 55]> ∅) = Ok r /\
    EsgSimulator.improvement_pct r !! "environmental" = Some pct /\
    pct = (55 - 40) / 40 * 100 /\
    EsgSimulator.projected r !! "environmental" = Some proj /\
    40 <= proj /\ proj <= 100.
Proof.
  destruct (benchmark_simulation_improvements
              (<["environmental" := 40]> ∅) (<["environmental" := 55]> ∅))
    as (r & Hr & Hp).
  destruct (Hp "environmental") as (pct & proj & Hpct & Hproj & Hcap & Hlow & _);
    [pillar_in|].
  destruct Hlow as (Epct & _ & Hge); [vm_compute; reflexivity ..|].
  exists r, pct, proj. split; [exact Hr|]. split; [exact Hpct|].
  split; [exact Epct|]. split; [exact Hproj|].
  split; [apply Hge; vm_compute; discriminate | exact Hcap].
Defined.

(** ** Recommendations towards a target *)

Section Recommendations.
Import Num EsgSimulator Spec.

(** The plan that the loop of [generate_recommendations] stores for a
    pillar of weight [w]. *)
Lemma recommend_pillar_ok (cs : gmap string Q) (gap : Q)
    (recs : gmap string rec_value) (pillar : string) :
  pillar ∈ pillars ->
  exists w,
    weights !! pillar = Some w /\
    recommend_pillar cs gap recs pillar
    = Ok (<[pillar := RPillar
              (<["increase_pct" :=
                   if Qltb 0 (dict_get_default cs pillar 0)
                   then gap / 3 / w / dict_get_default cs pillar 0 * 100 else 0]>
                 (<["increase_needed" := gap / 3 / w]>
                    (<["target" := py_min 100 (dict_get_default cs pillar 0 + gap / 3 / w)]>
                       (<["current" := dict_get_default cs pillar 0]> ∅))))]> recs).
Proof.
  intros Hp. unfold recommend_pillar. cbn zeta.
  destruct (pillar_cases pillar Hp) as [-> | [-> | ->]].
  - exists (33 # 100). split; [reflexivity|].
    change (dict_get weights "environmental") with (@Ok Q (33 # 100)).
    cbn [mbind result_bind].
    change (py_div (gap / 3) (33 # 100)) with (@Ok Q (gap / 3 / (33 # 100))).
    cbn [mbind result_bind].
    destruct (Qltb 0 (dict_get_default cs "environmental" 0)) eqn:E; [|reflexivity].
    apply Qltb_true in E. rewrite (py_div_positive _ _ E). reflexivity.
  - exists (33 # 100). split; [reflexivity|].
    change (dict_get weights "social") with (@Ok Q (33 # 100)).
    cbn [mbind result_bind].
    change (py_div (gap / 3) (33 # 100)) with (@Ok Q (gap / 3 / (33 # 100))).
    cbn [mbind result_bind].
    destruct (Qltb 0 (dict_get_default cs "social" 0)) eqn:E; [|reflexivity].
    apply Qltb_true in E. rewrite (py_div_positive _ _ E). reflexivity.
  - exists (34 # 100). split; [reflexivity|].
    change (dict_get weights "governance") with (@Ok Q (34 # 100)).
    cbn [mbind result_bind].
    change (py_div (gap / 3) (34 # 100)) with (@Ok Q (gap / 3 / (34 # 100))).
    cbn [mbind result_bind].
    destruct (Qltb 0 (dict_get_default cs "governance" 0)) eqn:E; [|reflexivity].
    apply Qltb_true in E. rewrite (py_div_positive _ _ E). reflexivity.
Qed.

End Recommendations.

(** X6: [generate_recommendations] never raises.  When the current total
    is above the target, the result holds the message and nothing else.
    When it is below, the result holds no message; the gap is the target
    minus the current total; the increase needed is positive for each
    pillar; every pillar target is the score plus the increase, capped at
    100; and the percentage increase of a pillar is 0 when its score is not
    positive (the division by the score is guarded) and the increase
    relative to the score otherwise. *)
Theorem generate_recommendations_plan (cs : gmap string Q) (target : Q) :
  let e := dict_get_default cs "environmental" 0 in
  let s := dict_get_default cs "social" 0 in
  let g := dict_get_default cs "governance" 0 in
  exists total recs,
    EsgSimulator.calculate_total_score e s g = Ok total /\
    EsgSimulator.generate_recommendations cs target = Ok recs /\
    (target < total ->
       (exists m, recs !! "message" = Some (EsgSimulator.RMessage m)) /\
       forall k, k <> "message" -> recs !! k = None) /\
    (total < target ->
       recs !! "message" = None /\
       recs !! "gap" = Some (EsgSimulator.RNumber (target - total)) /\
       recs !! "current_total" = Some (EsgSimulator.RNumber total) /\
       recs !! "target_total" = Some (EsgSimulator.RNumber target) /\
       (exists inc_e inc_s inc_g,
          Spec.plan_field recs "environmental" "increase_needed" = Some inc_e /\
          Spec.plan_field recs "social" "increase_needed" = Some inc_s /\
          Spec.plan_field recs "governance" "increase_needed" = Some inc_g /\
          0 < inc_e /\ 0 < inc_s /\ 0 < inc_g) /\
       forall p, p ∈ EsgSimulator.pillars ->
         exists inc tp ip,
           Spec.plan_field recs p "current" = Some (dict_get_default cs p 0) /\
           Spec.plan_field recs p "increase_needed" = Some inc /\
           Spec.plan_field recs p "target" = Some tp /\
           tp == Qmin 100 (dict_get_default cs p 0 + inc) /\
           Spec.plan_field recs p "increase_pct" = Some ip /\
           (dict_get_default cs p 0 <= 0 -> ip = 0) /\
           (0 < dict_get_default cs p 0 ->
            ip == inc / dict_get_default cs p 0 * 100)).
Proof.
  intros e s g. unfold EsgSimulator.generate_recommendations.
  fold e. fold s. fold g. rewrite calculate_total_score_ok.
  cbn [mbind result_bind].
  set (total := e * (33 # 100) + s * (33 # 100) + g * (34 # 100)).
  exists total.
  destruct (Num.Qgeb total target) eqn:E; reflect_cmp.
  - eexists. split; [reflexivity|]. split; [reflexivity|]. split.
    + intros _. split; [eexists; apply lookup_insert_eq|].
      intros k Hk. rewrite lookup_insert_ne by congruence. apply lookup_empty.
    + intros H. lra.
  - unfold EsgSimulator.pillars. cbn [foldM].
    repeat match goal with
    | |- context [EsgSimulator.recommend_pillar ?c ?gp ?r ?p] =>
        let w := fresh "w" in
        let Hw := fresh "Hw" in
        destruct (recommend_pillar_ok c gp r p ltac:(pillar_in)) as (w & Hw & ->);
        vm_compute in Hw; injection Hw as <-;
        cbn [mbind result_bind mret result_ret]
    end.
    eexists. split; [reflexivity|]. split; [reflexivity|]. split; [intros H; lra|].
    intros _. unfold Spec.plan_field.
    split; [simplify_map_eq; reflexivity|].
    split; [simplify_map_eq; reflexivity|].
    split; [simplify_map_eq; reflexivity|].
    split; [simplify_map_eq; reflexivity|].
    split.
    + eexists; eexists; eexists.
      split; [simplify_map_eq; reflexivity|].
      split; [simplify_map_eq; reflexivity|].
      split; [simplify_map_eq; reflexivity|].
      assert (Hgap : 0 < (target - total) / 3) by (apply Qlt_shift_div_l; lra).
      split; [apply Qlt_shift_div_l; [reflexivity | lra]|].
      split; apply Qlt_shift_div_l; [reflexivity | lra | reflexivity | lra].
    + intros p Hp.
      destruct (pillar_cases p Hp) as [-> | [-> | ->]];
        (eexists; eexists; eexists;
         split; [simplify_map_eq; reflexivity|];
         split; [simplify_map_eq; reflexivity|];
         split; [simplify_map_eq; reflexivity|];
         split; [apply py_min_Qmin|];
         split; [simplify_map_eq; reflexivity|];
         split; intros Hc;
         [apply Qltb_false in Hc; rewrite Hc; reflexivity
         |apply Qltb_true in Hc; rewrite Hc; reflexivity]).
Qed.

Lemma generate_recommendations_plan_witness :
  exists recs inc_e,
    EsgSimulator.generate_recommendations
      (<["environmental" := 60]> (<["social" := 70]> (<["governance" := 50]> ∅))) 80
    = Ok recs /\
    recs !! "message" = None /\
    Spec.plan_field recs "environmental" "increase_needed" = Some inc_e /\ 0 < inc_e.
Proof.
  destruct (generate_recommendations_plan
              (<["environmental" := 60]> (<["social" := 70]> (<["governance" := 50]> ∅))) 80)
    as (total & recs & Ht & Hr & _ & Hgap).
  vm_compute in Ht. injection Ht as <-.
  destruct Hgap as (Hm & _ & _ & _ & (inc_e & inc_s & inc_g & Hie & _ & _ & Hpos & _) & _).
  { vm_compute. reflexivity. }
  exists recs, inc_e. split; [exact Hr|]. split; [exact Hm|]. split; [exact Hie | exact Hpos].
Defined.

(** ** Rating scales are monotone *)

(** X7: on both rating scales a higher score never gets a worse letter. *)
Theorem ratings_monotone (s1 s2 : Q) :
  s1 <= s2 ->
  (Spec.letter_rank (fst (DataLoader.get_esg_rating s1))
   <= Spec.letter_rank (fst (DataLoader.get_esg_rating s2)))%nat /\
  (Spec.letter_rank (EsgSimulator._score_to_rating s1)
   <= Spec.letter_rank (EsgSimulator._score_to_rating s2))%nat.
Proof.
  intros Hle. split.
  - unfold DataLoader.get_esg_rating.
    repeat match goal with
    | |- context [if Num.Qgeb ?x ?c then _ else _] =>
        let E := fresh "E" in destruct (Num.Qgeb x c) eqn:E
    end; reflect_cmp; first [exfalso; lra | vm_compute; lia].
  - unfold EsgSimulator._score_to_rating.
    repeat match goal with
    | |- context [if Num.Qgeb ?x ?c then _ else _] =>
        let E := fresh "E" in destruct (Num.Qgeb x c) eqn:E
    end; reflect_cmp; first [exfalso; lra | vm_compute; lia].
Qed.

Lemma ratings_monotone_witness :
  (Spec.letter_rank (fst (DataLoader.get_esg_rating 55))
   <= Spec.letter_rank (fst (DataLoader.get_esg_rating 72)))%nat /\
  (Spec.letter_rank (EsgSimulator._score_to_rating 55)
   <= Spec.letter_rank (EsgSimulator._score_to_rating 72))%nat.
Proof. apply (ratings_monotone 55 72). vm_compute. discriminate. Defined.

(** ** The trajectory in closed form *)

Section ClosedForm.
Import Num EsgSimulator Spec.

Lemma Qltb_proper (a a' b b' : Q) : a == a' -> b == b' -> Qltb a b = Qltb a' b'.
Proof.
  intros Ha Hb. destruct (Qltb a' b') eqn:E; reflect_cmp.
  - apply Qltb_true. lra.
  - apply Qltb_false. lra.
Qed.

Lemma round_half_even_proper (x y : Q) : x == y -> round_half_even x = round_half_even y.
Proof.
  intros E. unfold round_half_even.
  rewrite (Qfloor_comp x y E).
  rewrite (Qltb_proper (x - inject_Z (Qfloor y)) (y - inject_Z (Qfloor y)) (1 # 2) (1 # 2))
    by lra.
  rewrite (Qltb_proper (1 # 2) (1 # 2) (x - inject_Z (Qfloor y)) (y - inject_Z (Qfloor y)))
    by lra.
  reflexivity.
Qed.

(** Rounding does not depend on how the rational is written. *)
Lemma round1_proper (x y : Q) : x == y -> round1 x = round1 y.
Proof.
  intros E. unfold round1.
  rewrite (round_half_even_proper (x * 10) (y * 10)) by lra. reflexivity.
Qed.

Lemma Qpower_of_nat_succ (q : Q) (n : nat) :
  q ^ Z.of_nat (S n) == q ^ Z.of_nat n * q.
Proof.
  rewrite Nat2Z.inj_succ. unfold Z.succ.
  rewrite Qpower_plus' by lia. rewrite Qpower_1_r. reflexivity.
Qed.

(** Below saturation a step shrinks the distance to 100 by the factor
    1 - rate / 200. *)
Lemma trajectory_step_shrinks (rate score : Q) :
  0 <= rate <= 200 -> score <= 100 ->
  100 - trajectory_step rate score == (100 - score) * (1 - rate / 200).
Proof.
  intros Hr Hs. unfold trajectory_step. cbn zeta.
  set (x := score + (100 - score) * (rate / 100) * (1 # 2)).
  assert (Ex : 100 - x == (100 - score) * (1 - rate / 200)) by (unfold x; field).
  assert (Hq : 0 <= 1 - rate / 200).
  { assert (rate / 200 <= 1) by (apply Qle_shift_div_r; lra). lra. }
  assert (Hx : 0 <= (100 - score) * (1 - rate / 200))
    by (apply Qmult_le_0_compat; lra).
  unfold py_min. destruct (Qltb x 100) eqn:E; reflect_cmp; lra.
Qed.

Lemma pillar_score_closed_form (cur rate : Q) (n : nat) :
  0 <= rate <= 200 -> cur <= 100 ->
  pillar_score cur rate (Z.of_nat n)
  == 100 - (100 - cur) * (1 - rate / 200) ^ Z.of_nat n.
Proof.
  intros Hr Hc. induction n as [|n IH].
  - rewrite pillar_score_0. change (Z.of_nat 0) with 0%Z. rewrite Qpower_0_r. ring.
  - rewrite pillar_score_succ, Qpower_of_nat_succ.
    pose proof (trajectory_step_shrinks rate (pillar_score cur rate (Z.of_nat n)) Hr
                  (pillar_score_le_100 cur rate n Hc)) as Hstep.
    rewrite IH in Hstep at 2.
    set (t := trajectory_step rate (pillar_score cur rate (Z.of_nat n))) in *.
    set (pw := (1 - rate / 200) ^ Z.of_nat n) in *.
    assert (E : 100 - t == (100 - cur) * pw * (1 - rate / 200)).
    { rewrite Hstep. ring. }
    assert (E2 : t == 100 - (100 - t)) by ring.
    rewrite E2, E. ring.
Qed.

(** From a rate of 200 percent on a single step reaches 100. *)
Lemma trajectory_step_saturates (rate score : Q) :
  200 <= rate -> score <= 100 -> trajectory_step rate score == 100.
Proof.
  intros Hr Hs. unfold trajectory_step. cbn zeta.
  set (x := score + (100 - score) * (rate / 100) * (1 # 2)).
  assert (Hq : 1 <= rate / 200) by (apply Qle_shift_div_l; lra).
  assert (Hx : 0 <= (100 - score) * (rate / 200 - 1))
    by (apply Qmult_le_0_compat; lra).
  assert (Ex : x - 100 == (100 - score) * (rate / 200 - 1)) by (unfold x; field).
  unfold py_min. destruct (Qltb x 100) eqn:E; reflect_cmp; lra.
Qed.

Lemma pillar_score_saturated (cur rate : Q) (n : nat) :
  200 <= rate -> cur <= 100 -> pillar_score cur rate (Z.of_nat (S n)) == 100.
Proof.
  intros Hr Hc. rewrite pillar_score_succ.
  apply trajectory_step_saturates; [exact Hr|]. apply pillar_score_le_100, Hc.
Qed.

(** The rows of a projection, by year. *)
Lemma trajectory_rows (cs rates : gmap string Q) (years : Z) :
  exists traj,
    predict_future_trajectory cs rates years = Ok traj /\
    length traj = Z.to_nat (years + 1) /\
    forall y row, traj !! y = Some row -> row_spec cs rates (Z.of_nat y) row.
Proof.
  destruct (collect_years_ok cs rates (py_range (years + 1))) as [traj [Ht Hall]].
  exists traj. split; [exact Ht|]. split.
  - rewrite <- (Forall2_length _ _ _ Hall). apply length_py_range.
  - intros y row Hy.
    destruct (Forall2_lookup_r _ _ _ _ _ Hall Hy) as [yz [Hyz Hspec]].
    pose proof (py_range_lookup _ _ _ Hyz) as ->. exact Hspec.
Qed.

End ClosedForm.

(** X9: for a pillar with a current score of at most 100 and an annual rate
    of 200 percent or more, every entry after year 0 is 100: the score
    saturates in the first year. *)
Theorem predict_future_trajectory_saturates
    (cs rates : gmap string Q) (years : Z) (p : string) :
  p ∈ EsgSimulator.pillars ->
  dict_get_default cs p 0 <= 100 ->
  200 <= dict_get_default rates p 0 ->
  exists traj,
    EsgSimulator.predict_future_trajectory cs rates years = Ok traj /\
    forall y row, traj !! S y = Some row ->
      exists v, row !! p = Some v /\ v == 100.
Proof.
  intros Hp Hc Hr.
  destruct (trajectory_rows cs rates years) as (traj & Ht & _ & Hrows).
  exists traj. split; [exact Ht|].
  intros y row Hy. destruct (Hrows (S y) row Hy) as [_ Hv].
  eexists. split; [apply (Hv p Hp)|].
  rewrite (round1_proper _ 100) by (apply pillar_score_saturated; assumption).
  apply round1_100.
Qed.

Lemma predict_future_trajectory_saturates_witness :
  exists traj row v,
    EsgSimulator.predict_future_trajectory
      (<["social" := 30]> ∅) (<["social" := 250]> ∅) 3 = Ok traj /\
    traj !! 1%nat = Some row /\ row !! "social" = Some v /\ v == 100.
Proof.
  destruct (predict_future_trajectory_saturates
              (<["social" := 30]> ∅) (<["social" := 250]> ∅) 3 "social")
    as (traj & Ht & Hrows).
  - pillar_in.
  - vm_compute. discriminate.
  - vm_compute. discriminate.
  - destruct (trajectory_rows (<["social" := 30]> ∅) (<["social" := 250]> ∅) 3)
      as (traj' & Ht' & Hl & _).
    rewrite Ht in Ht'. injection Ht' as <-.
    destruct (traj !! 1%nat) as [row|] eqn:E.
    + destruct (Hrows 0%nat row E) as (v & Hv & Ev).
      exists traj, row, v. split; [exact Ht|]. split; [exact E|].
      split; [exact Hv | exact Ev].
    + apply lookup_ge_None in E. rewrite Hl in E. vm_compute in E. lia.
Defined.

(** ** Distinct values in ascending order *)

Lemma filter_all_in {A : Type} (p : A -> bool) (l : list A) :
  (forall x, In x l -> p x = true) -> List.filter p l = l.
Proof.
  induction l as [|x l IH]; intros H; [reflexivity|].
  cbn [List.filter]. rewrite (H x (or_introl eq_refl)).
  rewrite IH; [reflexivity|]. intros y Hy. apply H. right. exact Hy.
Qed.

Section OrderedLists.
Import DataLoader.

Context {A : Type}.
Variable eqb : A -> A -> bool.
Variable leb : A -> A -> bool.
Variable lt : A -> A -> Prop.
Hypothesis eqb_spec : forall x y, eqb x y = true <-> x = y.
Hypothesis leb_total : forall x y, leb x y = true \/ leb y x = true.
Hypothesis leb_trans : forall x y z, leb x y = true -> leb y z = true -> leb x z = true.
Hypothesis leb_lt : forall x y, leb x y = true -> x <> y -> lt x y.
Hypothesis lt_leb : forall x y, lt x y -> leb x y = true.
Hypothesis lt_irrefl : forall x, ~ lt x x.

Lemma unique_In (l : list A) (x : A) : In x (unique eqb l) <-> In x l.
Proof.
  induction l as [|a l IH]; [reflexivity|].
  cbn [unique In]. rewrite filter_In, IH, negb_true_iff. split.
  - intros [H | [H _]]; [left | right]; exact H.
  - intros [H | H]; [left; exact H|].
    destruct (eqb a x) eqn:E.
    + left. apply eqb_spec, E.
    + right. split; [exact H | reflexivity].
Qed.

Lemma NoDup_filter_list (p : A -> bool) (l : list A) : List.NoDup l -> List.NoDup (List.filter p l).
Proof.
  induction 1 as [|a l Hin Hnd IH]; cbn [List.filter]; [constructor|].
  destruct (p a); [|exact IH].
  constructor; [|exact IH]. rewrite filter_In. tauto.
Qed.

Lemma unique_NoDup (l : list A) : List.NoDup (unique eqb l).
Proof.
  induction l as [|a l IH]; cbn [unique]; [constructor|].
  constructor; [|apply NoDup_filter_list, IH].
  rewrite filter_In, negb_true_iff. intros [_ H].
  assert (eqb a a = true) by (apply eqb_spec; reflexivity). congruence.
Qed.

Lemma unique_NoDup_id (l : list A) : List.NoDup l -> unique eqb l = l.
Proof.
  induction 1 as [|a l Hin Hnd IH]; cbn [unique]; [reflexivity|].
  rewrite IH. f_equal. apply filter_all_in.
  intros y Hy. apply negb_true_iff.
  destruct (eqb a y) eqn:E; [|reflexivity].
  apply eqb_spec in E. subst. contradiction.
Qed.

Lemma insert_by_perm (x : A) (l : list A) : Permutation (insert_by leb x l) (x :: l).
Proof.
  induction l as [|a l IH]; cbn [insert_by]; [reflexivity|].
  destruct (leb x a); [reflexivity|]. rewrite IH. apply perm_swap.
Qed.

Lemma sorted_by_perm (l : list A) : Permutation (sorted_by leb l) l.
Proof.
  induction l as [|a l IH]; cbn; [reflexivity|].
  rewrite insert_by_perm. constructor. exact IH.
Qed.

Lemma insert_by_sorted (x : A) (l : list A) :
  Sorted (fun a b => leb a b = true) l ->
  Sorted (fun a b => leb a b = true) (insert_by leb x l).
Proof.
  induction 1 as [|a l Hs IH Hd]; cbn [insert_by].
  - repeat constructor.
  - destruct (leb x a) eqn:E.
    + repeat constructor; assumption.
    + assert (Hax : leb a x = true) by (destruct (leb_total x a); congruence).
      constructor; [exact IH|].
      destruct Hd as [|b l Hab]; cbn [insert_by].
      * constructor. exact Hax.
      * destruct (leb x b); constructor; assumption.
Qed.

Lemma sorted_by_sorted (l : list A) :
  StronglySorted (fun a b => leb a b = true) (sorted_by leb l).
Proof.
  apply Sorted_StronglySorted.
  - intros a b c. apply leb_trans.
  - induction l as [|a l IH]; cbn; [constructor|]. apply insert_by_sorted, IH.
Qed.

Lemma strict_of_NoDup (l : list A) :
  StronglySorted (fun a b => leb a b = true) l -> List.NoDup l -> StronglySorted lt l.
Proof.
  induction 1 as [|a l Hs IH Hall]; intros Hnd; [constructor|].
  inversion Hnd as [|? ? Hin Hnd']; subst.
  constructor; [apply IH, Hnd'|].
  rewrite List.Forall_forall in *. intros b Hb.
  apply leb_lt; [apply Hall, Hb|]. intros ->. contradiction.
Qed.

(** The distinct values of a column in ascending order: strictly
    increasing, and with the same members as the column. *)
Lemma sorted_unique_spec (l : list A) :
  StronglySorted lt (sorted_by leb (unique eqb l)) /\
  forall x, In x (sorted_by leb (unique eqb l)) <-> In x l.
Proof.
  split.
  - apply strict_of_NoDup; [apply sorted_by_sorted|].
    apply (Permutation_NoDup (l := unique eqb l));
      [symmetry; apply sorted_by_perm | apply unique_NoDup].
  - intros x. split; intros H.
    + apply unique_In. eapply Permutation_in; [apply sorted_by_perm | exact H].
    + eapply Permutation_in; [symmetry; apply sorted_by_perm | apply unique_In, H].
Qed.

Lemma strict_NoDup (l : list A) : StronglySorted lt l -> List.NoDup l.
Proof.
  induction 1 as [|a l Hs IH Hall]; constructor; [|exact IH].
  intros Hin. rewrite List.Forall_forall in Hall. apply (lt_irrefl a), Hall, Hin.
Qed.

Lemma sorted_by_id (l : list A) : StronglySorted lt l -> sorted_by leb l = l.
Proof.
  induction 1 as [|a l Hs IH Hall]; [reflexivity|].
  cbn [sorted_by foldr]. fold (sorted_by leb l). rewrite IH.
  destruct l as [|b l]; [reflexivity|]. cbn [insert_by].
  rewrite lt_leb; [reflexivity|]. rewrite List.Forall_forall in Hall.
  apply Hall. left. reflexivity.
Qed.

(** Sorting the distinct values again changes nothing. *)
Lemma sorted_unique_id (l : list A) :
  StronglySorted lt l -> sorted_by leb (unique eqb l) = l.
Proof.
  intros H. rewrite unique_NoDup_id by (apply strict_NoDup, H). apply sorted_by_id, H.
Qed.

End OrderedLists.

Section StringOrder.
Import DataLoader.

Lemma str_leb_lt (a b : string) : str_leb a b = true -> a <> b -> String_as_OT.lt a b.
Proof.
  unfold str_leb. intros H Hne.
  destruct (String_as_OT.compare_spec a b) as [E | E | E];
    [contradiction | exact E | discriminate].
Qed.

Lemma str_lt_leb (a b : string) : String_as_OT.lt a b -> str_leb a b = true.
Proof. unfold str_leb, String_as_OT.lt. intros ->. reflexivity. Qed.

Lemma str_lt_irrefl (a : string) : ~ String_as_OT.lt a a.
Proof. apply (StrictOrder_Irreflexive (R := String_as_OT.lt)). Qed.

Lemma str_leb_cases (a b : string) : str_leb a b = true <-> a = b \/ String_as_OT.lt a b.
Proof.
  split.
  - intros H. destruct (String.string_dec a b) as [-> | Hne]; [left; reflexivity|].
    right. apply str_leb_lt; assumption.
  - intros [-> | H]; [|apply str_lt_leb, H].
    unfold str_leb. destruct (String_as_OT.compare_spec b b) as [E | E | E];
      [reflexivity | reflexivity | destruct (str_lt_irrefl b E)].
Qed.

Lemma str_leb_total (a b : string) : str_leb a b = true \/ str_leb b a = true.
Proof.
  destruct (String_as_OT.compare_spec a b) as [E | E | E].
  - left. apply str_leb_cases. left. exact E.
  - left. apply str_lt_leb, E.
  - right. apply str_lt_leb, E.
Qed.

Lemma str_leb_trans (a b c : string) :
  str_leb a b = true -> str_leb b c = true -> str_leb a c = true.
Proof.
  rewrite !str_leb_cases. intros [-> | H1] [-> | H2]; auto.
  right. exact (StrictOrder_Transitive (R := String_as_OT.lt) a b c H1 H2).
Qed.

Lemma Z_leb_total (a b : Z) : (a <=? b)%Z = true \/ (b <=? a)%Z = true.
Proof. rewrite !Z.leb_le. lia. Qed.

Lemma Z_leb_trans (a b c : Z) :
  (a <=? b)%Z = true -> (b <=? c)%Z = true -> (a <=? c)%Z = true.
Proof. rewrite !Z.leb_le. lia. Qed.

Lemma Z_leb_lt (a b : Z) : (a <=? b)%Z = true -> a <> b -> (a < b)%Z.
Proof. rewrite Z.leb_le. lia. Qed.

Lemma Z_lt_leb (a b : Z) : (a < b)%Z -> (a <=? b)%Z = true.
Proof. rewrite Z.leb_le. lia. Qed.

(** The distinct strings of a column, sorted. *)
Lemma sorted_strings_spec (l : list string) :
  StronglySorted String_as_OT.lt (sorted_by str_leb (unique String.eqb l)) /\
  forall x, In x (sorted_by str_leb (unique String.eqb l)) <-> In x l.
Proof.
  apply (sorted_unique_spec String.eqb str_leb String_as_OT.lt).
  - apply String.eqb_eq.
  - apply str_leb_total.
  - apply str_leb_trans.
  - apply str_leb_lt.
Qed.

Lemma sorted_strings_id (l : list string) :
  StronglySorted String_as_OT.lt l -> sorted_by str_leb (unique String.eqb l) = l.
Proof.
  apply (sorted_unique_id String.eqb str_leb String_as_OT.lt).
  - apply String.eqb_eq.
  - apply str_lt_leb.
  - apply str_lt_irrefl.
Qed.

(** The distinct integers of a column, sorted. *)
Lemma sorted_ints_spec (l : list Z) :
  StronglySorted Z.lt (sorted_by Z.leb (unique Z.eqb l)) /\
  forall x, In x (sorted_by Z.leb (unique Z.eqb l)) <-> In x l.
Proof.
  apply (sorted_unique_spec Z.eqb Z.leb Z.lt).
  - apply Z.eqb_eq.
  - apply Z_leb_total.
  - apply Z_leb_trans.
  - apply Z_leb_lt.
Qed.

Lemma column_values {B : Type} (f : Frame.row -> B) (df : Frame.frame) (x : B) :
  In x (map f df) <-> exists r, In r df /\ f r = x.
Proof.
  rewrite in_map_iff. split; intros [r [H1 H2]]; exists r; split; assumption.
Qed.

End StringOrder.

(** X10: [get_companies], [get_sectors], [get_countries] and [get_years]
    return the values of their column without repetition and in strictly
    ascending order: a value is in the list if and only if some row of the
    dataframe carries it. *)
Theorem getters_sorted_distinct (df : Frame.frame) :
  (StronglySorted String_as_OT.lt (DataLoader.get_companies df) /\
   forall c, In c (DataLoader.get_companies df)
             <-> exists r, In r df /\ Frame.company r = c) /\
  (StronglySorted String_as_OT.lt (DataLoader.get_sectors df) /\
   forall s, In s (DataLoader.get_sectors df)
             <-> exists r, In r df /\ Frame.sector r = s) /\
  (StronglySorted String_as_OT.lt (DataLoader.get_countries df) /\
   forall c, In c (DataLoader.get_countries df)
             <-> exists r, In r df /\ Frame.country r = c) /\
  (StronglySorted Z.lt (DataLoader.get_years df) /\
   forall y, In y (DataLoader.get_years df)
             <-> exists r, In r df /\ Frame.year r = y).
Proof.
  unfold DataLoader.get_companies, DataLoader.get_sectors, DataLoader.get_countries,
    DataLoader.get_years.
  split; [|split; [|split]]; (split; [first [apply sorted_strings_spec | apply sorted_ints_spec]|]).
  - intros c. rewrite (proj2 (sorted_strings_spec _)). apply column_values.
  - intros c. rewrite (proj2 (sorted_strings_spec _)). apply column_values.
  - intros c. rewrite (proj2 (sorted_strings_spec _)). apply column_values.
  - intros y. rewrite (proj2 (sorted_ints_spec _)). apply column_values.
Qed.

(** ** The latest row of every company *)

Section LatestData.
Import Num Frame DataLoader Spec.

Lemma omap_In {A B : Type} (f : A -> option B) (l : list A) (b : B) :
  In b (omap f l) <-> exists a, In a l /\ f a = Some b.
Proof.
  induction l as [|a l IH]; cbn [omap list_omap In].
  - split; [intros [] | intros [a [[] _]]].
  - destruct (f a) as [b'|] eqn:E; cbn [In]; rewrite IH; split.
    + intros [<- | [a' [H1 H2]]]; [exists a; auto | exists a'; auto].
    + intros [a' [[<- | H1] H2]]; [left; congruence | right; exists a'; auto].
    + intros [a' [H1 H2]]. exists a'. auto.
    + intros [a' [[<- | H1] H2]]; [congruence | exists a'; auto].
Qed.

Lemma omap_keys {A B : Type} (f : A -> option B) (g : B -> A) (l : list A) :
  (forall a, In a l -> exists b, f a = Some b /\ g b = a) -> map g (omap f l) = l.
Proof.
  induction l as [|a l IH]; intros H; [reflexivity|].
  cbn [omap list_omap]. destruct (H a (or_introl eq_refl)) as [b [-> Hg]].
  cbn [map]. rewrite Hg. f_equal. apply IH. intros a' Ha'. apply H. right. exact Ha'.
Qed.

Lemma omap_map_id {A B : Type} (f : A -> option B) (g : B -> A) (l : list B) :
  (forall b, In b l -> f (g b) = Some b) -> omap f (map g l) = l.
Proof.
  induction l as [|b l IH]; intros H; [reflexivity|].
  cbn [map omap list_omap]. rewrite (H b (or_introl eq_refl)).
  f_equal. apply IH. intros b' Hb'. apply H. right. exact Hb'.
Qed.

Lemma idxmax_year_latest (df : frame) (c : string) :
  (exists r, In r df /\ company r = c) -> idxmax_year df c = latest_row df c.
Proof.
  intros H. unfold idxmax_year. apply latest_of_company, company_rows_nonempty, H.
Qed.

Lemma get_companies_In (df : frame) (c : string) :
  In c (get_companies df) <-> exists r, In r df /\ company r = c.
Proof.
  unfold get_companies. rewrite (proj2 (sorted_strings_spec _)). apply column_values.
Qed.

Lemma get_companies_sorted (df : frame) :
  StronglySorted String_as_OT.lt (get_companies df).
Proof. apply sorted_strings_spec. Qed.

Lemma get_latest_data_companies (df : frame) :
  map company (get_latest_data df) = get_companies df.
Proof.
  unfold get_latest_data. apply omap_keys. intros c Hc.
  apply get_companies_In in Hc.
  rewrite (idxmax_year_latest df c Hc).
  destruct (latest_row_exists df c Hc) as [r Hr]. exists r. split; [exact Hr|].
  apply (latest_row_spec df c r Hr).
Qed.

Lemma get_latest_data_In (df : frame) (r : row) :
  In r (get_latest_data df) <-> latest_row df (company r) = Some r.
Proof.
  unfold get_latest_data. rewrite omap_In. split.
  - intros [c [Hc Hr]]. apply get_companies_In in Hc.
    rewrite (idxmax_year_latest df c Hc) in Hr.
    destruct (latest_row_spec df c r Hr) as [_ [<- _]]. exact Hr.
  - intros Hr. exists (company r).
    destruct (latest_row_spec df _ r Hr) as [Hin _].
    assert (Hex : exists r', In r' df /\ company r' = company r) by (exists r; auto).
    split; [apply get_companies_In, Hex|].
    rewrite (idxmax_year_latest df _ Hex). exact Hr.
Qed.

Lemma company_rows_single (l : frame) (r : row) :
  List.NoDup (map company l) -> In r l -> company_rows l (company r) = [r].
Proof.
  unfold company_rows. induction l as [|a l IH]; intros Hnd Hin; [destruct Hin|].
  cbn [map] in Hnd. inversion Hnd as [|? ? Hnotin Hnd']; subst.
  cbn [List.filter]. destruct Hin as [-> | Hin].
  - rewrite String.eqb_refl. f_equal. apply filter_none.
    intros x Hx. apply String.eqb_neq. intros E. apply Hnotin.
    rewrite <- E. apply in_map, Hx.
  - destruct (String.eqb (company a) (company r)) eqn:E.
    + apply String.eqb_eq in E. exfalso. apply Hnotin. rewrite E. apply in_map, Hin.
    + apply IH; assumption.
Qed.

Lemma idxmax_year_single (l : frame) (r : row) :
  List.NoDup (map company l) -> In r l -> idxmax_year l (company r) = Some r.
Proof.
  intros Hnd Hin. unfold idxmax_year. rewrite (company_rows_single l r Hnd Hin).
  cbn [year_max foldl List.filter year_is]. rewrite Z.eqb_refl. reflexivity.
Qed.

Lemma get_latest_data_NoDup (df : frame) : List.NoDup (map company (get_latest_data df)).
Proof.
  rewrite get_latest_data_companies.
  apply (strict_NoDup String_as_OT.lt str_lt_irrefl), get_companies_sorted.
Qed.

End LatestData.

(** X11: [get_latest_data] returns exactly one row per company, in
    ascending order of the company names; a row is returned if and only if
    it is the first row of its company whose year no other row of the
    company exceeds. *)
Theorem get_latest_data_one_row_per_company (df : Frame.frame) :
  map Frame.company (DataLoader.get_latest_data df) = DataLoader.get_companies df /\
  StronglySorted String_as_OT.lt (map Frame.company (DataLoader.get_latest_data df)) /\
  (forall r, In r (DataLoader.get_latest_data df)
             <-> Spec.latest_row df (Frame.company r) = Some r) /\
  (forall r, In r (DataLoader.get_latest_data df) ->
     In r df /\
     forall r', In r' df -> Frame.company r' = Frame.company r ->
                (Frame.year r' <= Frame.year r)%Z) /\
  (forall r, In r df ->
     exists l, In l (DataLoader.get_latest_data df) /\ Frame.company l = Frame.company r).
Proof.
  split; [apply get_latest_data_companies|].
  split; [rewrite get_latest_data_companies; apply get_companies_sorted|].
  split; [apply get_latest_data_In|]. split.
  - intros r Hr. apply get_latest_data_In in Hr.
    destruct (latest_row_spec df _ r Hr) as (Hin & _ & Hmax). split; [exact Hin | exact Hmax].
  - intros r Hr.
    destruct (latest_row_exists df (Frame.company r)) as [l Hl]; [exists r; auto|].
    exists l. destruct (latest_row_spec df _ l Hl) as (_ & Hc & _).
    split; [|exact Hc]. apply get_latest_data_In. rewrite Hc. exact Hl.
Qed.

(** X12: [get_latest_data] is idempotent: applied to its own result it
    returns that result. *)
Theorem get_latest_data_idempotent (df : Frame.frame) :
  DataLoader.get_latest_data (DataLoader.get_latest_data df)
  = DataLoader.get_latest_data df.
Proof.
  set (L := DataLoader.get_latest_data df).
  unfold DataLoader.get_latest_data at 1. unfold DataLoader.get_companies.
  assert (Hs : StronglySorted String_as_OT.lt (map Frame.company L)).
  { unfold L. rewrite get_latest_data_companies. apply get_companies_sorted. }
  rewrite (sorted_strings_id _ Hs).
  apply omap_map_id. intros r Hr.
  apply idxmax_year_single; [|exact Hr]. apply get_latest_data_NoDup.
Qed.

(** X13: the risk flags of a company are the same on the full data and on
    the latest rows: [identify_risks] after [get_latest_data] returns what
    [identify_risks] returns on the dataframe itself. *)
Theorem identify_risks_on_latest_data (df : Frame.frame) (c : string) :
  EsgAnalyzer.identify_risks (DataLoader.get_latest_data df) c
  = EsgAnalyzer.identify_risks df c.
Proof.
  destruct (Frame.company_rows df c) as [|r0 rows] eqn:E.
  - assert (Habs : forall r, In r df -> Frame.company r <> c).
    { intros r Hr Hc.
      assert (Hin : In r (Frame.company_rows df c)) by (apply company_rows_In; auto).
      rewrite E in Hin. destruct Hin. }
    rewrite (identify_risks_absent df c Habs).
    apply identify_risks_absent. intros r Hr. apply Habs.
    apply get_latest_data_In in Hr. apply (latest_row_spec df _ r Hr).
  - assert (Hex : exists r, In r df /\ Frame.company r = c).
    { exists r0. apply company_rows_In. rewrite E. left. reflexivity. }
    destruct (latest_row_exists df c Hex) as [r Hr].
    destruct (latest_row_spec df c r Hr) as (_ & Hc & _).
    rewrite (identify_risks_table df c r Hr).
    apply identify_risks_table.
    assert (Hin : In r (DataLoader.get_latest_data df))
      by (apply get_latest_data_In; rewrite Hc; exact Hr).
    rewrite <- (idxmax_year_latest (DataLoader.get_latest_data df) c)
      by (exists r; auto).
    rewrite <- Hc. apply idxmax_year_single; [apply get_latest_data_NoDup | exact Hin].
Qed.

(** ** Cleaning the scores *)

Section CleanData.
Import Num Frame Store DataLoader Spec.

Lemma round_half_even_close (y : Q) :
  y - (1 # 2) <= inject_Z (round_half_even y) <= y + (1 # 2).
Proof.
  pose proof (Qfloor_le y) as Hlo. pose proof (Qlt_floor y) as Hhi.
  rewrite inject_Z_plus in Hhi. change (inject_Z 1) with 1 in Hhi.
  unfold round_half_even.
  destruct (Qltb (y - inject_Z (Qfloor y)) (1 # 2)) eqn:E1; reflect_cmp.
  - lra.
  - destruct (Qltb (1 # 2) (y - inject_Z (Qfloor y))) eqn:E2; reflect_cmp.
    + rewrite inject_Z_plus. change (inject_Z 1) with 1. lra.
    + destruct (Z.even (Qfloor y));
        [lra | rewrite inject_Z_plus; change (inject_Z 1) with 1; lra].
Qed.

(** Rounding to one decimal moves a number by at most 0.05. *)
Lemma round1_close (x : Q) : x - (1 # 20) <= round1 x <= x + (1 # 20).
Proof.
  pose proof (round_half_even_close (x * 10)) as [Hlo Hhi]. unfold round1.
  split.
  - apply Qle_shift_div_l; [reflexivity | lra].
  - apply Qle_shift_div_r; [reflexivity | lra].
Qed.

Lemma round_half_even_inject (n : Z) : round_half_even (inject_Z n) = n.
Proof.
  unfold round_half_even. rewrite Qfloor_Z.
  replace (Qltb (inject_Z n - inject_Z n) (1 # 2)) with true; [reflexivity|].
  symmetry. apply Qltb_true. lra.
Qed.

(** Rounding a rounded number changes nothing. *)
Lemma round1_idempotent (x : Q) : round1 (round1 x) = round1 x.
Proof.
  unfold round1 at 1.
  rewrite (round_half_even_proper (round1 x * 10) (inject_Z (round_half_even (x * 10)))).
  - rewrite round_half_even_inject. reflexivity.
  - unfold round1. field.
Qed.

Lemma cround1_idempotent (c : cell) : cround1 (cround1 c) = cround1 c.
Proof. destruct c as [x|]; [|reflexivity]. cbn. rewrite round1_idempotent. reflexivity. Qed.

Lemma cround1_close (c : cell) : cell_close c (cround1 c).
Proof. destruct c as [x|]; cbn; [apply round1_close | exact I]. Qed.

(** The four rounds of the loop of [clean_data], for one row. *)
Lemma clean_rows_map (f : frame) :
  clean_rows f
  = map (fun r => round_score "total_esg_score"
                    (round_score "governance_score"
                       (round_score "social_score"
                          (round_score "environmental_score" r)))) f.
Proof.
  unfold clean_rows, score_columns. cbn [foldl]. rewrite !map_map. reflexivity.
Qed.

Lemma clean_rows_cleaned (f : frame) : Forall2 cleaned f (clean_rows f).
Proof.
  rewrite clean_rows_map. induction f as [|r f IH]; cbn [map]; constructor; [|exact IH].
  unfold cleaned. repeat split.
  intros name H1 H2 H3 H4. unfold get_metric.
  repeat match goal with
  | |- context [String.eqb name ?c] =>
      let E := fresh "E" in
      destruct (String.eqb name c) eqn:E;
      [apply String.eqb_eq in E; subst name; try congruence; reflexivity |]
  end.
  reflexivity.
Qed.

(** The four rounds of the loop together, field by field. *)
Lemma round_scores_fields (r : row) :
  round_score "total_esg_score"
    (round_score "governance_score"
       (round_score "social_score" (round_score "environmental_score" r)))
  = {| company := company r; sector := sector r; country := country r; year := year r;
       environmental_score := cround1 (environmental_score r);
       social_score := cround1 (social_score r);
       governance_score := cround1 (governance_score r);
       total_esg_score := cround1 (total_esg_score r);
       carbon_emissions_mt := carbon_emissions_mt r;
       energy_intensity := energy_intensity r;
       waste_recycled_pct := waste_recycled_pct r;
       diversity_score := diversity_score r;
       employee_turnover_pct := employee_turnover_pct r;
       safety_incidents := safety_incidents r;
       board_independence_pct := board_independence_pct r;
       executive_pay_ratio := executive_pay_ratio r;
       controversy_score := controversy_score r;
       market_cap_billion := market_cap_billion r |}.
Proof. reflexivity. Qed.

Lemma clean_rows_idempotent (f : frame) : clean_rows (clean_rows f) = clean_rows f.
Proof.
  rewrite !clean_rows_map, map_map. apply map_ext. intros r.
  rewrite (round_scores_fields r), round_scores_fields.
  cbn [company sector country year environmental_score social_score governance_score
       total_esg_score carbon_emissions_mt energy_intensity waste_recycled_pct
       diversity_score employee_turnover_pct safety_incidents board_independence_pct
       executive_pay_ratio controversy_score market_cap_billion].
  rewrite !cround1_idempotent. reflexivity.
Qed.

End CleanData.

(** X14: [clean_data] works in place: it returns the dataframe it received
    and no other object changes.  The rows keep their number and order; in
    each row the four scores are rounded to one decimal, which moves a
    score by at most 0.05 and keeps a missing score missing, and all other
    columns are unchanged.  Cleaning a cleaned dataframe changes
    nothing. *)
Theorem clean_data_in_place (h : gmap nat Frame.frame) (df : nat) (f : Frame.frame) :
  h !! df = Some f ->
  exists g h',
    DataLoader.clean_data df h = (df, h') /\
    h' !! df = Some g /\
    (forall l, l <> df -> h' !! l = h !! l) /\
    Forall2 Spec.cleaned f g /\
    Forall2 (fun r r' =>
               Spec.cell_close (Frame.environmental_score r) (Frame.environmental_score r') /\
               Spec.cell_close (Frame.social_score r) (Frame.social_score r') /\
               Spec.cell_close (Frame.governance_score r) (Frame.governance_score r') /\
               Spec.cell_close (Frame.total_esg_score r) (Frame.total_esg_score r')) f g /\
    DataLoader.clean_data df h' = (df, h').
Proof.
  intros Hdf. exists (DataLoader.clean_rows f), (<[df := DataLoader.clean_rows f]> h).
  unfold DataLoader.clean_data, Store.read. rewrite Hdf.
  split; [reflexivity|]. split; [apply lookup_insert_eq|].
  split; [intros l Hl; apply lookup_insert_ne; congruence|].
  split; [apply clean_rows_cleaned|]. split.
  - eapply Forall2_impl; [apply clean_rows_cleaned|].
    intros r r' (_ & _ & _ & _ & -> & -> & -> & -> & _).
    repeat split; apply cround1_close.
  - rewrite lookup_insert_eq, clean_rows_idempotent, insert_insert_eq. reflexivity.
Qed.

Lemma clean_data_in_place_witness :
  exists g h',
    DataLoader.clean_data 0%nat (<[0%nat := Sample.data]> ∅) = (0%nat, h') /\
    h' !! 0%nat = Some g /\ Forall2 Spec.cleaned Sample.data g.
Proof.
  destruct (clean_data_in_place (<[0%nat := Sample.data]> ∅) 0%nat Sample.data)
    as (g & h' & Hrun & Hg & _ & Hc & _).
  - apply lookup_insert_eq.
  - exists g, h'. split; [exact Hrun|]. split; [exact Hg | exact Hc].
Defined.

(** ** The trajectory near its closed form *)

(** X8: for a pillar with a current score in [0, 100] and an annual rate
    between 0 and 200 percent, each year closes the fraction rate / 200 of
    the remaining distance to 100: the entry of year y in the projection
    lies within 0.06 of 100 - (100 - current) * (1 - rate / 200) ^ y.
    Rounding to one decimal moves a value by at most 0.05; the bound leaves
    room for the rounding of the arithmetic. *)
Theorem predict_future_trajectory_near_closed_form
    (cs rates : gmap string Q) (years : Z) (p : string) :
  p ∈ EsgSimulator.pillars ->
  0 <= dict_get_default cs p 0 <= 100 ->
  0 <= dict_get_default rates p 0 <= 200 ->
  exists traj,
    EsgSimulator.predict_future_trajectory cs rates years = Ok traj /\
    length traj = Z.to_nat (years + 1) /\
    forall y row, traj !! y = Some row ->
      exists v,
        row !! p = Some v /\
        100 - (100 - dict_get_default cs p 0)
              * (1 - dict_get_default rates p 0 / 200) ^ Z.of_nat y - (6 # 100)
        <= v
        <= 100 - (100 - dict_get_default cs p 0)
                 * (1 - dict_get_default rates p 0 / 200) ^ Z.of_nat y + (6 # 100).
Proof.
  intros Hp Hc Hr.
  destruct (trajectory_rows cs rates years) as (traj & Ht & Hl & Hrows).
  exists traj. split; [exact Ht|]. split; [exact Hl|].
  intros y row Hy. destruct (Hrows y row Hy) as [_ Hv].
  eexists. split; [apply (Hv p Hp)|].
  pose proof (pillar_score_closed_form (dict_get_default cs p 0)
                (dict_get_default rates p 0) y Hr (proj2 Hc)) as E.
  pose proof (round1_close (EsgSimulator.pillar_score (dict_get_default cs p 0)
                              (dict_get_default rates p 0) (Z.of_nat y))) as [Hlo Hhi].
  set (closed := 100 - (100 - dict_get_default cs p 0)
                       * (1 - dict_get_default rates p 0 / 200) ^ Z.of_nat y) in *.
  set (score := EsgSimulator.pillar_score (dict_get_default cs p 0)
                  (dict_get_default rates p 0) (Z.of_nat y)) in *.
  set (v := Num.round1 score) in *.
  split; lra.
Qed.

Lemma predict_future_trajectory_near_closed_form_witness :
  exists traj row v,
    EsgSimulator.predict_future_trajectory
      (<["environmental" := 60]> ∅) (<["environmental" := 10]> ∅) 2 = Ok traj /\
    traj !! 2%nat = Some row /\
    row !! "environmental" = Some v /\
    (639 # 10) - (6 # 100) <= v <= (639 # 10) + (6 # 100).
Proof.
  destruct (predict_future_trajectory_near_closed_form
              (<["environmental" := 60]> ∅) (<["environmental" := 10]> ∅) 2 "environmental")
    as (traj & Ht & Hl & Hrows).
  - pillar_in.
  - split; vm_compute; discriminate.
  - split; vm_compute; discriminate.
  - destruct (traj !! 2%nat) as [row|] eqn:E.
    + destruct (Hrows 2%nat row E) as (v & Hv & Hlo & Hhi).
      exists traj, row, v. split; [exact Ht|]. split; [exact E|]. split; [exact Hv|].
      assert (Ec : 100 - (100 - dict_get_default (<["environmental" := 60]> ∅)
                                  "environmental" 0)
                         * (1 - dict_get_default (<["environmental" := 10]> ∅)
                                  "environmental" 0 / 200) ^ Z.of_nat 2
                   == 639 # 10) by (vm_compute; reflexivity).
      rewrite Ec in Hlo, Hhi. split; assumption.
    + apply lookup_ge_None in E. rewrite Hl in E. vm_compute in E. lia.
Defined.
